(** * Ask-AI Support Coach: the evaluation pipeline of [app.py]

    A shallow embedding of the parts of [app.py] that carry the
    ticket-evaluation pipeline: the Zendesk transcript normaliser, the
    decoding of the model's completion, the session handlers that log
    coaching items and gate the KB draft, and the root-cause tally; then
    the display of the result, the team-wide coaching document, and the
    script of the page, run once for each interaction.

    Conventions.
    - A Python [str] is a [string]; a character is read as the code point
      of its number, so the texts of the model are the Python strings over
      U+0000..U+00FF.  The string functions below agree with Python on
      that range, with the exceptions stated at [title_char] and
      [scan_string].
    - A Python object produced by [json.loads] is a [json] value; Python
      dictionaries keep insertion order and are association lists.  A
      float is kept as the text of its literal.
    - A call that may raise returns [exc]; the remote completion service is
      an input of the handlers ([gateway_reply]), and the calls a handler
      makes are listed in its [run].
    - [hashlib.sha256] is a parameter of the handlers: the properties hold
      for every function from texts to keys.
    - Texts of the source with characters above U+00FF (the table of
      samples, the dash of the criteria bullets) are parameters as well.
      The evaluation prompt, which has such characters throughout, and
      the ROI sandbox, which is floating-point arithmetic, are not
      embedded. *)

From Stdlib Require Import String Ascii List ZArith NArith Bool Arith Lia.
From Stdlib Require Import Decimal DecimalString DecimalN DecimalPos.
From Stdlib Require Import DecimalFacts.
Import ListNotations.
Open Scope list_scope.
Open Scope string_scope.

(* ================================================================== *)
(** * Part I.  Definitions                                             *)
(* ================================================================== *)

(** ** Python lists *)

(** [l.append(x)] *)
Definition list_append {A : Type} (l : list A) (x : A) : list A :=
  (l ++ [x])%list.

(** ** Python strings *)

Module PyStr.

Definition quote : ascii := "034"%char.
Definition backslash : ascii := "092"%char.
Definition newline : ascii := "010"%char.
Definition backtick : ascii := "096"%char.

Definition between (lo hi n : nat) : bool := Nat.leb lo n && Nat.leb n hi.

(** [str.isspace] on one character: TAB..CR, FS..US, SPACE, NEL, NBSP. *)
Definition isspace (c : ascii) : bool :=
  let n := nat_of_ascii c in
  between 9 13 n || between 28 32 n || Nat.eqb n 133 || Nat.eqb n 160.

Section Strip.
Variable drop : ascii -> bool.

Fixpoint lstrip_by (s : string) : string :=
  match s with
  | String c s' => if drop c then lstrip_by s' else s
  | EmptyString => EmptyString
  end.

Fixpoint rstrip_by (s : string) : string :=
  match s with
  | EmptyString => EmptyString
  | String c s' =>
      match rstrip_by s' with
      | EmptyString => if drop c then EmptyString else String c EmptyString
      | r => String c r
      end
  end.

Definition strip_by (s : string) : string := rstrip_by (lstrip_by s).
End Strip.

(** [s.strip()] *)
Definition strip (s : string) : string := strip_by isspace s.

Fixpoint mem_char (c : ascii) (chars : string) : bool :=
  match chars with
  | EmptyString => false
  | String d chars' => Ascii.eqb c d || mem_char c chars'
  end.

(** [s.strip(chars)] *)
Definition strip_chars (chars s : string) : string :=
  strip_by (fun c => mem_char c chars) s.

(** [s.startswith(p)] *)
Fixpoint startswith (s p : string) {struct p} : bool :=
  match p with
  | EmptyString => true
  | String a p' =>
      match s with
      | String b s' => Ascii.eqb b a && startswith s' p'
      | EmptyString => false
      end
  end.

(** [s[n:]] *)
Fixpoint slice_from (n : nat) (s : string) : string :=
  match n, s with
  | O, _ => s
  | S n', String _ s' => slice_from n' s'
  | S _, EmptyString => EmptyString
  end.

(** Truth value of a string: [bool(s)]. *)
Definition nonempty (s : string) : bool :=
  match s with EmptyString => false | String _ _ => true end.

(** [a or b] on strings. *)
Definition or_str (a b : string) : string := if nonempty a then a else b.

Definition is_upper (n : nat) : bool :=
  between 65 90 n || (between 192 222 n && negb (Nat.eqb n 215)).

Definition is_lower_with_upper (n : nat) : bool :=
  between 97 122 n || (between 224 254 n && negb (Nat.eqb n 247)).

(** [c.lower()] *)
Definition lower_char (c : ascii) : ascii :=
  let n := nat_of_ascii c in
  if is_upper n then ascii_of_nat (n + 32) else c.

(** [s.lower()] *)
Fixpoint lower (s : string) : string :=
  match s with
  | EmptyString => EmptyString
  | String c s' => String (lower_char c) (lower s')
  end.

(** The title-case form of one character, as [str.capitalize] and
    [str.title] use it for a first letter.  U+00DF gives two characters.
    U+00B5 and U+00FF have their title-case form above U+00FF (U+039C and
    U+0178) and are left unchanged here. *)
Definition title_char (c : ascii) : string :=
  let n := nat_of_ascii c in
  if is_lower_with_upper n then String (ascii_of_nat (n - 32)) EmptyString
  else if Nat.eqb n 223 then "Ss"
  else String c EmptyString.

(** [s.capitalize()]: first character in title case, the rest lowered. *)
Definition capitalize (s : string) : string :=
  match s with
  | EmptyString => EmptyString
  | String c s' => title_char c ++ lower s'
  end.

(** Characters that count as cased for [str.title]. *)
Definition is_cased (c : ascii) : bool :=
  let n := nat_of_ascii c in
  is_upper n || is_lower_with_upper n
  || Nat.eqb n 170 || Nat.eqb n 181 || Nat.eqb n 186
  || Nat.eqb n 223 || Nat.eqb n 255.

(** [s.title()]: a cased character is put in title case when the previous
    character is not cased, and lowered otherwise.  The source uses it for
    criterion names and not for author roles; it is here as the reading of
    the words "title-case" against which [capitalize] is compared. *)
Fixpoint title_from (previous_is_cased : bool) (s : string) : string :=
  match s with
  | EmptyString => EmptyString
  | String c s' =>
      (if previous_is_cased then String (lower_char c) EmptyString
       else title_char c)
      ++ title_from (is_cased c) s'
  end.

Definition title (s : string) : string := title_from false s.

(** [sep.join(parts)] *)
Fixpoint join (sep : string) (parts : list string) : string :=
  match parts with
  | [] => EmptyString
  | p :: rest =>
      match rest with
      | [] => p
      | _ :: _ => p ++ sep ++ join sep rest
      end
  end.

(** Substring test, [needle in s]. *)
Definition contains (needle s : string) : bool :=
  match String.index 0 needle s with Some _ => true | None => false end.

End PyStr.

(** ** The transcript normaliser: [normalize_zendesk_ticket] *)

Module Zendesk.
Import PyStr.

(** A comment of the payload; [None] is an absent key. *)
Record comment := Comment {
  author_role : option string;
  body : option string
}.

Record payload := Payload {
  subject : option string;
  comments : option (list comment)
}.

(** [d.get(key, default)] on a field that may be absent. *)
Definition get {A : Type} (field : option A) (default : A) : A :=
  match field with Some v => v | None => default end.

Definition blank_line : string := String newline (String newline EmptyString).

(** One turn of the loop over the comments (lines 80-86). *)
Definition add_comment (parts : list string) (c : comment) : list string :=
  let author_role :=
    or_str (strip (get (author_role c) "unknown")) "unknown" in
  let body := strip (get (body c) EmptyString) in
  if nonempty body then
    let label := capitalize author_role in
    list_append parts (label ++ ": " ++ body)
  else parts.

(** The list [parts] when the function returns. *)
Definition ticket_parts (zendesk_payload : payload) : list string :=
  let subject := get (subject zendesk_payload) EmptyString in
  let comments := get (comments zendesk_payload) [] in
  let parts := [] in
  let parts :=
    if nonempty subject then list_append parts ("Subject: " ++ subject)
    else parts in
  fold_left add_comment comments parts.

Definition normalize_zendesk_ticket (zendesk_payload : payload) : string :=
  join blank_line (ticket_parts zendesk_payload).

(** The block the subject contributes: none when it is the empty string. *)
Definition subject_block (subject : string) : list string :=
  if nonempty subject then ["Subject: " ++ subject] else [].

(** The block a comment contributes, stated on its own. *)
Definition comment_block (c : comment) : list string :=
  let b := strip (get (body c) EmptyString) in
  if nonempty b
  then [capitalize (or_str (strip (get (author_role c) "unknown")) "unknown")
        ++ ": " ++ b]
  else [].

(** The label the words "title-cased trimmed author_role" describe. *)
Definition title_cased_label (c : comment) : string :=
  title (or_str (strip (get (author_role c) "unknown")) "unknown").

End Zendesk.

(** ** JSON values, [json.loads] and [json.dumps]

    The [json] module of the Python library is not part of the repository;
    this is a model of the two functions the program calls, written from
    the library's documented grammar and defaults. *)

Module Json.
Import PyStr.

(** What [json.loads] builds.  An integer literal becomes a Python [int];
    a literal with a fraction or an exponent, and the constants [NaN],
    [Infinity] and [-Infinity], become a [float], which the model keeps as
    the text of the literal and never computes with. *)
#[local] Unset Elimination Schemes.
Inductive json : Type :=
| JNull
| JBool (b : bool)
| JInt (z : Z)
| JFloat (literal : string)
| JStr (s : string)
| JArr (items : list json)
| JObj (members : list (string * json)).
#[local] Set Elimination Schemes.

(** The causes of a [JSONDecodeError].  [CodePointAboveFF] and
    [NestingTooDeep] belong to the model: the first is explained at
    [scan_string]; the second is what the scanner answers when the depth
    it was given is used up, which does not happen with the depth that
    [loads] gives (lemma [loads_fuel]).  The limits of the interpreter
    (depth of recursion, number of digits of an integer) are not
    modelled. *)
Inductive json_error : Type :=
| ExpectingValue
| ExtraData
| UnterminatedString
| InvalidControlCharacter
| InvalidEscape
| InvalidUnicodeEscape
| CodePointAboveFF
| ExpectingPropertyName
| ExpectingColon
| ExpectingComma
| NestingTooDeep.

(** The message of the exception, without its position suffix
    ("line 1 column 1 (char 0)"), which the model does not track. *)
Definition describe (e : json_error) : string :=
  match e with
  | ExpectingValue => "Expecting value"
  | ExtraData => "Extra data"
  | UnterminatedString => "Unterminated string starting at"
  | InvalidControlCharacter => "Invalid control character at"
  | InvalidEscape => "Invalid \escape"
  | InvalidUnicodeEscape => "Invalid \uXXXX escape"
  | CodePointAboveFF => "escape of a code point above U+00FF"
  | ExpectingPropertyName =>
      "Expecting property name enclosed in double quotes"
  | ExpectingColon => "Expecting ':' delimiter"
  | ExpectingComma => "Expecting ',' delimiter"
  | NestingTooDeep => "nesting deeper than the scanner was allowed"
  end.

(** The result of scanning a prefix of the input. *)
Inductive parsed (A : Type) : Type :=
| Parsed (a : A) (rest : string)
| Failed (e : json_error).
Arguments Parsed {A} a rest.
Arguments Failed {A} e.

Definition and_then {A B : Type} (p : parsed A) (f : A -> B) : parsed B :=
  match p with
  | Parsed a rest => Parsed (f a) rest
  | Failed e => Failed e
  end.

(** *** Whitespace *)

Definition is_json_ws (c : ascii) : bool :=
  let n := nat_of_ascii c in
  Nat.eqb n 32 || Nat.eqb n 9 || Nat.eqb n 10 || Nat.eqb n 13.

Definition skip_ws (s : string) : string := lstrip_by is_json_ws s.

(** *** Numbers *)

Definition is_digit (c : ascii) : bool := between 48 57 (nat_of_ascii c).

(** The longest prefix of digits, and what follows it. *)
Fixpoint span_digits (s : string) : string * string :=
  match s with
  | String c s' =>
      if is_digit c
      then let (ds, rest) := span_digits s' in (String c ds, rest)
      else (EmptyString, s)
  | EmptyString => (EmptyString, EmptyString)
  end.

(** The value of a string of digits. *)
Definition digits_value (ds : string) : N :=
  match NilEmpty.uint_of_string ds with
  | Some u => N.of_uint u
  | None => 0%N
  end.

(** The integer part of a number: [0] or a digit from 1 to 9 followed by
    digits. *)
Definition scan_int_part (s : string) : option (string * string) :=
  match s with
  | String c s' =>
      if Ascii.eqb c "0" then Some ("0", s')
      else if is_digit c then Some (span_digits s)
      else None
  | EmptyString => None
  end.

(** The fraction, [.] and at least one digit, when there is one. *)
Definition scan_fraction (s : string) : string * string :=
  match s with
  | String c s' =>
      if Ascii.eqb c "." then
        match span_digits s' with
        | (EmptyString, _) => (EmptyString, s)
        | (ds, rest) => (String c ds, rest)
        end
      else (EmptyString, s)
  | EmptyString => (EmptyString, s)
  end.

(** The exponent, [e] or [E], a sign or none, and at least one digit. *)
Definition scan_exponent (s : string) : string * string :=
  match s with
  | String c s' =>
      if Ascii.eqb c "e" || Ascii.eqb c "E" then
        let (sign, s'') :=
          match s' with
          | String d t =>
              if Ascii.eqb d "+" || Ascii.eqb d "-"
              then (String d EmptyString, t) else (EmptyString, s')
          | EmptyString => (EmptyString, s')
          end in
        match span_digits s'' with
        | (EmptyString, _) => (EmptyString, s)
        | (ds, rest) => (String c (sign ++ ds), rest)
        end
      else (EmptyString, s)
  | EmptyString => (EmptyString, s)
  end.

(** A number at the head of [s], after the sign [negative]. *)
Definition scan_unsigned (negative : bool) (s : string) : parsed json :=
  match scan_int_part s with
  | None => Failed ExpectingValue
  | Some (int_part, rest) =>
      let (frac, rest1) := scan_fraction rest in
      let (exp, rest2) := scan_exponent rest1 in
      match frac, exp with
      | EmptyString, EmptyString =>
          let n := Z.of_N (digits_value int_part) in
          Parsed (JInt (if negative then Z.opp n else n)) rest
      | _, _ =>
          Parsed
            (JFloat ((if negative then "-" else EmptyString)
                     ++ int_part ++ frac ++ exp))
            rest2
      end
  end.

Definition scan_number (s : string) : parsed json :=
  match s with
  | String c s' =>
      if Ascii.eqb c "-" then
        if startswith s' "Infinity"
        then Parsed (JFloat "-Infinity") (slice_from 8 s')
        else scan_unsigned true s'
      else scan_unsigned false s
  | EmptyString => Failed ExpectingValue
  end.

(** *** Strings *)

Definition hex_value (c : ascii) : option nat :=
  let n := nat_of_ascii c in
  if between 48 57 n then Some (n - 48)
  else if between 97 102 n then Some (n - 87)
  else if between 65 70 n then Some (n - 55)
  else None.

Definition hex4 (a b c d : ascii) : option nat :=
  match hex_value a, hex_value b, hex_value c, hex_value d with
  | Some x, Some y, Some z, Some w => Some (((x * 16 + y) * 16 + z) * 16 + w)
  | _, _, _, _ => None
  end.

(** The character a one-letter escape stands for. *)
Definition simple_escape (e : ascii) : option ascii :=
  if Ascii.eqb e quote then Some quote
  else if Ascii.eqb e backslash then Some backslash
  else if Ascii.eqb e "/" then Some "/"%char
  else if Ascii.eqb e "b" then Some "008"%char
  else if Ascii.eqb e "f" then Some "012"%char
  else if Ascii.eqb e "n" then Some "010"%char
  else if Ascii.eqb e "r" then Some "013"%char
  else if Ascii.eqb e "t" then Some "009"%char
  else None.

Definition push (c : ascii) (p : parsed string) : parsed string :=
  and_then p (String c).

(** The body of a string, after its opening quote, in strict mode.  An
    escape [\uXXXX] must be followed by at least one character.  An
    escape of a code point above U+00FF has no image among the strings of
    the model and is reported as [CodePointAboveFF], where Python builds
    the character. *)
Fixpoint scan_string (s : string) : parsed string :=
  match s with
  | EmptyString => Failed UnterminatedString
  | String c rest =>
      if Ascii.eqb c quote then Parsed EmptyString rest
      else if Ascii.eqb c backslash then
        match rest with
        | EmptyString => Failed UnterminatedString
        | String e rest' =>
            if Ascii.eqb e "u" then
              match rest' with
              | String h1 (String h2 (String h3 (String h4 rest''))) =>
                  match rest'' with
                  | EmptyString => Failed InvalidUnicodeEscape
                  | String _ _ =>
                      match hex4 h1 h2 h3 h4 with
                      | Some n =>
                          if Nat.ltb n 256
                          then push (ascii_of_nat n) (scan_string rest'')
                          else Failed CodePointAboveFF
                      | None => Failed InvalidUnicodeEscape
                      end
                  end
              | _ => Failed InvalidUnicodeEscape
              end
            else
              match simple_escape e with
              | Some ch => push ch (scan_string rest')
              | None => Failed InvalidEscape
              end
        end
      else if Nat.ltb (nat_of_ascii c) 32 then Failed InvalidControlCharacter
      else push c (scan_string rest)
  end.

(** *** Dictionaries *)

(** [d[k] = v]: the value of a key already present is replaced in place. *)
Fixpoint dict_set (d : list (string * json)) (k : string) (v : json)
  : list (string * json) :=
  match d with
  | [] => [(k, v)]
  | (k', v') :: d' =>
      if String.eqb k' k then (k', v) :: d' else (k', v') :: dict_set d' k v
  end.

(** [dict(pairs)] *)
Definition dict_of_pairs (pairs : list (string * json))
  : list (string * json) :=
  fold_left (fun d kv => dict_set d (fst kv) (snd kv)) pairs [].

Fixpoint lookup (k : string) (d : list (string * json)) : option json :=
  match d with
  | [] => None
  | (k', v) :: d' => if String.eqb k' k then Some v else lookup k d'
  end.

(** *** Arrays and objects *)

Section Containers.
(** The scanner of one value, at the nesting depth below. *)
Variable scan_value : string -> parsed json.

(** The elements of an array, from its first one to the closing
    bracket; [bound] is a bound on their number. *)
Fixpoint scan_elements (bound : nat) (s : string) : parsed (list json) :=
  match bound with
  | O => Failed NestingTooDeep
  | S bound' =>
      match scan_value s with
      | Failed e => Failed e
      | Parsed v rest =>
          match skip_ws rest with
          | String c rest' =>
              if Ascii.eqb c "]" then Parsed [v] rest'
              else if Ascii.eqb c "," then
                and_then (scan_elements bound' (skip_ws rest')) (cons v)
              else Failed ExpectingComma
          | EmptyString => Failed ExpectingComma
          end
      end
  end.

(** The members of an object, from the opening quote of its first key
    to the closing brace. *)
Fixpoint scan_members (bound : nat) (s : string)
  : parsed (list (string * json)) :=
  match bound with
  | O => Failed NestingTooDeep
  | S bound' =>
      match s with
      | String q s1 =>
          if Ascii.eqb q quote then
            match scan_string s1 with
            | Failed e => Failed e
            | Parsed key s2 =>
                match skip_ws s2 with
                | String colon s3 =>
                    if Ascii.eqb colon ":" then
                      match scan_value (skip_ws s3) with
                      | Failed e => Failed e
                      | Parsed v s4 =>
                          match skip_ws s4 with
                          | String c s5 =>
                              if Ascii.eqb c "}" then Parsed [(key, v)] s5
                              else if Ascii.eqb c "," then
                                and_then
                                  (scan_members bound' (skip_ws s5))
                                  (cons (key, v))
                              else Failed ExpectingComma
                          | EmptyString => Failed ExpectingComma
                          end
                      end
                    else Failed ExpectingColon
                | EmptyString => Failed ExpectingColon
                end
            end
          else Failed ExpectingPropertyName
      | EmptyString => Failed ExpectingPropertyName
      end
  end.
End Containers.

(** One value at the head of [s]; [depth] bounds the nesting. *)
Fixpoint scan_value (depth : nat) (s : string) : parsed json :=
  match depth with
  | O => Failed NestingTooDeep
  | S depth' =>
      match s with
      | EmptyString => Failed ExpectingValue
      | String c rest =>
          if Ascii.eqb c quote then and_then (scan_string rest) JStr
          else if Ascii.eqb c "{" then
            match skip_ws rest with
            | String d rest' =>
                if Ascii.eqb d "}" then Parsed (JObj []) rest'
                else
                  and_then
                    (scan_members (scan_value depth')
                       (String.length rest) (skip_ws rest))
                    (fun pairs => JObj (dict_of_pairs pairs))
            | EmptyString => Failed ExpectingPropertyName
            end
          else if Ascii.eqb c "[" then
            match skip_ws rest with
            | String d rest' =>
                if Ascii.eqb d "]" then Parsed (JArr []) rest'
                else
                  and_then
                    (scan_elements (scan_value depth')
                       (String.length rest) (skip_ws rest))
                    JArr
            | EmptyString => Failed ExpectingValue
            end
          else if startswith s "null" then Parsed JNull (slice_from 4 s)
          else if startswith s "true"
          then Parsed (JBool true) (slice_from 4 s)
          else if startswith s "false"
          then Parsed (JBool false) (slice_from 5 s)
          else if startswith s "NaN"
          then Parsed (JFloat "NaN") (slice_from 3 s)
          else if startswith s "Infinity"
          then Parsed (JFloat "Infinity") (slice_from 8 s)
          else scan_number s
      end
  end.

(** [json.loads(s)]: whitespace, one value, whitespace, end of text.
    The limits of the interpreter are not modelled: Python refuses an
    integer of more than 4300 digits and a nesting of about a thousand
    levels, and the evaluator then reports a decode failure. *)
Definition loads (s : string) : json + json_error :=
  match scan_value (S (String.length s)) (skip_ws s) with
  | Failed e => inr e
  | Parsed v rest =>
      match skip_ws rest with
      | EmptyString => inl v
      | String _ _ => inr ExtraData
      end
  end.

(** *** Serialisation, with the defaults of [json.dumps]

    In the strings of this file a backslash is an ordinary character: the
    escapes below are two characters each. *)

(** [str(n)] for an integer. *)
Definition string_of_N (n : N) : string :=
  NilEmpty.string_of_uint (N.to_uint n).

Definition string_of_Z (z : Z) : string :=
  match z with
  | Z0 => "0"
  | Zpos p => string_of_N (Npos p)
  | Zneg p => "-" ++ string_of_N (Npos p)
  end.

Definition hex_digit (n : nat) : ascii :=
  if Nat.ltb n 10 then ascii_of_nat (48 + n) else ascii_of_nat (87 + n).

(** One character of a string under [ensure_ascii=True]. *)
Definition escape_char (c : ascii) : string :=
  let n := nat_of_ascii c in
  if Ascii.eqb c quote then String backslash (String quote EmptyString)
  else if Ascii.eqb c backslash
  then String backslash (String backslash EmptyString)
  else if Nat.eqb n 10 then "\n"
  else if Nat.eqb n 13 then "\r"
  else if Nat.eqb n 9 then "\t"
  else if Nat.eqb n 8 then "\b"
  else if Nat.eqb n 12 then "\f"
  else if between 32 126 n then String c EmptyString
  else "\u00" ++ String (hex_digit (n / 16))
                   (String (hex_digit (n mod 16)) EmptyString).

Fixpoint escape (s : string) : string :=
  match s with
  | EmptyString => EmptyString
  | String c s' => escape_char c ++ escape s'
  end.

Definition encode_string (s : string) : string :=
  String quote (escape s ++ String quote EmptyString).

(** The layout of [json.dumps(v, indent=indent)]: with [indent=None]
    everything is on one line and items are separated by a comma and a
    space; with a number, every item is on a line of its own, indented by
    that many spaces for each level of nesting. *)
Fixpoint spaces (n : nat) : string :=
  match n with
  | O => EmptyString
  | S n' => String " " (spaces n')
  end.

Definition newline_indent (width level : nat) : string :=
  String newline (spaces (width * level)).

(** What is written after an opening bracket and before a closing one. *)
Definition gap (indent : option nat) (level : nat) : string :=
  match indent with
  | None => EmptyString
  | Some width => newline_indent width level
  end.

(** What is written after the comma between two items. *)
Definition item_gap (indent : option nat) (level : nat) : string :=
  match indent with
  | None => " "
  | Some width => newline_indent width level
  end.

Definition item_separator (indent : option nat) (level : nat) : string :=
  String "," (item_gap indent level).

(** [json.dumps(v, indent=indent)] at a nesting level.  A float is written
    as the literal it was read from, where Python writes [repr] of the
    number. *)
Fixpoint dumps_at (indent : option nat) (level : nat) (v : json) : string :=
  match v with
  | JNull => "null"
  | JBool true => "true"
  | JBool false => "false"
  | JInt z => string_of_Z z
  | JFloat literal => literal
  | JStr s => encode_string s
  | JArr [] => "[]"
  | JArr items =>
      "[" ++ gap indent (S level)
      ++ join (item_separator indent (S level))
           (map (dumps_at indent (S level)) items)
      ++ gap indent level ++ "]"
  | JObj [] => "{}"
  | JObj members =>
      "{" ++ gap indent (S level)
      ++ join (item_separator indent (S level))
           (map (fun kv =>
                   encode_string (fst kv) ++ ": "
                   ++ dumps_at indent (S level) (snd kv))
              members)
      ++ gap indent level ++ "}"
  end.

(** [json.dumps(v)] *)
Definition dumps (v : json) : string := dumps_at None 0 v.

(** *** The values [dumps] and [loads] exchange faithfully *)

Fixpoint distinct (keys : list string) : bool :=
  match keys with
  | [] => true
  | k :: keys' => negb (existsb (String.eqb k) keys') && distinct keys'
  end.

(** No float, and no key twice in a dictionary. *)
Fixpoint plain (v : json) : bool :=
  match v with
  | JFloat _ => false
  | JArr items => forallb plain items
  | JObj members =>
      distinct (map fst members)
      && forallb (fun kv => plain (snd kv)) members
  | _ => true
  end.

Fixpoint depth (v : json) : nat :=
  match v with
  | JArr items => S (fold_right (fun x m => Nat.max (depth x) m) 0 items)
  | JObj members =>
      S (fold_right (fun kv m => Nat.max (depth (snd kv)) m) 0 members)
  | _ => 1
  end.

(** What may follow an integer without being read as part of it. *)
Definition stops_number (rest : string) : bool :=
  match rest with
  | EmptyString => true
  | String c _ =>
      negb (is_digit c || Ascii.eqb c "." || Ascii.eqb c "e"
            || Ascii.eqb c "E")
  end.

(** The text goes on after whitespace has been skipped, and does not
    start with a closing bracket. *)
Definition starts_value (text : string) : Prop :=
  exists c s,
    text = String c s /\ isspace c = false /\ is_json_ws c = false
    /\ Ascii.eqb c "]" = false /\ Ascii.eqb c "}" = false.

(** [scan] reads the value [v] from its text, whatever follows. *)
Definition reads (scan : string -> parsed json) (text : string) (v : json)
  : Prop :=
  forall rest,
    stops_number rest = true -> scan (text ++ rest) = Parsed v rest.

(** The text of one member of an object. *)
Definition member_text (indent : option nat) (level : nat)
  (kv : string * json) : string :=
  encode_string (fst kv) ++ ": " ++ dumps_at indent level (snd kv).

(** The text [key: value] of a member reads as the key and the value. *)
Definition reads_member (scan : string -> parsed json) (text : string)
  (kv : string * json) : Prop :=
  exists value_text,
    text = encode_string (fst kv) ++ ": " ++ value_text
    /\ reads scan value_text (snd kv)
    /\ starts_value value_text.

(** *** Python operations on decoded values *)

Inductive exn : Type := TransportError | TypeError | AttributeError.

Inductive exc (A : Type) : Type :=
| Ok (a : A)
| Raise (e : exn).
Arguments Ok {A} a.
Arguments Raise {A} e.

Definition bind {A B : Type} (m : exc A) (f : A -> exc B) : exc B :=
  match m with
  | Ok a => f a
  | Raise e => Raise e
  end.

Notation "x <- m ;; k" := (bind m (fun x => k))
  (at level 61, m at next level, right associativity).

(** The number a float literal denotes is [mantissa * 10 ^ exponent]: the
    digits of the integer part and of the fraction, and the exponent less
    the number of digits of the fraction. *)
Definition float_parts (literal : string) : N * Z :=
  let unsigned :=
    match literal with
    | String c rest => if Ascii.eqb c "-" then rest else literal
    | EmptyString => literal
    end in
  let (int_part, rest) := span_digits unsigned in
  let (frac, rest1) :=
    match rest with
    | String c rest' =>
        if Ascii.eqb c "." then span_digits rest' else (EmptyString, rest)
    | EmptyString => (EmptyString, rest)
    end in
  let exponent :=
    match rest1 with
    | String _ (String sign digits) =>
        if Ascii.eqb sign "-" then Z.opp (Z.of_N (digits_value digits))
        else if Ascii.eqb sign "+" then Z.of_N (digits_value digits)
        else Z.of_N (digits_value (String sign digits))
    | _ => 0%Z
    end in
  (digits_value (int_part ++ frac),
   Z.sub exponent (Z.of_nat (String.length frac))).

(** [float(literal) == 0].  The conversion rounds to the nearest float,
    ties to even: the numbers that become zero are those at most
    2^-1075, half the least positive float. *)
Definition float_is_zero (literal : string) : bool :=
  if startswith literal "NaN" || startswith literal "Infinity"
     || startswith literal "-Infinity"
  then false
  else
    let (mantissa, exponent) := float_parts literal in
    N.eqb mantissa 0
    || (Z.ltb exponent 0
        && Z.leb (Z.mul (Z.of_N mantissa) (Z.pow 2 1075))
             (Z.pow 10 (Z.opp exponent))).

(** [bool(v)] *)
Definition truthy (v : json) : bool :=
  match v with
  | JNull => false
  | JBool b => b
  | JInt z => negb (Z.eqb z 0)
  | JFloat literal => negb (float_is_zero literal)
  | JStr s => nonempty s
  | JArr items => match items with [] => false | _ :: _ => true end
  | JObj members => match members with [] => false | _ :: _ => true end
  end.

(** [v == s] for a string [s]. *)
Definition eq_str (v : json) (s : string) : bool :=
  match v with
  | JStr t => String.eqb t s
  | _ => false
  end.

(** [key in v] for a string [key]: a key of a dictionary, an element of a
    list, a substring of a string; other values are not containers. *)
Definition contains_key (key : string) (v : json) : exc bool :=
  match v with
  | JObj members =>
      Ok (match lookup key members with Some _ => true | None => false end)
  | JArr items => Ok (existsb (fun x => eq_str x key) items)
  | JStr s => Ok (contains key s)
  | _ => Raise TypeError
  end.

(** [v.get(key, default)]: only dictionaries have the method. *)
Definition get (v : json) (key : string) (default : json) : exc json :=
  match v with
  | JObj members =>
      Ok (match lookup key members with Some x => x | None => default end)
  | _ => Raise AttributeError
  end.

(** [a or b] *)
Definition or_else (a b : json) : json := if truthy a then a else b.

End Json.

(** ** The evaluation schema

    The format the prompt asks the model for (lines 151-184).  A score is
    any integer and a text any string: the code checks neither the range
    of the scores nor the link between label and suggestion. *)

Module Schema.
Import Json.

Inductive root_cause_label : Type := agent_performance | content_gap | mixed.

Definition label_name (l : root_cause_label) : string :=
  match l with
  | agent_performance => "agent_performance"
  | content_gap => "content_gap"
  | mixed => "mixed"
  end.

(** The labels for which a KB article is asked of the model. *)
Definition documentation_gap (l : root_cause_label) : bool :=
  match l with
  | agent_performance => false
  | content_gap | mixed => true
  end.

Record rating := Rating {
  score : Z;
  justification : string
}.

Record root_cause := RootCause {
  label : root_cause_label;
  explanation : string;
  kb_article_suggestion : string
}.

Record evaluation := Evaluation {
  technical_accuracy : rating;
  clarity_and_tone : rating;
  diagnostic_depth : rating;
  ownership_and_follow_through : rating;
  escalation_judgment : rating;
  overall_rating : rating;
  cause : root_cause;
  coaching_summary : string
}.

Definition rating_to_json (r : rating) : json :=
  JObj [("score", JInt (score r)); ("justification", JStr (justification r))].

Definition root_cause_to_json (c : root_cause) : json :=
  JObj [("label", JStr (label_name (label c)));
        ("explanation", JStr (explanation c));
        ("kb_article_suggestion", JStr (kb_article_suggestion c))].

(** The dictionary of a well-formed evaluation. *)
Definition to_json (e : evaluation) : json :=
  JObj
    [("criteria",
      JObj
        [("technical_accuracy", rating_to_json (technical_accuracy e));
         ("clarity_and_tone", rating_to_json (clarity_and_tone e));
         ("diagnostic_depth", rating_to_json (diagnostic_depth e));
         ("ownership_and_follow_through",
          rating_to_json (ownership_and_follow_through e));
         ("escalation_judgment", rating_to_json (escalation_judgment e))]);
     ("overall_rating", rating_to_json (overall_rating e));
     ("root_cause", root_cause_to_json (cause e));
     ("coaching_summary", JStr (coaching_summary e))].

End Schema.

(** ** The evaluator: [evaluate_ticket] *)

Module Evaluator.
Import PyStr Json.

(** What the completion service answers to one call: it fails, or it
    returns a message whose content is a string or [None]. *)
Inductive gateway_reply : Type :=
| GatewayFails
| Completion (content : option string).

(** [content or the empty string] *)
Definition content_or_empty (content : option string) : string :=
  match content with
  | Some s => s
  | None => EmptyString
  end.

Definition fence_marker : string :=
  String backtick (String backtick (String backtick EmptyString)).

(** Lines 216-220: the text handed to [json.loads]. *)
Definition strip_fences (raw_content : string) : string :=
  let cleaned := strip raw_content in
  if startswith cleaned fence_marker then
    let cleaned := strip_chars (String backtick EmptyString) cleaned in
    if startswith (lower cleaned) "json"
    then strip (slice_from 4 cleaned)
    else cleaned
  else cleaned.

(** Line 224: the dictionary returned when parsing raised. *)
Definition parse_failure (e : json_error) (raw_content : string) : json :=
  JObj [("error",
         JStr ("Failed to parse model output as JSON: " ++ describe e));
        ("raw_output", JStr raw_content)].

(** Lines 214-224. *)
Definition decode (raw_content : string) : json :=
  match loads (strip_fences raw_content) with
  | inl data => data
  | inr e => parse_failure e raw_content
  end.

(** Lines 191-224.  The prompt built from [ticket_text] goes to the
    service, whose answer is [reply]; a failure of the call is not caught. *)
Definition evaluate_ticket (ticket_text : string) (reply : gateway_reply)
  : exc json :=
  match reply with
  | GatewayFails => Raise TransportError
  | Completion content =>
      let raw_content := content_or_empty content in
      Ok (decode raw_content)
  end.

(** Lines 227-269. *)
Definition generate_kb_article (ticket_text : string) (kb_suggestion : json)
  (reply : gateway_reply) : exc string :=
  match reply with
  | GatewayFails => Raise TransportError
  | Completion content => Ok (content_or_empty content)
  end.

(** A result is a decode failure when it is a dictionary with the key
    ["error"]; this is the test the callers make. *)
Definition is_decode_failure (result : json) : bool :=
  match result with
  | JObj members =>
      match lookup "error" members with Some _ => true | None => false end
  | _ => false
  end.

(** The raw text a decode failure carries. *)
Definition raw_output (result : json) : option json :=
  match result with
  | JObj members => lookup "raw_output" members
  | _ => None
  end.

(** A completion that wraps [text] in a json code fence. *)
Definition fenced (text : string) : string :=
  fence_marker ++ "json" ++ String newline text
  ++ String newline fence_marker.

End Evaluator.

(** ** The session and its handlers *)

Module Session.
Import PyStr Json Evaluator.

(** A coaching item is a dictionary. *)
Definition item : Type := list (string * json).

(** The keys of [st.session_state] the handlers read and write
    (lines 457-479). *)
Record session := {
  last_result : option json;
  last_ticket_text : string;
  kb_draft : string;
  coaching_history : list item;
  coaching_keys : list string;
  team_insights : string;
  current_ticket_label : option string
}.

(** The session at start-up.  The label of the default sample has a
    character above U+00FF and is a parameter. *)
Definition fresh_session (default_label : string) : session :=
  {| last_result := None;
     last_ticket_text := EmptyString;
     kb_draft := EmptyString;
     coaching_history := [];
     coaching_keys := [];
     team_insights := EmptyString;
     current_ticket_label := Some default_label |}.

Inductive gateway_call : Type :=
| EvaluateCall (ticket_text : string)
| KbDraftCall (ticket_text : string) (kb_suggestion : json).

Inductive outcome : Type :=
| Done
| Warned
| Raised (e : exn).

(** One run of a handler: the session it leaves, how it ended, and the
    calls it made to the completion service. *)
Record run := {
  final : session;
  ended : outcome;
  calls : list gateway_call
}.

Definition label_or_adhoc (st : session) : string :=
  match current_ticket_label st with
  | Some l => l
  | None => "Ad-hoc ticket"
  end.

Definition coaching_item (label : string) (overall_score root_label
  coaching : json) : item :=
  [("label", JStr label);
   ("overall_score", overall_score);
   ("root_cause", root_label);
   ("coaching_summary", coaching)].

Section Handlers.
(** [hashlib.sha256(text.encode("utf-8")).hexdigest()] *)
Variable sha256_hexdigest : string -> string.

(** Lines 560-578. *)
Definition log_coaching (st : session) (ticket_text : string)
  (result : json) : exc session :=
  has_error <- contains_key "error" result ;;
  if has_error then Ok st
  else
    coaching <- get result "coaching_summary" (JStr EmptyString) ;;
    root <- get result "root_cause" (JObj []) ;;
    let root := or_else root (JObj []) in
    overall <- get result "overall_rating" (JObj []) ;;
    let overall := or_else overall (JObj []) in
    root_label <- get root "label" (JStr "unknown") ;;
    overall_score <- get overall "score" (JStr "N/A") ;;
    if truthy coaching then
      let ticket_key := sha256_hexdigest ticket_text in
      if existsb (String.eqb ticket_key) (coaching_keys st) then Ok st
      else
        Ok {| last_result := last_result st;
              last_ticket_text := last_ticket_text st;
              kb_draft := kb_draft st;
              coaching_history :=
                list_append (coaching_history st)
                  (coaching_item (label_or_adhoc st) overall_score
                     root_label coaching);
              coaching_keys := list_append (coaching_keys st) ticket_key;
              team_insights := team_insights st;
              current_ticket_label := current_ticket_label st |}
    else Ok st.

(** Lines 548-578: the handler of the button "Evaluate agent
    performance". *)
Definition run_eval (st : session) (ticket_text : string)
  (reply : gateway_reply) : run :=
  if nonempty (strip ticket_text) then
    match evaluate_ticket ticket_text reply with
    | Raise e =>
        {| final := st; ended := Raised e;
           calls := [EvaluateCall ticket_text] |}
    | Ok result =>
        let st1 :=
          {| last_result := Some result;
             last_ticket_text := ticket_text;
             kb_draft := EmptyString;
             coaching_history := coaching_history st;
             coaching_keys := coaching_keys st;
             team_insights := EmptyString;
             current_ticket_label := current_ticket_label st |} in
        match log_coaching st1 ticket_text result with
        | Ok st2 =>
            {| final := st2; ended := Done;
               calls := [EvaluateCall ticket_text] |}
        | Raise e =>
            {| final := st1; ended := Raised e;
               calls := [EvaluateCall ticket_text] |}
        end
    end
  else {| final := st; ended := Warned; calls := [] |}.

(** A session after a sequence of evaluations, each with the text of the
    ticket and the answer of the service. *)
Definition run_evals (st : session)
  (evaluations : list (string * gateway_reply)) : session :=
  fold_left (fun st ev => final (run_eval st (fst ev) (snd ev)))
    evaluations st.
End Handlers.

(** Lines 644-649: the suggestion for which the button "Generate KB
    article draft" is shown, if it is. *)
Definition kb_offer (result : json) : exc (option json) :=
  if truthy result then
    has_error <- contains_key "error" result ;;
    if has_error then Ok None
    else
      root <- get result "root_cause" (JObj []) ;;
      let root := or_else root (JObj []) in
      root_label <- get root "label" (JStr EmptyString) ;;
      kb_suggestion <- get root "kb_article_suggestion" (JStr EmptyString) ;;
      if truthy kb_suggestion
         && (eq_str root_label "content_gap" || eq_str root_label "mixed")
      then Ok (Some kb_suggestion)
      else Ok None
  else Ok None.

(** Lines 644-660: step 2 of the page; [clicked] tells whether the button,
    when shown, was pressed.  The display of the result, which comes
    before on the page, is left out. *)
Definition kb_step (st : session) (clicked : bool) (reply : gateway_reply)
  : run :=
  let idle := {| final := st; ended := Done; calls := [] |} in
  match last_result st with
  | None => idle
  | Some result =>
      match kb_offer result with
      | Raise e => {| final := st; ended := Raised e; calls := [] |}
      | Ok None => idle
      | Ok (Some kb_suggestion) =>
          if clicked then
            let call := KbDraftCall (last_ticket_text st) kb_suggestion in
            match
              generate_kb_article (last_ticket_text st) kb_suggestion reply
            with
            | Raise e =>
                {| final := st; ended := Raised e; calls := [call] |}
            | Ok kb_text =>
                {| final :=
                     {| last_result := last_result st;
                        last_ticket_text := last_ticket_text st;
                        kb_draft := kb_text;
                        coaching_history := coaching_history st;
                        coaching_keys := coaching_keys st;
                        team_insights := team_insights st;
                        current_ticket_label := current_ticket_label st |};
                   ended := Done;
                   calls := [call] |}
            end
          else idle
      end
  end.

(** *** The tally of root causes: [Counter] *)

(** Lists and dictionaries cannot be keys of a [Counter]. *)
Definition hashable (v : json) : bool :=
  match v with
  | JArr _ | JObj _ => false
  | _ => true
  end.

(** [a == b] on hashable values.  [True] and [False] are the integers 1
    and 0; floats are compared by their literals and never equal an
    integer here. *)
Definition key_eqb (a b : json) : bool :=
  match a, b with
  | JNull, JNull => true
  | JStr s, JStr t => String.eqb s t
  | JFloat x, JFloat y => String.eqb x y
  | JInt x, JInt y => Z.eqb x y
  | JBool x, JBool y => Bool.eqb x y
  | JBool x, JInt y | JInt y, JBool x => Z.eqb y (if x then 1 else 0)
  | _, _ => false
  end.

Definition counter : Type := list (json * nat).

(** [c[k] += 1] *)
Fixpoint counter_add (k : json) (c : counter) : counter :=
  match c with
  | [] => [(k, 1)]
  | (k', n) :: c' =>
      if key_eqb k' k then (k', S n) :: c' else (k', n) :: counter_add k c'
  end.

(** [Counter(keys)] *)
Definition Counter (keys : list json) : exc counter :=
  if forallb hashable keys
  then Ok (fold_left (fun c k => counter_add k c) keys [])
  else Raise TypeError.

(** [c.get(k)] *)
Fixpoint counter_get (c : counter) (k : json) : option nat :=
  match c with
  | [] => None
  | (k', n) :: c' => if key_eqb k' k then Some n else counter_get c' k
  end.

(** [c[k]], which is 0 for a key that is not there. *)
Definition count_of (c : counter) (k : json) : nat :=
  match counter_get c k with
  | Some n => n
  | None => 0
  end.

(** [item.get("root_cause", "unknown")] *)
Definition root_cause_of (it : item) : json :=
  match lookup "root_cause" it with
  | Some v => v
  | None => JStr "unknown"
  end.

(** Lines 710 and 853. *)
Definition root_counts (history : list item) : exc counter :=
  Counter (map root_cause_of history).

(** The number of items whose root cause is [k]. *)
Definition occurrences (k : json) (history : list item) : nat :=
  List.length (filter (fun it => key_eqb (root_cause_of it) k) history).

(** The bucket the words "unrecognized or absent labels count under an
    unknown bucket" give to an item. *)
Definition bucket_by_the_words (it : item) : json :=
  match lookup "root_cause" it with
  | Some (JStr l) =>
      if String.eqb l "agent_performance" || String.eqb l "content_gap"
         || String.eqb l "mixed"
      then JStr l else JStr "unknown"
  | _ => JStr "unknown"
  end.

Definition occurrences_by_the_words (k : json) (history : list item) : nat :=
  List.length (filter (fun it => key_eqb (bucket_by_the_words it) k) history).

(** *** Invariants of the store *)

(** One key per item, and no key twice. *)
Definition store_consistent (st : session) : Prop :=
  NoDup (coaching_keys st)
  /\ List.length (coaching_keys st) = List.length (coaching_history st).

(** Every item has a coaching summary that is not empty. *)
Definition summaries_nonempty (st : session) : Prop :=
  Forall
    (fun it =>
       exists c, lookup "coaching_summary" it = Some c /\ truthy c = true)
    (coaching_history st).

(** What one evaluation does to the store: nothing, or one key and one
    item with a coaching summary that is not empty. *)
Inductive logged (ticket_key : string) (st st' : session) : Prop :=
| logged_nothing :
    coaching_keys st' = coaching_keys st ->
    coaching_history st' = coaching_history st ->
    logged ticket_key st st'
| logged_one (label : string) (overall_score root_label coaching : json) :
    ~ In ticket_key (coaching_keys st) ->
    truthy coaching = true ->
    coaching_keys st' = list_append (coaching_keys st) ticket_key ->
    coaching_history st'
    = list_append (coaching_history st)
        (coaching_item label overall_score root_label coaching) ->
    logged ticket_key st st'.

(** The results the handler logs, with the overall score, the label and
    the coaching summary it takes from them: no key "error", a coaching
    summary that is not empty, and a root cause and an overall rating that
    are dictionaries, absent or false. *)
Definition recordable (result : json) (overall_score root_label
  coaching : json) : Prop :=
  contains_key "error" result = Ok false
  /\ get result "coaching_summary" (JStr EmptyString) = Ok coaching
  /\ truthy coaching = true
  /\ (exists root,
        get result "root_cause" (JObj []) = Ok root
        /\ get (or_else root (JObj [])) "label" (JStr "unknown")
           = Ok root_label)
  /\ (exists overall,
        get result "overall_rating" (JObj []) = Ok overall
        /\ get (or_else overall (JObj [])) "score" (JStr "N/A")
           = Ok overall_score).

(** The item logged for a well-formed evaluation. *)
Definition item_of (label : string) (e : Schema.evaluation) : item :=
  coaching_item label
    (JInt (Schema.score (Schema.overall_rating e)))
    (JStr (Schema.label_name (Schema.label (Schema.cause e))))
    (JStr (Schema.coaching_summary e)).

End Session.

(** ** Text forms of decoded values: [str] and [repr] *)

Module Format.
Import PyStr Json.

Definition apostrophe : ascii := "039"%char.

(** A line feed, as a string. *)
Definition nl : string := String newline EmptyString.

(** [c.isprintable()] on U+0000..U+00FF. *)
Definition isprintable (c : ascii) : bool :=
  let n := nat_of_ascii c in
  between 32 126 n || (between 161 255 n && negb (Nat.eqb n 173)).

(** One character of [repr(s)] between the quotes [q]. *)
Definition repr_char (q c : ascii) : string :=
  let n := nat_of_ascii c in
  if Ascii.eqb c q || Ascii.eqb c backslash
  then String backslash (String c EmptyString)
  else if Nat.eqb n 9 then "\t"
  else if Nat.eqb n 10 then "\n"
  else if Nat.eqb n 13 then "\r"
  else if isprintable c then String c EmptyString
  else "\x" ++ String (hex_digit (n / 16))
                 (String (hex_digit (n mod 16)) EmptyString).

Fixpoint repr_chars (q : ascii) (s : string) : string :=
  match s with
  | EmptyString => EmptyString
  | String c s' => repr_char q c ++ repr_chars q s'
  end.

(** [repr(s)] of a string: in apostrophes, or in double quotes when the
    string has an apostrophe and no double quote. *)
Definition repr_str (s : string) : string :=
  let q :=
    if mem_char apostrophe s && negb (mem_char quote s)
    then quote else apostrophe in
  String q (repr_chars q s ++ String q EmptyString).

(** [repr(x)] of a float.  A finite number is written as the literal it
    was read from, where Python writes the shortest decimal of the
    number. *)
Definition repr_float (literal : string) : string :=
  if String.eqb literal "NaN" then "nan"
  else if String.eqb literal "Infinity" then "inf"
  else if String.eqb literal "-Infinity" then "-inf"
  else literal.

(** [repr(v)] *)
Fixpoint repr (v : json) : string :=
  match v with
  | JNull => "None"
  | JBool true => "True"
  | JBool false => "False"
  | JInt z => string_of_Z z
  | JFloat literal => repr_float literal
  | JStr s => repr_str s
  | JArr items => "[" ++ join ", " (map repr items) ++ "]"
  | JObj members =>
      "{"
      ++ join ", "
           (map (fun kv => repr_str (fst kv) ++ ": " ++ repr (snd kv))
              members)
      ++ "}"
  end.

(** [str(v)], which is what an f-string writes for [{v}]. *)
Definition str (v : json) : string :=
  match v with
  | JStr s => s
  | _ => repr v
  end.

(** [str(n)] for a count. *)
Definition string_of_nat (n : nat) : string := string_of_N (N.of_nat n).

(** [s.replace(old, new)] for a one-character [old]. *)
Fixpoint replace_char (old : ascii) (new s : string) : string :=
  match s with
  | EmptyString => EmptyString
  | String c s' =>
      (if Ascii.eqb c old then new else String c EmptyString)
      ++ replace_char old new s'
  end.

(** Every character of [s] is whitespace. *)
Fixpoint blank (s : string) : bool :=
  match s with
  | EmptyString => true
  | String c s' => isspace c && blank s'
  end.

End Format.

(** ** The team-wide coaching document: [generate_team_insights] and
    step 3 of the page *)

Module Insights.
Import PyStr Json Evaluator Session Format.

(** [item.get(key, default)] *)
Definition item_get (it : item) (key : string) (default : json) : json :=
  match lookup key it with
  | Some v => v
  | None => default
  end.

(** [v.strip()]: only strings have the method. *)
Definition strip_value (v : json) : exc string :=
  match v with
  | JStr s => Ok (strip s)
  | _ => Raise AttributeError
  end.

(** The coaching summary of an item is a string, or the item has none. *)
Definition summary_is_text (it : item) : bool :=
  match item_get it "coaching_summary" (JStr EmptyString) with
  | JStr _ => true
  | _ => false
  end.

(** Lines 279-288: the lines written for one coaching item. *)
Definition item_lines (it : item) : exc string :=
  let label := item_get it "label" (JStr "Unnamed ticket") in
  let root_cause := item_get it "root_cause" (JStr "unknown") in
  let overall := item_get it "overall_score" (JStr "N/A") in
  summary <-
    strip_value (item_get it "coaching_summary" (JStr EmptyString)) ;;
  Ok ("- Ticket: " ++ str label ++ nl
      ++ "  - Root cause: " ++ str root_cause ++ nl
      ++ "  - Overall score: " ++ str overall ++ nl
      ++ "  - Coaching summary:" ++ nl
      ++ "    " ++ summary ++ nl).

(** Lines 277-288: the loop over the items. *)
Fixpoint coaching_lines (coaching_items : list item) : exc (list string) :=
  match coaching_items with
  | [] => Ok []
  | it :: rest =>
      line <- item_lines it ;;
      lines <- coaching_lines rest ;;
      Ok (line :: lines)
  end.

(** Line 290. *)
Definition coaching_block (coaching_items : list item) : exc string :=
  lines <- coaching_lines coaching_items ;;
  Ok (join (nl ++ nl) lines).

(** Lines 292-320: the prompt around the block. *)
Definition insights_prompt (coaching_block : string) : string :=
  nl ++ "You are a Director of Support Enablement presenting to a VP of Support and a CRO.

You will be given several ticket-level coaching summaries.

Your job is to synthesize them into a **single, team-wide coaching document**
that clearly ties coaching themes to business outcomes.

Focus on:
- Common agent weaknesses and anti-patterns
- Systematic behavior patterns across tickets
- Org-wide coaching themes
- Recommended best practices for all agents
- Training or playbook updates that would help
- Repeated signals of documentation or content gaps

For each theme, explicitly connect to metrics such as:
- case deflection / self-serve rate
- first-contact resolution (FCR)
- time to resolution
- escalations avoided (Tier-2 / Engineering)
- churn / renewal risk
- compliance / audit risk for regulated customers

Return a concise, actionable document in Markdown.

Coaching items:" ++ nl
  ++ coaching_block ++ nl.

(** Lines 272-331.  The prompt goes to the service, whose answer is
    [reply]; a failure of the call is not caught. *)
Definition generate_team_insights (coaching_items : list item)
  (reply : gateway_reply) : exc string :=
  coaching_block <- coaching_block coaching_items ;;
  match reply with
  | GatewayFails => Raise TransportError
  | Completion content => Ok (content_or_empty content)
  end.

(** The prompts [generate_team_insights] sends: one, when the block could
    be built. *)
Definition insights_prompts (coaching_items : list item) : list string :=
  match coaching_block coaching_items with
  | Ok block => [insights_prompt block]
  | Raise _ => []
  end.

(** Truth value of [root_counts.get(label)]: a count, or [None]. *)
Definition counted (n : option nat) : bool :=
  match n with
  | Some (S _) => true
  | _ => false
  end.

(** Lines 712-726: the bullets of the pattern snapshot. *)
Definition agent_performance_bullet (n : nat) : string :=
  "- " ++ string_of_nat n ++ " cases are primarily **agent-performance** "
  ++ "(coaching and process issues).".

Definition content_gap_bullet (n : nat) : string :=
  "- " ++ string_of_nat n ++ " cases are primarily **content-gaps** "
  ++ "(deflectable via better docs).".

Definition mixed_bullet (n : nat) : string :=
  "- " ++ string_of_nat n ++ " cases are **mixed** (both coaching and docs).".

(** [if root_counts.get(label): bullets.append(text)] *)
Definition bullet_for (root_counts : counter) (label : string)
  (text : nat -> string) : list string :=
  if counted (counter_get root_counts (JStr label))
  then [text (count_of root_counts (JStr label))]
  else [].

Definition pattern_bullets (root_counts : counter) : list string :=
  (bullet_for root_counts "agent_performance" agent_performance_bullet
   ++ bullet_for root_counts "content_gap" content_gap_bullet
   ++ bullet_for root_counts "mixed" mixed_bullet)%list.

(** One run of step 3: the session it leaves, how it ended, the bullets
    of the snapshot and the prompts sent to the service. *)
Record canon_run := {
  after : session;
  ending : outcome;
  snapshot : list string;
  prompts : list string
}.

(** Lines 699-737: step 3 of the page; [clicked] tells whether the button
    "Generate team-wide coaching document", when shown, was pressed. *)
Definition insights_step (st : session) (clicked : bool)
  (reply : gateway_reply) : canon_run :=
  match coaching_history st with
  | [] => {| after := st; ending := Done; snapshot := []; prompts := [] |}
  | _ :: _ =>
      let history := coaching_history st in
      match root_counts history with
      | Raise e =>
          {| after := st; ending := Raised e; snapshot := [];
             prompts := [] |}
      | Ok counts =>
          let bullets := pattern_bullets counts in
          if clicked then
            match generate_team_insights history reply with
            | Raise e =>
                {| after := st; ending := Raised e; snapshot := bullets;
                   prompts := insights_prompts history |}
            | Ok insights =>
                {| after :=
                     {| last_result := last_result st;
                        last_ticket_text := last_ticket_text st;
                        kb_draft := kb_draft st;
                        coaching_history := coaching_history st;
                        coaching_keys := coaching_keys st;
                        team_insights := insights;
                        current_ticket_label := current_ticket_label st |};
                   ending := Done;
                   snapshot := bullets;
                   prompts := insights_prompts history |}
            end
          else
            {| after := st; ending := Done; snapshot := bullets;
               prompts := [] |}
      end
  end.

(** [sum(c.values())] *)
Definition sum_values (c : counter) : nat :=
  fold_right (fun kn total => snd kn + total) 0 c.

(** Lines 851-858: the two integers whose quotient is [content_share],
    when the caption is written; the division and the percent format are
    floating-point and are not modelled. *)
Definition content_share_terms (history : list item)
  : exc (option (nat * nat)) :=
  match history with
  | [] => Ok None
  | _ :: _ =>
      root_counts_all <- root_counts history ;;
      let total_hist := sum_values root_counts_all in
      if Nat.ltb 0 total_hist then
        Ok (Some (count_of root_counts_all (JStr "content_gap")
                  + count_of root_counts_all (JStr "mixed"),
                  total_hist))
      else Ok None
  end.

End Insights.

(** ** The display of the last result (lines 580-630) *)

Module Display.
Import PyStr Json Evaluator Session Format.

(** What the page shows: [st.info], [st.error], [st.markdown],
    [st.write], [st.code] and [st.caption], with their argument. *)
Inductive element : Type :=
| Info (text : string)
| Error (body : json)
| Markdown (text : string)
| Written (body : json)
| Code (body : json)
| Caption (text : string).

(** A piece of the page: what it has shown, and its result or the
    exception that stopped it. *)
Definition shown (A : Type) : Type := (list element * exc A)%type.

Definition show (e : element) : shown unit := ([e], Ok tt).

Definition call {A : Type} (m : exc A) : shown A := ([], m).

Definition and_show {A B : Type} (m : shown A) (k : A -> shown B)
  : shown B :=
  match snd m with
  | Ok a => let shown_next := k a in
            ((fst m ++ fst shown_next)%list, snd shown_next)
  | Raise e => (fst m, Raise e)
  end.

Notation "x <~ m ;; k" := (and_show m (fun x => k))
  (at level 61, m at next level, right associativity).

Notation "m ;;; k" := (and_show m (fun _ => k))
  (at level 61, right associativity).

Definition skip : shown unit := ([], Ok tt).

Definition is_dict (v : json) : bool :=
  match v with
  | JObj _ => true
  | _ => false
  end.

(** [v.items()]: only dictionaries have the method. *)
Definition items (v : json) : exc (list (string * json)) :=
  match v with
  | JObj members => Ok members
  | _ => Raise AttributeError
  end.

(** Lines 585-586: the value shown by [st.error(result["error"])], if
    ["error" in result].  A list or a string that contains "error"
    passes the test and cannot be indexed by a string. *)
Definition error_entry (result : json) : exc (option json) :=
  match result with
  | JObj members => Ok (lookup "error" members)
  | _ =>
      has_error <- contains_key "error" result ;;
      if has_error then Raise TypeError else Ok None
  end.

Section Render.
(** The dash of line 609, U+2014, which is not a character of the
    model. *)
Variable em_dash : string.

(** Lines 606-609: the bullet of one criterion. *)
Definition criterion_bullet (key : string) (value : json) : exc string :=
  score <- get value "score" (JStr "N/A") ;;
  just <- get value "justification" (JStr EmptyString) ;;
  let label := title (replace_char "_" " " key) in
  Ok ("- **" ++ label ++ "** " ++ em_dash ++ " " ++ str score ++ "/5" ++ nl
      ++ "  " ++ str just).

(** Lines 604-609: the loop over the criteria. *)
Fixpoint criteria_bullets (criteria : list (string * json))
  : exc (list string) :=
  match criteria with
  | [] => Ok []
  | (key, value) :: rest =>
      bullet <- criterion_bullet key value ;;
      bullets <- criteria_bullets rest ;;
      Ok (bullet :: bullets)
  end.

(** Lines 588-630: the display of a result without the key "error". *)
Definition render_evaluation (result : json) : shown unit :=
  criteria <~ call (get result "criteria" (JObj [])) ;;
  overall <~ call (get result "overall_rating" (JObj [])) ;;
  root <~ call (get result "root_cause" (JObj [])) ;;
  coaching <~ call (get result "coaching_summary" (JStr EmptyString)) ;;
  show (Markdown "### Overall rating") ;;;
  overall_score <~ call (get overall "score" (JStr "N/A")) ;;
  overall_just <~ call (get overall "justification" (JStr EmptyString)) ;;
  show (Markdown ("**Score:** " ++ str overall_score ++ " / 5")) ;;;
  (if truthy overall_just then show (Written overall_just) else skip) ;;;
  show (Markdown "### Criteria breakdown") ;;;
  (if truthy criteria then
     members <~ call (items criteria) ;;
     bullets <~ call (criteria_bullets members) ;;
     show (Markdown (join nl bullets))
   else show (Written (JStr "No criteria were returned by the model."))) ;;;
  show (Markdown "### Root cause analysis") ;;;
  root_label <~ call (get root "label" (JStr "N/A")) ;;
  explanation <~ call (get root "explanation" (JStr EmptyString)) ;;
  kb_suggestion <~
    call (get root "kb_article_suggestion" (JStr EmptyString)) ;;
  show (Markdown ("**Primary label:** `" ++ str root_label ++ "`")) ;;;
  (if truthy explanation then show (Written explanation) else skip) ;;;
  (if truthy kb_suggestion then
     show (Markdown "**KB opportunity (short idea):**") ;;;
     show (Written kb_suggestion)
   else skip) ;;;
  show (Markdown "### Coaching summary (for team lead)") ;;;
  show
    (Written (or_else coaching (JStr "No coaching summary returned."))).

(** Lines 580-630.  [None] and the value of the JSON text [null] are the
    same Python object. *)
Definition render_result (last_result : option json) : shown unit :=
  match last_result with
  | None | Some JNull =>
      show (Info "Run an evaluation to see scores, root cause, and coaching.")
  | Some result =>
      error <~ call (error_entry result) ;;
      match error with
      | Some body => show (Error body)
      | None => render_evaluation result
      end
  end.

End Render.

(** Lines 876-884: the expander "Raw JSON from the evaluator".  The two
    tests of the key "error" are made on the same value. *)
Definition raw_json_expander (last_result : option json) : shown unit :=
  let result_for_raw :=
    match last_result with Some result => result | None => JNull end in
  if truthy result_for_raw then
    has_error <~ call (contains_key "error" result_for_raw) ;;
    if has_error then
      show (Written (JStr "Last call returned an error:")) ;;;
      raw_output <~
        call (get result_for_raw "raw_output" (JStr EmptyString)) ;;
      show (Code raw_output)
    else show (Code (JStr (dumps_at (Some 2) 0 result_for_raw)))
  else show (Caption "Run a ticket evaluation first.").

End Display.

(** ** The page: one run of the script for each interaction *)

Module Page.
Import PyStr Json Evaluator Session Format Insights Display.

(** The session with the text of the ticket box (the key "ticket_text"
    of [st.session_state]). *)
Record page := {
  state : session;
  ticket_text : string
}.

Inductive button : Type :=
| NoButton
| LoadSample
| EvaluateTicket
| GenerateKb
| GenerateInsights.

Definition load_pressed (b : button) : bool :=
  match b with LoadSample => true | _ => false end.

Definition evaluate_pressed (b : button) : bool :=
  match b with EvaluateTicket => true | _ => false end.

Definition kb_pressed (b : button) : bool :=
  match b with GenerateKb => true | _ => false end.

Definition insights_pressed (b : button) : bool :=
  match b with GenerateInsights => true | _ => false end.

(** What the user did before one run of the script: the text typed in
    the ticket box, if it was edited; the position chosen in the select
    box of the samples; the button pressed, if any.  [answer] is what the
    completion service answers if it is called during the run. *)
Record interaction := {
  typed : option string;
  sample_position : nat;
  pressed : button;
  answer : gateway_reply
}.

(** A request to the completion service. *)
Inductive request : Type :=
| HandlerCall (c : gateway_call)
| InsightsCall (prompt : string).

Record page_run := {
  page_after : page;
  page_ended : outcome;
  requests : list request
}.

Section Script.
Variable sha256_hexdigest : string -> string.
(** The table of samples (lines 446-451), a dictionary (no label
    twice) whose labels and first text have characters above U+00FF, and
    the dash of line 609. *)
Variable SAMPLE_TICKETS : list (string * string).
Variable em_dash : string.

(** Lines 524-527: the value of the select box. *)
Definition sample_choice (position : nat) : string :=
  nth position ("None" :: map fst SAMPLE_TICKETS) "None".

(** [SAMPLE_TICKETS[choice]] *)
Fixpoint sample_text (table : list (string * string)) (choice : string)
  : option string :=
  match table with
  | [] => None
  | (label, text) :: table' =>
      if String.eqb label choice then Some text
      else sample_text table' choice
  end.

(** Lines 529-535: the handler of the button "Load selected sample".
    The select box offers the keys of the table only, so the subscript
    does not fail. *)
Definition load_sample (p : page) (choice : string) : page :=
  if String.eqb choice "None" then p
  else
    match sample_text SAMPLE_TICKETS choice with
    | Some text =>
        {| state :=
             {| last_result := None;
                last_ticket_text := text;
                kb_draft := EmptyString;
                coaching_history := coaching_history (state p);
                coaching_keys := coaching_keys (state p);
                team_insights := team_insights (state p);
                current_ticket_label := Some choice |};
           ticket_text := text |}
    | None => p
    end.

(** Lines 529-741: one run of the script.  An exception stops the run
    where it is raised; what was stored before stays.  The ROI sandbox
    and the appendix, which come after and store nothing, are left out. *)
Definition rerun (p : page) (i : interaction) : page_run :=
  let edited :=
    {| state := state p;
       ticket_text :=
         match typed i with Some text => text | None => ticket_text p end |}
  in
  let loaded :=
    if load_pressed (pressed i)
    then load_sample edited (sample_choice (sample_position i))
    else edited in
  let evaluated :=
    if evaluate_pressed (pressed i)
    then run_eval sha256_hexdigest (state loaded) (ticket_text loaded)
           (answer i)
    else {| final := state loaded; ended := Done; calls := [] |} in
  let stop st e made :=
    {| page_after := {| state := st; ticket_text := ticket_text loaded |};
       page_ended := e;
       requests := made |} in
  match ended evaluated with
  | Raised e =>
      stop (final evaluated) (Raised e) (map HandlerCall (calls evaluated))
  | _ =>
      match
        snd (render_result em_dash (last_result (final evaluated)))
      with
      | Raise e =>
          stop (final evaluated) (Raised e)
            (map HandlerCall (calls evaluated))
      | Ok _ =>
          let kb :=
            kb_step (final evaluated) (kb_pressed (pressed i)) (answer i)
          in
          match ended kb with
          | Raised e =>
              stop (final kb) (Raised e)
                (map HandlerCall (calls evaluated ++ calls kb)%list)
          | _ =>
              let canon :=
                insights_step (final kb) (insights_pressed (pressed i))
                  (answer i) in
              stop (after canon)
                (match ending canon with
                 | Raised e => Raised e
                 | _ => ended evaluated
                 end)
                (map HandlerCall (calls evaluated ++ calls kb)
                 ++ map InsightsCall (prompts canon))%list
          end
      end
  end.

(** What an evaluation of [ticket_text] does to the store: nothing, or
    one key and one item under the label of the session. *)
Inductive recorded (ticket_text : string) (st st' : session) : Prop :=
| recorded_nothing :
    coaching_keys st' = coaching_keys st ->
    coaching_history st' = coaching_history st ->
    recorded ticket_text st st'
| recorded_one (overall_score root_label coaching : json) :
    ~ In (sha256_hexdigest ticket_text) (coaching_keys st) ->
    truthy coaching = true ->
    coaching_keys st'
    = list_append (coaching_keys st) (sha256_hexdigest ticket_text) ->
    coaching_history st'
    = list_append (coaching_history st)
        (coaching_item (label_or_adhoc st) overall_score root_label
           coaching) ->
    recorded ticket_text st st'.

(** The ways one run of the script takes the session [st] to another,
    with the requests it makes; [text] is the text in the ticket box.
    Against this list [rerun] is checked once, and the invariants of the
    page are proved from it. *)
Inductive transition (st : session) (text : string) (i : interaction)
  : session -> list request -> Prop :=
| nothing_stored : transition st text i st []
| sample_loaded (choice sample : string) :
    pressed i = LoadSample ->
    In choice (map fst SAMPLE_TICKETS) ->
    transition st text i
      {| last_result := None;
         last_ticket_text := sample;
         kb_draft := EmptyString;
         coaching_history := coaching_history st;
         coaching_keys := coaching_keys st;
         team_insights := team_insights st;
         current_ticket_label := Some choice |}
      []
| evaluation_failed :
    pressed i = EvaluateTicket ->
    answer i = GatewayFails ->
    transition st text i st [HandlerCall (EvaluateCall text)]
| evaluation_stored (content : option string) (st' : session) :
    pressed i = EvaluateTicket ->
    answer i = Completion content ->
    last_result st' = Some (decode (content_or_empty content)) ->
    last_ticket_text st' = text ->
    kb_draft st' = EmptyString ->
    team_insights st' = EmptyString ->
    current_ticket_label st' = current_ticket_label st ->
    recorded text st st' ->
    transition st text i st' [HandlerCall (EvaluateCall text)]
| kb_draft_failed (result kb_suggestion : json) :
    pressed i = GenerateKb ->
    answer i = GatewayFails ->
    last_result st = Some result ->
    kb_offer result = Ok (Some kb_suggestion) ->
    transition st text i st
      [HandlerCall (KbDraftCall (last_ticket_text st) kb_suggestion)]
| kb_draft_stored (result kb_suggestion : json) (content : option string) :
    pressed i = GenerateKb ->
    answer i = Completion content ->
    last_result st = Some result ->
    kb_offer result = Ok (Some kb_suggestion) ->
    transition st text i
      {| last_result := last_result st;
         last_ticket_text := last_ticket_text st;
         kb_draft := content_or_empty content;
         coaching_history := coaching_history st;
         coaching_keys := coaching_keys st;
         team_insights := team_insights st;
         current_ticket_label := current_ticket_label st |}
      [HandlerCall (KbDraftCall (last_ticket_text st) kb_suggestion)]
| insights_failed (block : string) :
    pressed i = GenerateInsights ->
    answer i = GatewayFails ->
    coaching_history st <> [] ->
    coaching_block (coaching_history st) = Ok block ->
    transition st text i st [InsightsCall (insights_prompt block)]
| insights_stored (block : string) (content : option string) :
    pressed i = GenerateInsights ->
    answer i = Completion content ->
    coaching_history st <> [] ->
    coaching_block (coaching_history st) = Ok block ->
    transition st text i
      {| last_result := last_result st;
         last_ticket_text := last_ticket_text st;
         kb_draft := kb_draft st;
         coaching_history := coaching_history st;
         coaching_keys := coaching_keys st;
         team_insights := content_or_empty content;
         current_ticket_label := current_ticket_label st |}
      [InsightsCall (insights_prompt block)].

(** The page at start-up (lines 457-479). *)
Definition fresh_page (default_label default_example : string) : page :=
  {| state := fresh_session default_label;
     ticket_text := default_example |}.

(** A request with the answer it got. *)
Definition exchange : Type := (request * gateway_reply)%type.

(** The page after a sequence of interactions, with the exchanges with
    the service in the order they were made. *)
Definition reruns (p : page) (interactions : list interaction)
  : page * list exchange :=
  fold_left
    (fun so_far i =>
       let r := rerun (fst so_far) i in
       (page_after r,
        (snd so_far ++ map (fun q => (q, answer i)) (requests r))%list))
    interactions (p, []).

End Script.

(** The last answered request for a KB draft: the ticket text and the
    suggestion it was made for, and the text returned. *)
Fixpoint last_kb_draft (exchanges_backwards : list exchange)
  : option (string * json * string) :=
  match exchanges_backwards with
  | [] => None
  | (HandlerCall (KbDraftCall text suggestion), Completion content) :: _ =>
      Some (text, suggestion, content_or_empty content)
  | _ :: earlier => last_kb_draft earlier
  end.

(** The last answered request for the team-wide document: its prompt and
    the text returned. *)
Fixpoint last_insights (exchanges_backwards : list exchange)
  : option (string * string) :=
  match exchanges_backwards with
  | [] => None
  | (InsightsCall prompt, Completion content) :: _ =>
      Some (prompt, content_or_empty content)
  | _ :: earlier => last_insights earlier
  end.

(** The number of evaluation requests that were answered. *)
Fixpoint answered_evaluations (exchanges : list exchange) : nat :=
  match exchanges with
  | [] => 0
  | (HandlerCall (EvaluateCall _), Completion _) :: later =>
      S (answered_evaluations later)
  | _ :: later => answered_evaluations later
  end.

End Page.

(** ** Shapes of tickets *)

Module Tickets.
Import PyStr Zendesk.

(** The ticket has a subject or a comment whose body is not blank. *)
Definition has_content (zendesk_payload : payload) : bool :=
  nonempty (get (subject zendesk_payload) EmptyString)
  || existsb (fun c => nonempty (strip (get (body c) EmptyString)))
       (get (comments zendesk_payload) []).

End Tickets.

(** ** Shapes of completions *)

Module Completions.
Import PyStr Json Evaluator Format.

(** A text in a code fence with a language tag, or with none when the tag
    is empty. *)
Definition fenced_as (tag text : string) : string :=
  fence_marker ++ tag ++ nl ++ text ++ nl ++ fence_marker.

(** The characters with which a JSON text or a code fence begins. *)
Definition may_open (c : ascii) : bool :=
  is_digit c
  || mem_char c (String quote (String backtick "{[-ntfNI")).

Fixpoint last_char (s : string) : option ascii :=
  match s with
  | EmptyString => None
  | String c EmptyString => Some c
  | String _ s' => last_char s'
  end.

End Completions.

(* ================================================================== *)
(** * Part II.  Properties                                             *)
(* ================================================================== *)

(** ** The transcript normaliser *)

Section NormaliserFacts.
Import PyStr Zendesk.

Lemma add_comment_block (parts : list string) (c : comment) :
  add_comment parts c = (parts ++ comment_block c)%list.
Proof.
  unfold add_comment, comment_block, list_append.
  destruct (nonempty (strip (get (body c) EmptyString))).
  - reflexivity.
  - now rewrite List.app_nil_r.
Qed.

Lemma fold_add_comment (cs : list comment) :
  forall parts,
    fold_left add_comment cs parts
    = (parts ++ flat_map comment_block cs)%list.
Proof.
  induction cs as [|c cs IH]; intros parts; simpl.
  - now rewrite List.app_nil_r.
  - rewrite IH, add_comment_block, <- List.app_assoc. reflexivity.
Qed.

Lemma ticket_parts_blocks (p : payload) :
  ticket_parts p
  = (subject_block (get (subject p) EmptyString)
     ++ flat_map comment_block (get (comments p) []))%list.
Proof.
  unfold ticket_parts, subject_block. rewrite fold_add_comment.
  destruct (nonempty (get (subject p) EmptyString)); reflexivity.
Qed.

(** C7, as the code has it: the block "Subject: <subject>" is the first
    block exactly when the subject is not the empty string; the subject is
    neither trimmed for the test nor in the block, and the blocks of the
    comments follow it. *)
Theorem subject_block_first_iff_nonempty (p : payload) :
  ticket_parts p
  = (subject_block (get (subject p) EmptyString)
     ++ flat_map comment_block (get (comments p) []))%list
  /\ subject_block EmptyString = []
  /\ (forall c s, subject_block (String c s) = ["Subject: " ++ String c s])
  /\ normalize_zendesk_ticket p = join blank_line (ticket_parts p).
Proof.
  split; [apply ticket_parts_blocks | repeat split].
Qed.

(** C7 fails as stated: a subject of one space is empty after trimming,
    and its block is emitted all the same. *)
Lemma whitespace_subject_is_emitted :
  strip " " = EmptyString
  /\ ticket_parts (Payload (Some " ") (Some [])) = ["Subject:  "]
  /\ normalize_zendesk_ticket (Payload (Some " ") (Some [])) = "Subject:  ".
Proof. repeat split. Qed.

(** C8, as the code has it: a comment whose trimmed body is empty adds
    nothing; any other comment adds "<Label>: <body>", where the body is
    trimmed and the label is the trimmed role (or "unknown" when the role
    is absent or empty after trimming) capitalised, that is first
    character in upper case and all the others in lower case; the blocks
    are joined with a blank line; no subject and no comment give the empty
    string. *)
Theorem normalizer_blocks (s : option string) (cs : list comment) :
  normalize_zendesk_ticket (Payload s (Some cs))
  = join blank_line
      (subject_block (get s EmptyString) ++ flat_map comment_block cs)%list
  /\ (forall before after c,
        strip (get (body c) EmptyString) = EmptyString ->
        normalize_zendesk_ticket
          (Payload s (Some (before ++ c :: after)%list))
        = normalize_zendesk_ticket (Payload s (Some (before ++ after)%list)))
  /\ (forall role b,
        nonempty (strip b) = true ->
        comment_block (Comment (Some role) (Some b))
        = [capitalize (or_str (strip role) "unknown") ++ ": " ++ strip b]
        /\ comment_block (Comment None (Some b)) = ["Unknown: " ++ strip b]
        /\ comment_block (Comment (Some " ") (Some b))
           = ["Unknown: " ++ strip b])
  /\ normalize_zendesk_ticket (Payload (Some EmptyString) (Some []))
     = EmptyString
  /\ normalize_zendesk_ticket (Payload None None) = EmptyString.
Proof.
  unfold normalize_zendesk_ticket.
  split; [now rewrite ticket_parts_blocks|].
  split.
  - intros before after c Hc. rewrite !ticket_parts_blocks.
    cbn [comments get]. rewrite !List.flat_map_app. cbn [flat_map].
    unfold comment_block at 2. rewrite Hc. reflexivity.
  - split; [|split; reflexivity].
    intros role b Hb. unfold comment_block. cbn [body author_role get].
    rewrite Hb. repeat split.
Qed.

Lemma normalizer_blocks_witness :
  normalize_zendesk_ticket
    (Payload (Some "Login")
       (Some ([Comment (Some " agent ") (Some " Hi ")]
              ++ Comment (Some "customer") (Some "  ")
                 :: [Comment None (Some "Bye")])%list))
  = normalize_zendesk_ticket
      (Payload (Some "Login")
         (Some ([Comment (Some " agent ") (Some " Hi ")]
                ++ [Comment None (Some "Bye")])%list))
  /\ comment_block (Comment (Some " agent ") (Some " Hi ")) = ["Agent: Hi"].
Proof.
  split.
  - apply (proj1 (proj2 (normalizer_blocks (Some "Login") []))).
    reflexivity.
  - apply (proj1 (proj2 (proj2 (normalizer_blocks None []))) " agent " " Hi ").
    reflexivity.
Defined.

(** C8 fails as stated: for the Zendesk role "end-user" the label is
    "End-user", and the title-cased role is "End-User". *)
Lemma label_is_not_title_cased :
  normalize_zendesk_ticket
    (Payload None (Some [Comment (Some "end-user") (Some "hello")]))
  = "End-user: hello"
  /\ title_cased_label (Comment (Some "end-user") (Some "hello")) = "End-User"
  /\ normalize_zendesk_ticket
       (Payload None (Some [Comment (Some "end-user") (Some "hello")]))
     <> title_cased_label (Comment (Some "end-user") (Some "hello"))
        ++ ": hello".
Proof. repeat split. discriminate. Qed.

End NormaliserFacts.

(** ** Strings: append and strip *)

Section StringFacts.
Import PyStr.

Lemma append_assoc (a b c : string) : (a ++ b) ++ c = a ++ (b ++ c).
Proof. induction a as [|x a IH]; simpl; [reflexivity | now rewrite IH]. Qed.

Lemma append_nil_r (a : string) : a ++ EmptyString = a.
Proof. induction a as [|x a IH]; simpl; [reflexivity | now rewrite IH]. Qed.

Lemma length_append (a b : string) :
  String.length (a ++ b) = String.length a + String.length b.
Proof. induction a as [|x a IH]; simpl; [reflexivity | now rewrite IH]. Qed.

Lemma append_eq_nil (a b : string) :
  a ++ b = EmptyString -> a = EmptyString /\ b = EmptyString.
Proof. destruct a; simpl; [auto | discriminate]. Qed.

Variable drop : ascii -> bool.

(** Stripping on the right stops at the last character that stays. *)
Lemma rstrip_by_app_kept (s t : string) :
  rstrip_by drop t <> EmptyString ->
  rstrip_by drop (s ++ t) = s ++ rstrip_by drop t.
Proof.
  intros Ht. induction s as [|c s IH]; simpl; [reflexivity|].
  rewrite IH. destruct (s ++ rstrip_by drop t) eqn:E; [|reflexivity].
  apply append_eq_nil in E. tauto.
Qed.

Lemma rstrip_by_app_dropped (s t : string) :
  rstrip_by drop t = EmptyString ->
  rstrip_by drop (s ++ t) = rstrip_by drop s.
Proof.
  intros Ht. induction s as [|c s IH]; simpl; [assumption|].
  now rewrite IH.
Qed.

Lemma rstrip_by_last_kept (s : string) (c : ascii) :
  drop c = false ->
  rstrip_by drop (s ++ String c EmptyString) = s ++ String c EmptyString.
Proof.
  intros Hc. rewrite rstrip_by_app_kept; simpl; rewrite Hc;
    [reflexivity | discriminate].
Qed.

End StringFacts.

(** ** JSON: numbers *)

Section NumberFacts.
Import PyStr Json.

Lemma stops_number_no_digit (rest : string) :
  stops_number rest = true ->
  match rest with
  | String c _ => is_digit c = false
  | EmptyString => True
  end.
Proof.
  destruct rest as [|c rest]; simpl; [trivial|].
  intros H. apply negb_true_iff in H.
  repeat (apply orb_false_iff in H; destruct H as [H ?]). assumption.
Qed.

Lemma span_digits_uint (u : uint) (rest : string) :
  stops_number rest = true ->
  span_digits (NilEmpty.string_of_uint u ++ rest)
  = (NilEmpty.string_of_uint u, rest).
Proof.
  intros H. apply stops_number_no_digit in H.
  induction u; simpl; try (rewrite IHu; reflexivity).
  destruct rest as [|c rest]; simpl; [reflexivity | now rewrite H].
Qed.

Lemma digits_value_uint (u : uint) :
  digits_value (NilEmpty.string_of_uint u) = N.of_uint u.
Proof. unfold digits_value. now rewrite NilEmpty.usu. Qed.

(** The decimal writing of a positive number does not start with 0. *)
Lemma to_uint_head (p : positive) :
  match Pos.to_uint p with
  | Nil | D0 _ => False
  | _ => True
  end.
Proof.
  assert (Hn : unorm (Pos.to_uint p) = Pos.to_uint p).
  { rewrite <- (DecimalPos.Unsigned.to_of (Pos.to_uint p)).
    rewrite DecimalPos.Unsigned.of_to. reflexivity. }
  pose proof (DecimalPos.Unsigned.to_uint_nonzero p) as Hz.
  pose proof (DecimalPos.Unsigned.to_uint_nonnil p) as Hnil.
  destruct (Pos.to_uint p) as [|u| | | | | | | | | ]; try exact I.
  - now apply Hnil.
  - rewrite DecimalFacts.unorm_D0 in Hn.
    destruct (uint_eq_dec u Nil) as [->|Hu]; [now apply Hz|].
    pose proof (DecimalFacts.nb_digits_unorm u Hu) as Hd.
    rewrite Hn in Hd. simpl in Hd. lia.
Qed.

Lemma scan_int_part_N (n : N) (rest : string) :
  stops_number rest = true ->
  scan_int_part (string_of_N n ++ rest) = Some (string_of_N n, rest).
Proof.
  intros H. destruct n as [|p]; [reflexivity|].
  unfold string_of_N. simpl N.to_uint.
  pose proof (to_uint_head p) as Hh.
  destruct (Pos.to_uint p) as [|u|u|u|u|u|u|u|u|u|u]; try contradiction;
    simpl; now rewrite span_digits_uint.
Qed.

Lemma scan_fraction_stop (rest : string) :
  stops_number rest = true -> scan_fraction rest = (EmptyString, rest).
Proof.
  destruct rest as [|c rest]; simpl; [reflexivity|].
  intros H. apply negb_true_iff in H.
  repeat (apply orb_false_iff in H; destruct H as [H ?]).
  now replace (Ascii.eqb c ".") with false.
Qed.

Lemma scan_exponent_stop (rest : string) :
  stops_number rest = true -> scan_exponent rest = (EmptyString, rest).
Proof.
  destruct rest as [|c rest]; simpl; [reflexivity|].
  intros H. apply negb_true_iff in H.
  repeat (apply orb_false_iff in H; destruct H as [H ?]).
  replace (Ascii.eqb c "e") with false by auto.
  now replace (Ascii.eqb c "E") with false.
Qed.

Lemma scan_unsigned_N (negative : bool) (n : N) (rest : string) :
  stops_number rest = true ->
  scan_unsigned negative (string_of_N n ++ rest)
  = Parsed (JInt (if negative then Z.opp (Z.of_N n) else Z.of_N n)) rest.
Proof.
  intros H. unfold scan_unsigned.
  rewrite scan_int_part_N, scan_fraction_stop, scan_exponent_stop by assumption.
  unfold string_of_N. rewrite digits_value_uint, DecimalN.Unsigned.of_to.
  reflexivity.
Qed.

Lemma string_of_N_head (n : N) (rest : string) :
  exists c s, string_of_N n ++ rest = String c s /\ is_digit c = true.
Proof.
  destruct n as [|p]; [exists "0"%char, rest; split; reflexivity|].
  unfold string_of_N. simpl N.to_uint.
  pose proof (to_uint_head p) as Hh.
  destruct (Pos.to_uint p) as [|u|u|u|u|u|u|u|u|u|u]; try contradiction;
    simpl; eexists _, _; split; reflexivity.
Qed.

Lemma scan_number_Z (z : Z) (rest : string) :
  stops_number rest = true ->
  scan_number (string_of_Z z ++ rest) = Parsed (JInt z) rest.
Proof.
  intros H. destruct z as [|p|p].
  - apply (scan_unsigned_N false 0 rest H).
  - unfold string_of_Z.
    pose proof (scan_unsigned_N false (Npos p) rest H) as Hs.
    destruct (string_of_N_head (Npos p) rest) as (c & s & E & Hc).
    rewrite E in *. unfold scan_number.
    destruct (Ascii.eqb_spec c "-") as [->|_]; [discriminate Hc|].
    exact Hs.
  - unfold string_of_Z. simpl append. unfold scan_number.
    destruct (string_of_N_head (Npos p) rest) as (c & s & E & Hc).
    replace (startswith (string_of_N (Npos p) ++ rest) "Infinity") with false.
    + apply (scan_unsigned_N true (Npos p) rest H).
    + rewrite E. cbn [startswith].
      destruct (Ascii.eqb_spec c "I") as [->|_];
        [discriminate Hc | reflexivity].
Qed.

End NumberFacts.

(** ** JSON: strings *)

Section StringLiteralFacts.
Import PyStr Json.

Lemma scan_escape_char (c d : ascii) (rest : string) :
  scan_string (escape_char c ++ String d rest)
  = push c (scan_string (String d rest)).
Proof.
  destruct c as [[] [] [] [] [] [] [] []]; reflexivity.
Qed.

Lemma escape_then_quote (s rest : string) :
  exists d rest', escape s ++ String quote rest = String d rest'.
Proof.
  destruct (escape s ++ String quote rest) as [|d rest'] eqn:E; eauto.
  apply append_eq_nil in E. destruct E as [_ E]. discriminate E.
Qed.

Lemma scan_string_escape (s rest : string) :
  scan_string (escape s ++ String quote rest) = Parsed s rest.
Proof.
  induction s as [|c s IH]; [reflexivity|].
  simpl escape. rewrite append_assoc.
  destruct (escape_then_quote s rest) as (d & rest' & E).
  rewrite E, scan_escape_char, <- E, IH. reflexivity.
Qed.

Lemma scan_string_encode (s rest : string) :
  exists body,
    encode_string s ++ rest = String quote body
    /\ scan_string body = Parsed s rest.
Proof.
  exists (escape s ++ String quote rest). split.
  - unfold encode_string. simpl. now rewrite append_assoc.
  - apply scan_string_escape.
Qed.

End StringLiteralFacts.

(** ** JSON: dictionaries and joined texts *)

Section DictFacts.
Import PyStr Json.

Lemma distinct_NoDup (keys : list string) :
  distinct keys = true -> NoDup keys.
Proof.
  induction keys as [|k keys IH]; simpl; intros H; constructor.
  - apply andb_true_iff in H. destruct H as [H _].
    apply negb_true_iff in H. intros Hin.
    assert (existsb (String.eqb k) keys = true) as E.
    { apply existsb_exists. exists k. split; [assumption|].
      apply String.eqb_refl. }
    congruence.
  - apply IH. apply andb_true_iff in H. tauto.
Qed.

Lemma dict_set_fresh (d : list (string * json)) (k : string) (v : json) :
  ~ In k (map fst d) -> dict_set d k v = (d ++ [(k, v)])%list.
Proof.
  induction d as [|[k' v'] d IH]; simpl; intros H; [reflexivity|].
  destruct (String.eqb_spec k' k) as [->|_]; [tauto|].
  rewrite IH; tauto.
Qed.

Lemma fold_dict_set (pairs : list (string * json)) :
  forall d,
    NoDup (map fst (d ++ pairs)%list) ->
    fold_left (fun d kv => dict_set d (fst kv) (snd kv)) pairs d
    = (d ++ pairs)%list.
Proof.
  induction pairs as [|[k v] pairs IH]; intros d H; simpl.
  - now rewrite List.app_nil_r.
  - rewrite dict_set_fresh.
    + rewrite IH; rewrite <- List.app_assoc; [reflexivity | exact H].
    + rewrite map_app in H. simpl in H. apply NoDup_remove_2 in H.
      intros Hin. apply H. apply in_or_app. now left.
Qed.

Lemma dict_of_distinct_pairs (pairs : list (string * json)) :
  distinct (map fst pairs) = true -> dict_of_pairs pairs = pairs.
Proof.
  intros H. unfold dict_of_pairs. rewrite fold_dict_set; [reflexivity|].
  now apply distinct_NoDup.
Qed.

Lemma length_join_ge (sep : string) (parts : list string) :
  Forall (fun p => 1 <= String.length p) parts ->
  List.length parts <= String.length (join sep parts).
Proof.
  induction 1 as [|p parts Hp _ IH]; [apply Nat.le_refl|].
  cbn [join List.length]. destruct parts as [|q parts].
  - simpl in *. lia.
  - rewrite !length_append. lia.
Qed.

Lemma length_join_member (sep : string) (parts : list string) (p : string) :
  In p parts -> String.length p <= String.length (join sep parts).
Proof.
  induction parts as [|q parts IH]; [contradiction|].
  intros [->|Hin]; cbn [join]; destruct parts as [|r parts];
    try contradiction; rewrite ?length_append; try lia.
  specialize (IH Hin). lia.
Qed.

End DictFacts.

(** ** JSON: [loads] reads back what [dumps] wrote *)

Section RoundTrip.
Import PyStr Json.

Lemma json_induction (P : json -> Prop) :
  P JNull ->
  (forall b, P (JBool b)) ->
  (forall z, P (JInt z)) ->
  (forall literal, P (JFloat literal)) ->
  (forall s, P (JStr s)) ->
  (forall items, Forall P items -> P (JArr items)) ->
  (forall members, Forall (fun kv => P (snd kv)) members -> P (JObj members)) ->
  forall v, P v.
Proof.
  intros Hnull Hbool Hint Hfloat Hstr Harr Hobj.
  fix IH 1. intros [ |b|z|literal|s|items|members].
  - exact Hnull.
  - apply Hbool.
  - apply Hint.
  - apply Hfloat.
  - apply Hstr.
  - apply Harr. induction items as [|x items IHitems]; constructor.
    + apply IH.
    + exact IHitems.
  - apply Hobj. induction members as [|kv members IHmembers]; constructor.
    + apply IH.
    + exact IHmembers.
Qed.

Lemma skip_ws_kept (c : ascii) (s : string) :
  is_json_ws c = false -> skip_ws (String c s) = String c s.
Proof. intros H. unfold skip_ws. simpl. now rewrite H. Qed.

Lemma skip_ws_dropped (c : ascii) (s : string) :
  is_json_ws c = true -> skip_ws (String c s) = skip_ws s.
Proof. intros H. unfold skip_ws. simpl. now rewrite H. Qed.

(** *** The gaps of the layout are whitespace *)

Lemma skip_ws_spaces (n : nat) (s : string) :
  skip_ws (spaces n ++ s) = skip_ws s.
Proof.
  induction n as [|n IH]; [reflexivity|].
  simpl spaces. cbn [append]. now rewrite skip_ws_dropped.
Qed.

Lemma skip_ws_gap (indent : option nat) (level : nat) (s : string) :
  skip_ws (gap indent level ++ s) = skip_ws s.
Proof.
  destruct indent as [width|]; [|reflexivity].
  unfold gap, newline_indent. cbn [append].
  rewrite skip_ws_dropped by reflexivity. apply skip_ws_spaces.
Qed.

Lemma skip_ws_item_gap (indent : option nat) (level : nat) (s : string) :
  skip_ws (item_gap indent level ++ s) = skip_ws s.
Proof.
  destruct indent as [width|]; [apply (skip_ws_gap (Some width))|].
  reflexivity.
Qed.

Lemma stops_number_gap (indent : option nat) (level : nat) (s : string) :
  stops_number s = true -> stops_number (gap indent level ++ s) = true.
Proof. destruct indent; [reflexivity | trivial]. Qed.

(** *** Texts that start with a character of a value *)

Lemma starts_value_app (text rest : string) :
  starts_value text -> starts_value (text ++ rest).
Proof.
  intros (c & s & -> & H). exists c, (s ++ rest). now split.
Qed.

Lemma skip_ws_starts_value (text : string) :
  starts_value text -> skip_ws text = text.
Proof.
  intros (c & s & -> & _ & H & _). now apply skip_ws_kept.
Qed.

Lemma starts_value_nonempty (text : string) :
  starts_value text -> 1 <= String.length text.
Proof. intros (c & s & -> & _). simpl. lia. Qed.

Lemma dumps_starts_value (indent : option nat) (level : nat) (v : json) :
  plain v = true -> starts_value (dumps_at indent level v).
Proof.
  destruct v as [ |[]|z|literal|s|[|x items]|[|kv members]];
    cbn [dumps_at append]; intros H; try discriminate H;
    try (eexists _, _; repeat split; fail).
  destruct z as [|p|p]; try (eexists _, _; repeat split; fail).
  unfold string_of_Z.
  destruct (string_of_N_head (Npos p) EmptyString) as (c & s & E & Hc).
  rewrite append_nil_r in E. exists c, s. split; [exact E|].
  destruct c as [[] [] [] [] [] [] [] []]; try discriminate Hc;
    repeat split; reflexivity.
Qed.

Lemma join_more (sep a : string) (l : list string) :
  l <> [] -> join sep (a :: l) = a ++ sep ++ join sep l.
Proof. destruct l; [congruence | reflexivity]. Qed.

Lemma join_starts_value (sep : string) (texts : list string) :
  texts <> [] -> Forall starts_value texts -> starts_value (join sep texts).
Proof.
  intros Hne H. destruct H as [|t texts Ht _]; [congruence|].
  destruct texts as [|u texts]; [exact Ht|].
  rewrite join_more by discriminate. now apply starts_value_app.
Qed.

(** *** The loops over the items of a container *)

Section Loops.
Variable scan : string -> parsed json.
Variable indent : option nat.
Variable level : nat.
Variable closing : string.

Hypothesis closing_gap :
  forall s, skip_ws (closing ++ s) = skip_ws s.
Hypothesis closing_stops :
  forall s, stops_number s = true -> stops_number (closing ++ s) = true.

Lemma scan_elements_texts (texts : list string) :
  forall items bound rest,
    texts <> [] ->
    Forall2 (reads scan) texts items ->
    Forall starts_value texts ->
    List.length texts <= bound ->
    scan_elements scan bound
      (join (item_separator indent level) texts
       ++ closing ++ String "]" rest)
    = Parsed items rest.
Proof.
  induction texts as [|t texts IH];
    intros items bound rest Hne Hall Hstart Hlen; [congruence|].
  destruct bound as [|bound]; [simpl in Hlen; lia|].
  inversion Hall as [|? v ? items' Hv Hitems]; subst.
  inversion Hstart as [|? ? Ht Hts]; subst.
  destruct texts as [|u texts].
  - cbn [join scan_elements].
    rewrite Hv by (apply closing_stops; reflexivity).
    rewrite closing_gap, skip_ws_kept by reflexivity.
    inversion Hitems; subst. reflexivity.
  - rewrite join_more by discriminate.
    cbn [scan_elements]. rewrite !append_assoc.
    unfold item_separator at 1. cbn [append].
    rewrite Hv by reflexivity.
    rewrite skip_ws_kept by reflexivity.
    cbn -[skip_ws join scan_elements item_separator item_gap].
    rewrite skip_ws_item_gap.
    rewrite skip_ws_starts_value
      by (apply starts_value_app, join_starts_value;
          [discriminate | assumption]).
    rewrite (IH items' bound rest); try assumption;
      [reflexivity | discriminate | simpl in *; lia].
Qed.

Lemma scan_member (text : string) (kv : string * json) (rest : string) :
  reads_member scan text kv ->
  stops_number rest = true ->
  exists body after_key,
    text ++ rest = String quote body
    /\ scan_string body = Parsed (fst kv) (String ":" after_key)
    /\ scan (skip_ws after_key) = Parsed (snd kv) rest.
Proof.
  intros (value_text & -> & Hv & Hs) Hrest.
  destruct (scan_string_encode (fst kv) (": " ++ value_text ++ rest))
    as (body & E & Hbody).
  exists body, (String " " (value_text ++ rest)). split; [|split].
  - now rewrite !append_assoc.
  - exact Hbody.
  - rewrite skip_ws_dropped by reflexivity.
    rewrite skip_ws_starts_value by now apply starts_value_app.
    now apply Hv.
Qed.

Lemma member_starts_value (text : string) (kv : string * json) :
  reads_member scan text kv -> starts_value text.
Proof.
  intros (value_text & -> & _). unfold encode_string. cbn [append].
  eexists _, _. repeat split.
Qed.

Lemma scan_members_texts (texts : list string) :
  forall members bound rest,
    texts <> [] ->
    Forall2 (reads_member scan) texts members ->
    List.length texts <= bound ->
    scan_members scan bound
      (join (item_separator indent level) texts
       ++ closing ++ String "}" rest)
    = Parsed members rest.
Proof.
  induction texts as [|t texts IH];
    intros members bound rest Hne Hall Hlen; [congruence|].
  destruct bound as [|bound]; [simpl in Hlen; lia|].
  inversion Hall as [|? kv ? members' Hkv Hmembers]; subst.
  destruct kv as [k v].
  destruct texts as [|u texts].
  - cbn [join].
    destruct (scan_member t (k, v) (closing ++ String "}" rest) Hkv
                (closing_stops (String "}" rest) eq_refl))
      as (body & after_key & E & Hbody & Hval).
    rewrite E. cbn [scan_members]. rewrite Ascii.eqb_refl, Hbody.
    rewrite skip_ws_kept by reflexivity.
    cbn -[skip_ws]. rewrite Hval.
    rewrite closing_gap, skip_ws_kept by reflexivity.
    inversion Hmembers; subst. reflexivity.
  - rewrite join_more by discriminate. rewrite !append_assoc.
    set (tail := join (item_separator indent level) (u :: texts)
                 ++ closing ++ String "}" rest).
    unfold item_separator at 1. cbn [append].
    destruct (scan_member t (k, v) (String "," (item_gap indent level ++ tail))
                Hkv eq_refl)
      as (body & after_key & E & Hbody & Hval).
    rewrite E. cbn [scan_members]. rewrite Ascii.eqb_refl, Hbody.
    rewrite skip_ws_kept by reflexivity.
    cbn -[skip_ws tail item_gap scan_members]. rewrite Hval.
    rewrite skip_ws_kept by reflexivity.
    cbn -[skip_ws tail item_gap scan_members].
    rewrite skip_ws_item_gap.
    assert (Hq : skip_ws tail = tail).
    { apply skip_ws_starts_value. unfold tail.
      apply starts_value_app, join_starts_value; [discriminate|].
      clear - Hmembers. induction Hmembers; constructor;
        eauto using member_starts_value. }
    rewrite Hq. unfold tail.
    rewrite (IH members' bound rest); try assumption;
      [reflexivity | discriminate | simpl in *; lia].
Qed.
End Loops.

(** *** One value *)

Lemma Forall2_map_left {A B : Type} (f : A -> B) (P : B -> A -> Prop)
  (l : list A) :
  (forall x, In x l -> P (f x) x) -> Forall2 P (map f l) l.
Proof.
  induction l as [|x l IH]; intros H; constructor.
  - apply H. now left.
  - apply IH. intros y Hy. apply H. now right.
Qed.

Lemma scan_value_number (d : nat) (c : ascii) (s : string) :
  is_digit c || Ascii.eqb c "-" = true ->
  scan_value (S d) (String c s) = scan_number (String c s).
Proof.
  destruct c as [[] [] [] [] [] [] [] []]; intros H;
    try discriminate H; reflexivity.
Qed.

Lemma scan_value_Z (d : nat) (z : Z) :
  reads (scan_value (S d)) (string_of_Z z) (JInt z).
Proof.
  intros rest Hrest.
  rewrite <- (scan_number_Z z rest Hrest).
  destruct z as [|p|p]; try reflexivity.
  unfold string_of_Z.
  destruct (string_of_N_head (Npos p) rest) as (c & s & E & Hc).
  rewrite E. apply scan_value_number. now rewrite Hc.
Qed.

Lemma max_depth_bound_items (items : list json) (d : nat) :
  fold_right (fun x m => Nat.max (depth x) m) 0 items <= d ->
  Forall (fun x => depth x <= d) items.
Proof.
  induction items as [|x items IH]; simpl; intros H; constructor.
  - lia.
  - apply IH. lia.
Qed.

Lemma max_depth_bound_members (members : list (string * json)) (d : nat) :
  fold_right (fun kv m => Nat.max (depth (snd kv)) m) 0 members <= d ->
  Forall (fun kv => depth (snd kv) <= d) members.
Proof.
  induction members as [|x members IH]; simpl; intros H; constructor.
  - lia.
  - apply IH. lia.
Qed.

Lemma dumps_array (indent : option nat) (level : nat) (x : json)
  (items : list json) (rest : string) :
  dumps_at indent level (JArr (x :: items)) ++ rest
  = String "["
      (gap indent (S level)
       ++ join (item_separator indent (S level))
            (map (dumps_at indent (S level)) (x :: items))
       ++ gap indent level ++ String "]" rest).
Proof. cbn [dumps_at append]. now rewrite !append_assoc. Qed.

Lemma dumps_object (indent : option nat) (level : nat) (kv : string * json)
  (members : list (string * json)) (rest : string) :
  dumps_at indent level (JObj (kv :: members)) ++ rest
  = String "{"
      (gap indent (S level)
       ++ join (item_separator indent (S level))
            (map (member_text indent (S level)) (kv :: members))
       ++ gap indent level ++ String "}" rest).
Proof. cbn [dumps_at append]. now rewrite !append_assoc. Qed.

Lemma length_join_items (sep : string) (texts : list string) (before
  after : string) :
  Forall starts_value texts ->
  List.length texts <= String.length (before ++ join sep texts ++ after).
Proof.
  intros H. rewrite !length_append.
  pose proof (length_join_ge sep texts) as Hl.
  assert (Forall (fun p => 1 <= String.length p) texts) as Hf.
  { eapply Forall_impl; [|exact H]. apply starts_value_nonempty. }
  specialize (Hl Hf). lia.
Qed.

(** The scanner reads back every plain value, in every layout, given
    the depth it needs. *)
Lemma scan_value_dumps (v : json) :
  plain v = true ->
  forall indent level d,
    depth v <= d -> reads (scan_value d) (dumps_at indent level v) v.
Proof.
  induction v as [ |b|z|literal|s|items IH|members IH] using json_induction;
    intros Hplain indent level d Hd;
    (destruct d as [|d]; [simpl in Hd; lia|]).
  - intros rest _. reflexivity.
  - intros rest _. destruct b; reflexivity.
  - apply scan_value_Z.
  - discriminate Hplain.
  - intros rest _. cbn [dumps_at].
    destruct (scan_string_encode s rest) as (body & E & Hbody).
    rewrite E. cbn [scan_value]. rewrite Ascii.eqb_refl, Hbody. reflexivity.
  - intros rest _. simpl in Hplain, Hd. apply le_S_n in Hd.
    destruct items as [|x items]; [reflexivity|].
    rewrite dumps_array. cbn [scan_value].
    change (Ascii.eqb "[" quote) with false.
    change (Ascii.eqb "[" "{") with false.
    change (Ascii.eqb "[" "[") with true. cbv iota.
    set (texts := map (dumps_at indent (S level)) (x :: items)).
    assert (Hstart : Forall starts_value texts).
    { unfold texts. apply Forall_map. rewrite Forall_forall. intros y Hy.
      apply dumps_starts_value. rewrite forallb_forall in Hplain. auto. }
    assert (Hjoin : starts_value
                      (join (item_separator indent (S level)) texts
                       ++ gap indent level ++ String "]" rest)).
    { apply starts_value_app, join_starts_value; [discriminate | assumption]. }
    rewrite skip_ws_gap, (skip_ws_starts_value _ Hjoin).
    destruct Hjoin as (c & t' & Hhead & _ & _ & Hc & _).
    rewrite Hhead, Hc. rewrite <- Hhead.
    rewrite (scan_elements_texts (scan_value d) indent (S level)
               (gap indent level) (skip_ws_gap indent level)
               (stops_number_gap indent level) texts (x :: items));
      [reflexivity | discriminate | | assumption | ].
    + unfold texts. apply max_depth_bound_items in Hd.
      rewrite forallb_forall in Hplain. rewrite Forall_forall in IH, Hd.
      apply Forall2_map_left. intros y Hy. apply IH; auto.
    + etransitivity; [|apply (length_join_items _ texts _ _ Hstart)].
      apply Nat.le_refl.
  - intros rest _. simpl in Hplain, Hd. apply le_S_n in Hd.
    apply andb_true_iff in Hplain. destruct Hplain as [Hkeys Hplain].
    destruct members as [|kv members]; [reflexivity|].
    rewrite dumps_object. cbn [scan_value].
    change (Ascii.eqb "{" quote) with false.
    change (Ascii.eqb "{" "{") with true. cbv iota.
    set (texts := map (member_text indent (S level)) (kv :: members)).
    assert (Hreads : Forall2 (reads_member (scan_value d)) texts
                       (kv :: members)).
    { unfold texts. apply max_depth_bound_members in Hd.
      rewrite forallb_forall in Hplain. rewrite Forall_forall in IH, Hd.
      apply Forall2_map_left. intros y Hy.
      exists (dumps_at indent (S level) (snd y)).
      split; [reflexivity|]. split.
      - apply IH; auto.
      - apply dumps_starts_value. auto. }
    assert (Hstart : Forall starts_value texts).
    { clear - Hreads. induction Hreads; constructor;
        eauto using member_starts_value. }
    assert (Hjoin : starts_value
                      (join (item_separator indent (S level)) texts
                       ++ gap indent level ++ String "}" rest)).
    { apply starts_value_app, join_starts_value; [discriminate | assumption]. }
    rewrite skip_ws_gap, (skip_ws_starts_value _ Hjoin).
    destruct Hjoin as (c & t' & Hhead & _ & _ & _ & Hc).
    rewrite Hhead, Hc. rewrite <- Hhead.
    rewrite (scan_members_texts (scan_value d) indent (S level)
               (gap indent level) (skip_ws_gap indent level)
               (stops_number_gap indent level) texts (kv :: members));
      [ | discriminate | assumption | ].
    + cbn [and_then]. now rewrite dict_of_distinct_pairs.
    + etransitivity; [|apply (length_join_items _ texts _ _ Hstart)].
      apply Nat.le_refl.
Qed.

Lemma fold_max_le {A : Type} (f : A -> nat) (l : list A) (n : nat) :
  (forall x, In x l -> f x <= n) ->
  fold_right (fun x m => Nat.max (f x) m) 0 l <= n.
Proof.
  induction l as [|x l IH]; simpl; intros H; [lia|].
  apply Nat.max_lub; [apply H; now left|].
  apply IH. intros y Hy. apply H. now right.
Qed.

Lemma depth_le_length (indent : option nat) (v : json) :
  forall level, depth v <= S (String.length (dumps_at indent level v)).
Proof.
  induction v as [ |b|z|literal|s|items IH|members IH] using json_induction;
    intros level; try (simpl; lia).
  - destruct items as [|x items]; [simpl; lia|].
    rewrite <- (append_nil_r (dumps_at indent level (JArr (x :: items)))).
    rewrite dumps_array.
    cbn [depth String.length]. rewrite !length_append. apply le_n_S.
    apply fold_max_le. intros y Hy.
    rewrite Forall_forall in IH. specialize (IH y Hy (S level)).
    pose proof (length_join_member (item_separator indent (S level))
                  (map (dumps_at indent (S level)) (x :: items))
                  (dumps_at indent (S level) y)
                  (in_map _ _ y Hy)). lia.
  - destruct members as [|kv members]; [simpl; lia|].
    rewrite <- (append_nil_r (dumps_at indent level (JObj (kv :: members)))).
    rewrite dumps_object.
    cbn [depth String.length]. rewrite !length_append. apply le_n_S.
    apply (fold_max_le (fun kv => depth (snd kv))). intros y Hy.
    rewrite Forall_forall in IH. specialize (IH y Hy (S level)).
    pose proof (length_join_member (item_separator indent (S level))
                  (map (member_text indent (S level)) (kv :: members))
                  (member_text indent (S level) y)
                  (in_map _ _ y Hy)) as Hl.
    unfold member_text at 1 in Hl. rewrite !length_append in Hl. lia.
Qed.

(** [json.loads(json.dumps(v, indent=indent)) == v] for a value without
    floats whose dictionaries have distinct keys. *)
Lemma loads_dumps_at (indent : option nat) (v : json) :
  plain v = true -> loads (dumps_at indent 0 v) = inl v.
Proof.
  intros H. unfold loads.
  rewrite skip_ws_starts_value by now apply dumps_starts_value.
  rewrite <- (append_nil_r (dumps_at indent 0 v)) at 2.
  rewrite (scan_value_dumps v H indent 0 _ (depth_le_length indent v 0)
             EmptyString eq_refl).
  reflexivity.
Qed.

End RoundTrip.

(** ** JSON: the scanner never lacks fuel *)

Section Fuel.
Import PyStr Json.

Lemma parsed_inj {A : Type} (a b : A) (r r' : string) :
  Parsed a r = Parsed b r' -> a = b /\ r = r'.
Proof. intros [= -> ->]. now split. Qed.

Lemma skip_ws_length (s : string) :
  String.length (skip_ws s) <= String.length s.
Proof.
  unfold skip_ws. induction s as [|c s IH]; simpl; [lia|].
  destruct (is_json_ws c); simpl; lia.
Qed.

Lemma span_digits_length (s : string) :
  String.length (snd (span_digits s)) <= String.length s.
Proof.
  induction s as [|c s IH]; simpl; [lia|].
  destruct (is_digit c); [|simpl; lia].
  destruct (span_digits s). simpl in *. lia.
Qed.

Lemma startswith_slice (p s : string) :
  startswith s p = true ->
  String.length (slice_from (String.length p) s) + String.length p
  = String.length s.
Proof.
  revert s. induction p as [|a p IH]; intros s H; simpl in *; [lia|].
  destruct s as [|b s]; [discriminate|].
  apply andb_true_iff in H. destruct H as [_ H].
  specialize (IH s H). simpl. lia.
Qed.

Lemma scan_int_part_shorter (s ip rest : string) :
  scan_int_part s = Some (ip, rest) -> String.length rest < String.length s.
Proof.
  destruct s as [|c s]; simpl; [discriminate|].
  destruct (Ascii.eqb c "0"); [intros [= _ <-]; lia|].
  destruct (is_digit c); [|discriminate].
  pose proof (span_digits_length s) as H.
  destruct (span_digits s) as [ds r]. intros [= _ <-]. simpl in H. lia.
Qed.

Lemma scan_fraction_length (s : string) :
  String.length (snd (scan_fraction s)) <= String.length s.
Proof.
  destruct s as [|c s]; simpl; [lia|].
  destruct (Ascii.eqb c "."); [|simpl; lia].
  pose proof (span_digits_length s) as H.
  destruct (span_digits s) as [[|d ds] r]; simpl in *; lia.
Qed.

Lemma scan_exponent_length (s : string) :
  String.length (snd (scan_exponent s)) <= String.length s.
Proof.
  destruct s as [|c s]; simpl; [lia|].
  destruct (Ascii.eqb c "e" || Ascii.eqb c "E"); [|simpl; lia].
  destruct s as [|d t].
  - simpl. lia.
  - destruct (Ascii.eqb d "+" || Ascii.eqb d "-").
    + pose proof (span_digits_length t) as H.
      destruct (span_digits t) as [[|x ds] r]; simpl in *; lia.
    + pose proof (span_digits_length (String d t)) as H.
      destruct (span_digits (String d t)) as [[|x ds] r]; simpl in *; lia.
Qed.

Lemma scan_unsigned_shorter (negative : bool) (s : string) (v : json)
  (rest : string) :
  scan_unsigned negative s = Parsed v rest ->
  String.length rest < String.length s.
Proof.
  unfold scan_unsigned.
  destruct (scan_int_part s) as [[ip r]|] eqn:E; [|discriminate].
  apply scan_int_part_shorter in E.
  pose proof (scan_fraction_length r) as Hf.
  destruct (scan_fraction r) as [frac r1].
  pose proof (scan_exponent_length r1) as He.
  destruct (scan_exponent r1) as [exp r2]. simpl in Hf, He.
  destruct frac, exp; intros [= _ <-]; lia.
Qed.

Lemma scan_number_shorter (s : string) (v : json) (rest : string) :
  scan_number s = Parsed v rest -> String.length rest < String.length s.
Proof.
  destruct s as [|c s]; cbn [scan_number]; [discriminate|].
  destruct (Ascii.eqb c "-").
  - destruct (startswith s "Infinity") eqn:E.
    + intros H. apply parsed_inj in H. destruct H as [_ <-].
      apply startswith_slice in E. cbn [String.length] in *. lia.
    + intros H. apply scan_unsigned_shorter in H. cbn [String.length]. lia.
  - apply scan_unsigned_shorter.
Qed.

Lemma scan_unsigned_fuel (negative : bool) (s : string) :
  scan_unsigned negative s <> Failed NestingTooDeep.
Proof.
  unfold scan_unsigned. destruct (scan_int_part s) as [[ip r]|];
    [|discriminate].
  destruct (scan_fraction r) as [frac r1].
  destruct (scan_exponent r1) as [exp r2].
  destruct frac, exp; discriminate.
Qed.

Lemma scan_number_fuel (s : string) : scan_number s <> Failed NestingTooDeep.
Proof.
  destruct s as [|c s]; cbn [scan_number]; [discriminate|].
  destruct (Ascii.eqb c "-"); [|apply scan_unsigned_fuel].
  destruct (startswith s "Infinity");
    [discriminate | apply scan_unsigned_fuel].
Qed.

Lemma push_parsed (c : ascii) (p : parsed string) (x rest : string) :
  push c p = Parsed x rest -> exists y, p = Parsed y rest.
Proof. destruct p; simpl; [intros [= _ <-]; eauto | discriminate]. Qed.

Lemma push_failed (c : ascii) (p : parsed string) (e : json_error) :
  push c p = Failed e -> p = Failed e.
Proof. destruct p; simpl; [discriminate | intros [= <-]; reflexivity]. Qed.

(** A string scanned from [s] ends before the end of [s], and scanning a
    string fails for a cause of its own. *)
Lemma scan_string_spec (n : nat) :
  forall s,
    String.length s <= n ->
    (forall x rest,
       scan_string s = Parsed x rest ->
       String.length rest < String.length s)
    /\ scan_string s <> Failed NestingTooDeep.
Proof.
  induction n as [|n IH]; intros s Hn.
  - destruct s; [|simpl in Hn; lia]. split; [discriminate|discriminate].
  - destruct s as [|c s]; [split; discriminate|].
    simpl in Hn. apply le_S_n in Hn. cbn [scan_string].
    destruct (Ascii.eqb c quote).
    { split; [intros x rest [= _ <-]; simpl; lia | discriminate]. }
    destruct (Ascii.eqb c backslash).
    + destruct s as [|e s]; [split; discriminate|].
      destruct (Ascii.eqb e "u").
      * destruct s as [|h1 [|h2 [|h3 [|h4 s]]]]; try (split; discriminate).
        destruct s as [|h5 s]; [split; discriminate|].
        destruct (hex4 h1 h2 h3 h4) as [k|]; [|split; discriminate].
        destruct (Nat.ltb k 256); [|split; discriminate].
        destruct (IH (String h5 s) ltac:(simpl in Hn |- *; lia))
          as [Hlen Hfuel].
        split.
        -- intros x rest H. apply push_parsed in H. destruct H as (y & H).
           apply Hlen in H. simpl in H |- *. lia.
        -- intros H. apply push_failed in H. contradiction.
      * destruct (simple_escape e); [|split; discriminate].
        destruct (IH s ltac:(simpl in Hn; lia)) as [Hlen Hfuel].
        split.
        -- intros x rest H. apply push_parsed in H. destruct H as (y & H).
           apply Hlen in H. simpl. lia.
        -- intros H. apply push_failed in H. contradiction.
    + destruct (Nat.ltb (nat_of_ascii c) 32); [split; discriminate|].
      destruct (IH s Hn) as [Hlen Hfuel]. split.
      * intros x rest H. apply push_parsed in H. destruct H as (y & H).
        apply Hlen in H. simpl. lia.
      * intros H. apply push_failed in H. contradiction.
Qed.

Lemma scan_string_shorter (s x rest : string) :
  scan_string s = Parsed x rest -> String.length rest < String.length s.
Proof. apply (scan_string_spec (String.length s) s (Nat.le_refl _)). Qed.

Lemma scan_string_fuel (s : string) : scan_string s <> Failed NestingTooDeep.
Proof. apply (scan_string_spec (String.length s) s (Nat.le_refl _)). Qed.

Lemma and_then_parsed {A B : Type} (p : parsed A) (f : A -> B) (b : B)
  (rest : string) :
  and_then p f = Parsed b rest -> exists a, p = Parsed a rest.
Proof. destruct p; simpl; [intros [= _ <-]; eauto | discriminate]. Qed.

Lemma and_then_failed {A B : Type} (p : parsed A) (f : A -> B)
  (e : json_error) :
  and_then p f = Failed e -> p = Failed e.
Proof. destruct p; simpl; [discriminate | intros [= <-]; reflexivity]. Qed.

Section Loops.
Variable scan : string -> parsed json.
Variable limit : nat.

(** The scanner of one value takes at least one character, and has
    fuel for the texts shorter than [limit]. *)
Hypothesis scan_shorter :
  forall s v rest,
    scan s = Parsed v rest -> String.length rest < String.length s.
Hypothesis scan_fuel :
  forall s, String.length s < limit -> scan s <> Failed NestingTooDeep.

Lemma scan_elements_spec (bound : nat) :
  forall s,
    (forall items rest,
       scan_elements scan bound s = Parsed items rest ->
       String.length rest < String.length s)
    /\ (String.length s <= bound -> 1 <= bound ->
        String.length s < limit ->
        scan_elements scan bound s <> Failed NestingTooDeep).
Proof.
  induction bound as [|bound IH]; intros s;
    [split; [discriminate | lia]|].
  cbn [scan_elements].
  destruct (scan s) as [v rest|e] eqn:Ev.
  2:{ split; [discriminate|]. intros _ _ Hl H.
      apply (scan_fuel s Hl). congruence. }
  apply scan_shorter in Ev.
  pose proof (skip_ws_length rest) as Hws.
  destruct (skip_ws rest) as [|c rest'] eqn:Er; [split; discriminate|].
  simpl in Hws.
  destruct (Ascii.eqb c "]").
  { split; [intros items r [= _ <-]; lia | discriminate]. }
  destruct (Ascii.eqb c ","); [|split; discriminate].
  pose proof (skip_ws_length rest') as Hws'.
  destruct (IH (skip_ws rest')) as [Hlen Hfuel]. split.
  - intros items r H. apply and_then_parsed in H. destruct H as (l & H).
    apply Hlen in H. lia.
  - intros Hb _ Hl H. apply and_then_failed in H.
    apply Hfuel in H; [assumption | lia | lia | lia].
Qed.

Lemma scan_members_spec (bound : nat) :
  forall s,
    (forall members rest,
       scan_members scan bound s = Parsed members rest ->
       String.length rest < String.length s)
    /\ (String.length s <= bound -> 1 <= bound ->
        String.length s < limit ->
        scan_members scan bound s <> Failed NestingTooDeep).
Proof.
  induction bound as [|bound IH]; intros s;
    [split; [discriminate | lia]|].
  cbn [scan_members].
  destruct s as [|q s1]; [split; discriminate|].
  destruct (Ascii.eqb q quote); [|split; discriminate].
  destruct (scan_string s1) as [key s2|e] eqn:Ek.
  2:{ split; [discriminate|]. intros _ _ _ H.
      apply (scan_string_fuel s1). congruence. }
  apply scan_string_shorter in Ek.
  pose proof (skip_ws_length s2) as Hw2.
  destruct (skip_ws s2) as [|colon s3] eqn:E2; [split; discriminate|].
  simpl in Hw2.
  destruct (Ascii.eqb colon ":"); [|split; discriminate].
  pose proof (skip_ws_length s3) as Hw3.
  destruct (scan (skip_ws s3)) as [v s4|e] eqn:Ev.
  2:{ split; [discriminate|]. intros _ _ Hl H.
      apply (scan_fuel (skip_ws s3)); [simpl in Hl; lia | congruence]. }
  apply scan_shorter in Ev.
  pose proof (skip_ws_length s4) as Hw4.
  destruct (skip_ws s4) as [|c s5] eqn:E4; [split; discriminate|].
  simpl in Hw4.
  destruct (Ascii.eqb c "}").
  { split; [intros members r [= _ <-]; simpl; lia | discriminate]. }
  destruct (Ascii.eqb c ","); [|split; discriminate].
  pose proof (skip_ws_length s5) as Hw5.
  destruct (IH (skip_ws s5)) as [Hlen Hfuel]. split.
  - intros members r H. apply and_then_parsed in H. destruct H as (l & H).
    apply Hlen in H. simpl. lia.
  - intros Hb _ Hl H. apply and_then_failed in H. simpl in Hb, Hl.
    apply Hfuel in H; [assumption | lia | lia | lia].
Qed.
End Loops.

Lemma scan_value_shorter (depth : nat) :
  forall s v rest,
    scan_value depth s = Parsed v rest ->
    String.length rest < String.length s.
Proof.
  induction depth as [|depth IH]; intros s v rest; [discriminate|].
  cbn [scan_value]. destruct s as [|c s]; [discriminate|].
  destruct (Ascii.eqb c quote).
  { intros H. apply and_then_parsed in H. destruct H as (x & H).
    apply scan_string_shorter in H. simpl. lia. }
  pose proof (skip_ws_length s) as Hws.
  destruct (Ascii.eqb c "{").
  { destruct (skip_ws s) as [|d s'] eqn:E; [discriminate|].
    destruct (Ascii.eqb d "}"); [intros [= _ <-]; simpl in *; lia|].
    intros H. apply and_then_parsed in H. destruct H as (l & H).
    apply (proj1 (scan_members_spec _ 0 IH ltac:(intros; lia) _ _)) in H.
    simpl in *. lia. }
  destruct (Ascii.eqb c "[").
  { destruct (skip_ws s) as [|d s'] eqn:E; [discriminate|].
    destruct (Ascii.eqb d "]"); [intros [= _ <-]; simpl in *; lia|].
    intros H. apply and_then_parsed in H. destruct H as (l & H).
    apply (proj1 (scan_elements_spec _ 0 IH ltac:(intros; lia) _ _)) in H.
    simpl in *. lia. }
  destruct (startswith (String c s) "null") eqn:E1;
    [intros H; apply parsed_inj in H; destruct H as [_ <-];
     apply startswith_slice in E1; cbn [String.length] in *; lia|].
  destruct (startswith (String c s) "true") eqn:E2;
    [intros H; apply parsed_inj in H; destruct H as [_ <-];
     apply startswith_slice in E2; cbn [String.length] in *; lia|].
  destruct (startswith (String c s) "false") eqn:E3;
    [intros H; apply parsed_inj in H; destruct H as [_ <-];
     apply startswith_slice in E3; cbn [String.length] in *; lia|].
  destruct (startswith (String c s) "NaN") eqn:E4;
    [intros H; apply parsed_inj in H; destruct H as [_ <-];
     apply startswith_slice in E4; cbn [String.length] in *; lia|].
  destruct (startswith (String c s) "Infinity") eqn:E5;
    [intros H; apply parsed_inj in H; destruct H as [_ <-];
     apply startswith_slice in E5; cbn [String.length] in *; lia|].
  apply scan_number_shorter.
Qed.

Lemma scan_value_fuel (depth : nat) :
  forall s,
    String.length s < depth -> scan_value depth s <> Failed NestingTooDeep.
Proof.
  induction depth as [|depth IH]; intros s Hs; [lia|].
  cbn [scan_value]. destruct s as [|c s]; [discriminate|].
  simpl in Hs. apply Nat.succ_lt_mono in Hs.
  destruct (Ascii.eqb c quote).
  { intros H. apply and_then_failed in H. now apply scan_string_fuel in H. }
  pose proof (skip_ws_length s) as Hws.
  destruct (Ascii.eqb c "{").
  { destruct (skip_ws s) as [|d s'] eqn:E; [discriminate|].
    destruct (Ascii.eqb d "}"); [discriminate|].
    intros H. apply and_then_failed in H.
    apply (proj2 (scan_members_spec _ depth (scan_value_shorter depth) IH
                    _ _)) in H;
      [assumption | | | ]; simpl in *; lia. }
  destruct (Ascii.eqb c "[").
  { destruct (skip_ws s) as [|d s'] eqn:E; [discriminate|].
    destruct (Ascii.eqb d "]"); [discriminate|].
    intros H. apply and_then_failed in H.
    apply (proj2 (scan_elements_spec _ depth (scan_value_shorter depth) IH
                    _ _)) in H;
      [assumption | | | ]; simpl in *; lia. }
  destruct (startswith (String c s) "null"); [discriminate|].
  destruct (startswith (String c s) "true"); [discriminate|].
  destruct (startswith (String c s) "false"); [discriminate|].
  destruct (startswith (String c s) "NaN"); [discriminate|].
  destruct (startswith (String c s) "Infinity"); [discriminate|].
  apply scan_number_fuel.
Qed.

(** The depth given to the scanner by [loads] is enough for every text:
    [loads] never fails for lack of it. *)
Lemma loads_fuel (s : string) : loads s <> inr NestingTooDeep.
Proof.
  unfold loads. pose proof (skip_ws_length s) as Hws.
  destruct (scan_value (S (String.length s)) (skip_ws s)) as [v rest|e] eqn:E.
  - destruct (skip_ws rest); discriminate.
  - intros [= ->]. apply scan_value_fuel in E; [assumption | lia].
Qed.

End Fuel.

(** ** The evaluator *)

Section EvaluatorFacts.
Import PyStr Json Schema Evaluator.

Lemma strip_kept_ends (c d : ascii) (s : string) :
  isspace c = false -> isspace d = false ->
  strip (String c (s ++ String d EmptyString))
  = String c (s ++ String d EmptyString).
Proof.
  intros Hc Hd. unfold strip, strip_by. cbn [lstrip_by]. rewrite Hc.
  change (String c (s ++ String d EmptyString))
    with (String c s ++ String d EmptyString).
  now apply rstrip_by_last_kept.
Qed.

(** The fences around a text in braces are taken off, and nothing else. *)
Lemma strip_fences_fenced (body : string) :
  strip_fences (fenced (String "{" (body ++ "}")))
  = String "{" (body ++ "}").
Proof.
  unfold strip_fences.
  set (text := String "{" (body ++ "}")).
  assert (Hfenced :
    fenced text
    = String backtick
        (String backtick
           (String backtick
              ("json" ++ String newline text
               ++ String newline
                    (String backtick (String backtick EmptyString))))
         ++ String backtick EmptyString)).
  { unfold fenced, fence_marker. cbn [append]. do 8 f_equal.
    now rewrite append_assoc. }
  rewrite Hfenced, strip_kept_ends by reflexivity. rewrite <- Hfenced.
  unfold fenced, fence_marker. cbn [append startswith].
  rewrite !Ascii.eqb_refl. cbn [andb].
  unfold strip_chars, strip_by. cbn [lstrip_by mem_char].
  rewrite !Ascii.eqb_refl. cbn [orb].
  change (Ascii.eqb "j" backtick) with false. cbn [orb].
  assert (Hright :
    rstrip_by (fun c => Ascii.eqb c backtick || false)
      (String "j" (String "s" (String "o" (String "n"
         (String newline
            (text ++ String newline
                       (String backtick
                          (String backtick (String backtick EmptyString)))))))))
    = String "j" (String "s" (String "o" (String "n"
        (String newline (text ++ String newline EmptyString)))))).
  { change (String "j" (String "s" (String "o" (String "n"
              (String newline (text ++ ?t))))))
      with (("json" ++ String newline text) ++ t).
    rewrite rstrip_by_app_kept; [reflexivity | discriminate]. }
  rewrite Hright. cbn [lower startswith]. 
  change (startswith _ "json") with true. cbv iota.
  cbn [slice_from]. unfold strip, strip_by. cbn [lstrip_by].
  change (isspace newline) with true. cbv iota.
  unfold text at 1. cbn [append lstrip_by].
  change (isspace "{") with false. cbv iota.
  change (String "{" ((body ++ "}") ++ String newline EmptyString))
    with (String "{" (body ++ "}") ++ String newline EmptyString).
  rewrite rstrip_by_app_dropped by reflexivity.
  change (String "{" (body ++ "}")) with (String "{" body ++ "}").
  unfold text.
  change (String "{" (body ++ "}")) with (String "{" body ++ "}").
  now apply rstrip_by_last_kept.
Qed.

Lemma dumps_object_braces (indent : option nat)
  (members : list (string * json)) :
  exists body,
    dumps_at indent 0 (JObj members) = String "{" (body ++ "}").
Proof.
  destruct members as [|kv members]; [now exists EmptyString|].
  eexists. rewrite <- (append_nil_r (dumps_at _ _ _)), dumps_object.
  rewrite <- !append_assoc. reflexivity.
Qed.

(** A plain dictionary, written by [dumps] in any layout and fenced, is
    decoded to itself. *)
Lemma decode_fenced_object (indent : option nat)
  (members : list (string * json)) :
  plain (JObj members) = true ->
  strip_fences (fenced (dumps_at indent 0 (JObj members)))
  = dumps_at indent 0 (JObj members)
  /\ decode (fenced (dumps_at indent 0 (JObj members))) = JObj members.
Proof.
  intros H.
  assert (E : strip_fences (fenced (dumps_at indent 0 (JObj members)))
              = dumps_at indent 0 (JObj members)).
  { destruct (dumps_object_braces indent members) as (body & ->).
    apply strip_fences_fenced. }
  split; [exact E|].
  unfold decode. rewrite E, loads_dumps_at by assumption. reflexivity.
Qed.

(** C3: an evaluation of the schema, written as JSON by [json.dumps] (on
    one line, or indented by any number of spaces) and wrapped in a json
    code fence, is decoded to the same evaluation: the text left after the
    fences are taken off is the JSON text, and parsing it gives back the
    dictionary. *)
Theorem decode_fenced_evaluation (e : evaluation) (indent : option nat)
  (ticket_text : string) :
  strip_fences (fenced (dumps_at indent 0 (to_json e)))
  = dumps_at indent 0 (to_json e)
  /\ decode (fenced (dumps_at indent 0 (to_json e))) = to_json e
  /\ evaluate_ticket ticket_text
       (Completion (Some (fenced (dumps_at indent 0 (to_json e)))))
     = Ok (to_json e)
  /\ evaluate_ticket ticket_text
       (Completion (Some (fenced (dumps (to_json e)))))
     = Ok (to_json e).
Proof.
  destruct (decode_fenced_object indent _
              (eq_refl : plain (to_json e) = true)) as [Hs Hd].
  destruct (decode_fenced_object None _
              (eq_refl : plain (to_json e) = true)) as [_ Hd0].
  repeat split; try assumption;
    unfold evaluate_ticket, content_or_empty, dumps;
    unfold to_json in *; congruence.
Qed.

(** C2, as the code has it: when the text left after the fences are taken
    off is not valid JSON, the evaluator returns, without raising, the
    dictionary of a decode failure, whose raw text is the completion as it
    was received; when that text is a JSON object, the dictionary parsed
    from it is returned, whatever its keys and the types of its values. *)
Theorem unparseable_completion_keeps_raw_text (ticket_text raw : string) :
  (forall e,
     loads (strip_fences raw) = inr e ->
     evaluate_ticket ticket_text (Completion (Some raw))
     = Ok (parse_failure e raw)
     /\ is_decode_failure (parse_failure e raw) = true
     /\ raw_output (parse_failure e raw) = Some (JStr raw))
  /\ (forall members,
        loads (strip_fences raw) = inl (JObj members) ->
        evaluate_ticket ticket_text (Completion (Some raw))
        = Ok (JObj members))
  /\ (exists result,
        evaluate_ticket ticket_text (Completion (Some raw)) = Ok result).
Proof.
  split; [|split].
  - intros e He. repeat split.
    unfold evaluate_ticket, content_or_empty, decode. now rewrite He.
  - intros members Hd.
    unfold evaluate_ticket, content_or_empty, decode. now rewrite Hd.
  - eexists. reflexivity.
Qed.

Lemma unparseable_completion_keeps_raw_text_witness :
  evaluate_ticket "ticket" (Completion (Some "{oops"))
  = Ok (parse_failure ExpectingPropertyName "{oops")
  /\ raw_output (parse_failure ExpectingPropertyName "{oops")
     = Some (JStr "{oops")
  /\ evaluate_ticket "ticket" (Completion (Some "[1] and some prose"))
     = Ok (parse_failure ExtraData "[1] and some prose")
  /\ evaluate_ticket "ticket" (Completion (Some "  { }  ")) = Ok (JObj []).
Proof.
  split; [|split; [|split]].
  - apply (proj1 (unparseable_completion_keeps_raw_text "ticket" "{oops")
             ExpectingPropertyName); reflexivity.
  - apply (proj1 (unparseable_completion_keeps_raw_text "ticket" "{oops")
             ExpectingPropertyName); reflexivity.
  - apply (proj1 (unparseable_completion_keeps_raw_text "ticket"
                    "[1] and some prose") ExtraData); reflexivity.
  - apply (proj1 (proj2 (unparseable_completion_keeps_raw_text "ticket"
                           "  { }  ")));
      reflexivity.
Defined.

(** C2 fails as stated: a completion that is a JSON object of another
    shape (no field of the schema, or a number where the schema has a
    record) is no evaluation of the schema, and the evaluator returns it
    as data, not as a decode failure; so it does with the scalar [42]. *)
Lemma wrong_shape_is_returned_as_data :
  evaluate_ticket "ticket" (Completion (Some "{}")) = Ok (JObj [])
  /\ is_decode_failure (JObj []) = false
  /\ (forall e, to_json e <> JObj [])
  /\ evaluate_ticket "ticket"
       (Completion (Some (dumps (JObj [("criteria", JInt 5)]))))
     = Ok (JObj [("criteria", JInt 5)])
  /\ is_decode_failure (JObj [("criteria", JInt 5)]) = false
  /\ (forall e, to_json e <> JObj [("criteria", JInt 5)])
  /\ evaluate_ticket "ticket" (Completion (Some "42")) = Ok (JInt 42)
  /\ is_decode_failure (JInt 42) = false.
Proof. repeat split; intros e; discriminate. Qed.

(** C10: a completion whose content is [None] or the empty string is
    decoded to a decode failure whose raw text is the empty string, and
    that result is not an evaluation. *)
Theorem empty_completion_is_decode_failure (ticket_text : string) :
  evaluate_ticket ticket_text (Completion None)
  = Ok (parse_failure ExpectingValue EmptyString)
  /\ evaluate_ticket ticket_text (Completion (Some EmptyString))
     = Ok (parse_failure ExpectingValue EmptyString)
  /\ is_decode_failure (parse_failure ExpectingValue EmptyString) = true
  /\ raw_output (parse_failure ExpectingValue EmptyString)
     = Some (JStr EmptyString)
  /\ (forall e, to_json e <> parse_failure ExpectingValue EmptyString).
Proof. repeat split. intros e. discriminate. Qed.

End EvaluatorFacts.

(** ** The session handlers *)

Section SessionFacts.
Import PyStr Json Schema Evaluator Session.

Variable sha256_hexdigest : string -> string.

#[local] Abbreviation log_coaching := (log_coaching sha256_hexdigest).
#[local] Abbreviation run_eval := (run_eval sha256_hexdigest).
#[local] Abbreviation run_evals := (run_evals sha256_hexdigest).

Lemma seen_iff (key : string) (keys : list string) :
  existsb (String.eqb key) keys = true <-> In key keys.
Proof.
  rewrite existsb_exists. split.
  - intros (k & Hin & E). apply String.eqb_eq in E. now subst.
  - intros Hin. exists key. split; [assumption | apply String.eqb_refl].
Qed.

Lemma unseen_iff (key : string) (keys : list string) :
  existsb (String.eqb key) keys = false <-> ~ In key keys.
Proof.
  rewrite <- seen_iff. destruct (existsb (String.eqb key) keys);
    split; congruence.
Qed.

Lemma log_coaching_logged (st st' : session) (ticket_text : string)
  (result : json) :
  log_coaching st ticket_text result = Ok st' ->
  logged (sha256_hexdigest ticket_text) st st'.
Proof.
  unfold log_coaching, bind.
  destruct (contains_key "error" result) as [[]|]; try discriminate.
  { intros [= <-]. now apply logged_nothing. }
  destruct (get result "coaching_summary" _) as [coaching|]; try discriminate.
  destruct (get result "root_cause" _) as [root|]; try discriminate.
  destruct (get result "overall_rating" _) as [overall|]; try discriminate.
  destruct (get (or_else root _) "label" _) as [root_label|];
    try discriminate.
  destruct (get (or_else overall _) "score" _) as [overall_score|];
    try discriminate.
  destruct (truthy coaching) eqn:Hc.
  - destruct (existsb _ (coaching_keys st)) eqn:Hseen; intros [= <-].
    + now apply logged_nothing.
    + eapply logged_one; try reflexivity; [|exact Hc].
      now apply unseen_iff.
  - intros [= <-]. now apply logged_nothing.
Qed.

Lemma run_eval_logged (st : session) (ticket_text : string)
  (reply : gateway_reply) :
  logged (sha256_hexdigest ticket_text) st
    (final (run_eval st ticket_text reply)).
Proof.
  unfold Session.run_eval.
  destruct (nonempty (strip ticket_text)); [|now apply logged_nothing].
  destruct (evaluate_ticket ticket_text reply) as [result|e];
    [|now apply logged_nothing].
  destruct (Session.log_coaching _ _ ticket_text result) as [st2|e] eqn:E;
    [|now apply logged_nothing].
  apply log_coaching_logged in E. cbn [final].
  destruct E as [Hk Hh | label s r c Hnew Hc Hk Hh].
  - now apply logged_nothing.
  - eapply logged_one; eauto.
Qed.

Lemma logged_consistent (key : string) (st st' : session) :
  logged key st st' -> store_consistent st -> store_consistent st'.
Proof.
  intros [Hk Hh | label s r c Hnew Hc Hk Hh] [Hnd Hlen];
    unfold store_consistent, list_append in *; rewrite Hk, Hh.
  - now split.
  - split.
    + apply NoDup_app; repeat split; try assumption.
      * constructor; [intros [] | constructor].
      * intros k Hin [<-|[]]. contradiction.
    + rewrite !length_app. simpl. lia.
Qed.

Lemma logged_summaries (key : string) (st st' : session) :
  logged key st st' -> summaries_nonempty st -> summaries_nonempty st'.
Proof.
  intros [Hk Hh | label s r c Hnew Hc Hk Hh] H;
    unfold summaries_nonempty, list_append in *; rewrite Hh; [assumption|].
  apply Forall_app. split; [assumption|].
  constructor; [|constructor]. exists c. split; [reflexivity | assumption].
Qed.

Lemma run_evals_invariants (evaluations : list (string * gateway_reply)) :
  forall st,
    store_consistent st -> summaries_nonempty st ->
    store_consistent (run_evals st evaluations)
    /\ summaries_nonempty (run_evals st evaluations).
Proof.
  induction evaluations as [|[text reply] evaluations IH]; intros st Hc Hs;
    [now split|].
  unfold Session.run_evals. cbn [fold_left fst snd].
  apply IH.
  - eapply logged_consistent; [apply run_eval_logged | assumption].
  - eapply logged_summaries; [apply run_eval_logged | assumption].
Qed.

Lemma fresh_session_invariants (default_label : string) :
  store_consistent (fresh_session default_label)
  /\ summaries_nonempty (fresh_session default_label).
Proof.
  split; [split; [constructor | reflexivity] | constructor].
Qed.

Lemma reachable_invariants (default_label : string)
  (evaluations : list (string * gateway_reply)) :
  store_consistent (run_evals (fresh_session default_label) evaluations)
  /\ summaries_nonempty (run_evals (fresh_session default_label) evaluations).
Proof.
  destruct (fresh_session_invariants default_label).
  now apply run_evals_invariants.
Qed.

(** Logging a result that is recordable. *)
Lemma log_coaching_recordable (st : session) (ticket_text : string)
  (result overall_score root_label coaching : json) :
  recordable result overall_score root_label coaching ->
  log_coaching st ticket_text result
  = Ok (if existsb (String.eqb (sha256_hexdigest ticket_text))
             (coaching_keys st)
        then st
        else
          {| last_result := last_result st;
             last_ticket_text := last_ticket_text st;
             kb_draft := kb_draft st;
             coaching_history :=
               list_append (coaching_history st)
                 (coaching_item (label_or_adhoc st) overall_score root_label
                    coaching);
             coaching_keys :=
               list_append (coaching_keys st) (sha256_hexdigest ticket_text);
             team_insights := team_insights st;
             current_ticket_label := current_ticket_label st |}).
Proof.
  intros (Herr & Hc & Ht & (root & Hroot & Hlabel)
          & (overall & Hoverall & Hscore)).
  unfold Session.log_coaching, bind.
  rewrite Herr, Hc, Hroot, Hoverall, Hlabel, Hscore, Ht.
  destruct (existsb _ (coaching_keys st)); reflexivity.
Qed.

(** A well-formed evaluation whose coaching summary is not empty is
    recordable. *)
Lemma evaluation_recordable (e : evaluation) :
  coaching_summary e <> EmptyString ->
  recordable (to_json e)
    (JInt (score (overall_rating e)))
    (JStr (label_name (label (cause e))))
    (JStr (coaching_summary e)).
Proof.
  intros H. unfold recordable, to_json. cbn.
  repeat split; eauto.
  destruct (coaching_summary e); [congruence | reflexivity].
Qed.

(** An evaluation of a text whose key is already there leaves the store as
    it is, whatever the service answers. *)
Lemma run_eval_seen (st : session) (ticket_text : string)
  (reply : gateway_reply) :
  In (sha256_hexdigest ticket_text) (coaching_keys st) ->
  coaching_keys (final (run_eval st ticket_text reply)) = coaching_keys st
  /\ coaching_history (final (run_eval st ticket_text reply))
     = coaching_history st.
Proof.
  intros Hin.
  destruct (run_eval_logged st ticket_text reply)
    as [Hk Hh | label s r c Hnew Hc Hk Hh]; [now split | contradiction].
Qed.

Lemma count_occ_unseen (key : string) (keys : list string) :
  ~ In key keys ->
  count_occ string_dec (keys ++ [key])%list key = 1.
Proof.
  intros H. rewrite count_occ_app. simpl.
  destruct (string_dec key key); [|congruence].
  apply (count_occ_not_In string_dec) in H. lia.
Qed.

(** A result that is not recordable is not logged. *)
Lemma log_coaching_not_recordable (st st' : session) (ticket_text : string)
  (result : json) :
  (forall overall_score root_label coaching,
     ~ recordable result overall_score root_label coaching) ->
  log_coaching st ticket_text result = Ok st' -> st' = st.
Proof.
  intros Hnot. unfold Session.log_coaching, bind.
  destruct (contains_key "error" result) as [[]|] eqn:Herr;
    try discriminate.
  { now intros [= <-]. }
  destruct (get result "coaching_summary" _) as [coaching|] eqn:Hc;
    try discriminate.
  destruct (get result "root_cause" _) as [root|] eqn:Hroot;
    try discriminate.
  destruct (get result "overall_rating" _) as [overall|] eqn:Hoverall;
    try discriminate.
  destruct (get (or_else root _) "label" _) as [root_label|] eqn:Hlabel;
    try discriminate.
  destruct (get (or_else overall _) "score" _) as [overall_score|] eqn:Hscore;
    try discriminate.
  destruct (truthy coaching) eqn:Ht; [|now intros [= <-]].
  exfalso. apply (Hnot overall_score root_label coaching).
  unfold recordable. repeat split; eauto.
Qed.

(** An evaluation whose result is not recordable leaves the store as it
    is. *)
Lemma run_eval_not_recordable (st : session) (ticket_text : string)
  (reply : gateway_reply) (result : json) :
  evaluate_ticket ticket_text reply = Ok result ->
  (forall overall_score root_label coaching,
     ~ recordable result overall_score root_label coaching) ->
  coaching_keys (final (run_eval st ticket_text reply)) = coaching_keys st
  /\ coaching_history (final (run_eval st ticket_text reply))
     = coaching_history st.
Proof.
  intros Hreply Hnot. unfold Session.run_eval.
  destruct (nonempty (strip ticket_text)); [|now split].
  rewrite Hreply.
  destruct (Session.log_coaching _ _ ticket_text result) as [st2|e] eqn:E;
    cbn [final]; [|now split].
  apply (log_coaching_not_recordable _ _ _ _ Hnot) in E. subst st2.
  now split.
Qed.

Lemma decode_failure_not_recordable (result : json) :
  is_decode_failure result = true ->
  forall overall_score root_label coaching,
    ~ recordable result overall_score root_label coaching.
Proof.
  intros Hfail s l c (Herr & _).
  destruct result as [ |b|z|x|t|items|members]; try discriminate Hfail.
  cbn [is_decode_failure contains_key] in *.
  destruct (lookup "error" members); [discriminate Herr|discriminate Hfail].
Qed.

Lemma empty_summary_not_recordable (result summary : json) :
  get result "coaching_summary" (JStr EmptyString) = Ok summary ->
  truthy summary = false ->
  forall overall_score root_label coaching,
    ~ recordable result overall_score root_label coaching.
Proof.
  intros Hget Hfalse s l c (_ & Hc & Ht & _). congruence.
Qed.

(** C1, as the code has it.  In a session reached by any evaluations, a
    text is evaluated twice; the first result is recordable (a dictionary
    without the key "error", with a coaching summary that is not empty,
    and whose root cause and overall rating are each a dictionary, absent
    or a false value, as every well-formed evaluation with such a summary
    is), the second answer of the service is anything.  Then the store
    has exactly one key for the text, the second evaluation leaves keys
    and items as they were, the item logged is that of the first result
    unless the text had been logged before, and in every case the keys
    are distinct and as many as the items.  And from every session, an
    evaluation of the text whose result is not recordable - a decode
    failure, a result whose coaching summary is absent, empty or another
    false value, or any other result the handler does not record - adds
    no item and no key. *)
Theorem first_recorded_result_wins
  (default_label : string) (earlier : list (string * gateway_reply))
  (ticket_text : string) (reply1 reply2 : gateway_reply)
  (result1 overall_score root_label coaching : json) :
  let st := run_evals (fresh_session default_label) earlier in
  let run1 := run_eval st ticket_text reply1 in
  let run2 := run_eval (final run1) ticket_text reply2 in
  let ticket_key := sha256_hexdigest ticket_text in
  nonempty (strip ticket_text) = true ->
  evaluate_ticket ticket_text reply1 = Ok result1 ->
  recordable result1 overall_score root_label coaching ->
  store_consistent st
  /\ store_consistent (final run2)
  /\ count_occ string_dec (coaching_keys (final run2)) ticket_key = 1
  /\ coaching_keys (final run2) = coaching_keys (final run1)
  /\ coaching_history (final run2) = coaching_history (final run1)
  /\ coaching_history (final run1)
     = (if existsb (String.eqb ticket_key) (coaching_keys st)
        then coaching_history st
        else list_append (coaching_history st)
               (coaching_item (label_or_adhoc st) overall_score root_label
                  coaching))
  /\ ended run1 = Done
  /\ forall (st0 : session) (reply0 : gateway_reply) (result0 : json),
       evaluate_ticket ticket_text reply0 = Ok result0 ->
       is_decode_failure result0 = true
       \/ (exists summary,
             get result0 "coaching_summary" (JStr EmptyString) = Ok summary
             /\ truthy summary = false)
       \/ (forall s l c, ~ recordable result0 s l c) ->
       coaching_keys (final (run_eval st0 ticket_text reply0))
       = coaching_keys st0
       /\ coaching_history (final (run_eval st0 ticket_text reply0))
          = coaching_history st0.
Proof.
  intros st run1 run2 ticket_key Htext Hreply Hrec.
  destruct (reachable_invariants default_label earlier) as [Hst _].
  fold st in Hst.
  assert (Hrun1 :
    coaching_keys (final run1)
    = (if existsb (String.eqb ticket_key) (coaching_keys st)
       then coaching_keys st
       else list_append (coaching_keys st) ticket_key)
    /\ coaching_history (final run1)
       = (if existsb (String.eqb ticket_key) (coaching_keys st)
          then coaching_history st
          else list_append (coaching_history st)
                 (coaching_item (label_or_adhoc st) overall_score root_label
                    coaching))
    /\ ended run1 = Done).
  { unfold run1, Session.run_eval. rewrite Htext, Hreply.
    rewrite (log_coaching_recordable _ _ _ _ _ _ Hrec).
    cbn [coaching_keys]. fold ticket_key.
    destruct (existsb (String.eqb ticket_key) (coaching_keys st));
      repeat split. }
  destruct Hrun1 as (Hk1 & Hh1 & Hend).
  assert (Hin : In ticket_key (coaching_keys (final run1))).
  { rewrite Hk1.
    destruct (existsb (String.eqb ticket_key) (coaching_keys st)) eqn:E.
    - now apply seen_iff.
    - apply in_or_app. right. now left. }
  destruct (run_eval_seen (final run1) ticket_text reply2 Hin) as [Hk2 Hh2].
  fold run2 in Hk2, Hh2.
  assert (Hc1 : store_consistent (final run1))
    by (eapply logged_consistent; [apply run_eval_logged | exact Hst]).
  assert (Hc2 : store_consistent (final run2))
    by (eapply logged_consistent; [apply run_eval_logged | exact Hc1]).
  split; [exact Hst|]. split; [exact Hc2|].
  split; [|repeat split; try assumption].
  - rewrite Hk2. destruct Hc1 as [Hnd _].
    pose proof (proj1 (NoDup_count_occ string_dec _) Hnd ticket_key) as Hle.
    pose proof (proj1 (count_occ_In string_dec _ _) Hin) as Hge. lia.
  - apply (run_eval_not_recordable st0 ticket_text reply0 result0 H).
    destruct H0 as [Hfail|[(summary & Hget & Hfalse)|Hnot]].
    + now apply decode_failure_not_recordable.
    + now apply (empty_summary_not_recordable result0 summary).
    + exact Hnot.
  - apply (run_eval_not_recordable st0 ticket_text reply0 result0 H).
    destruct H0 as [Hfail|[(summary & Hget & Hfalse)|Hnot]].
    + now apply decode_failure_not_recordable.
    + now apply (empty_summary_not_recordable result0 summary).
    + exact Hnot.
Qed.


(** C9: in a session reached by any evaluations, a result that is a
    dictionary without the key "error" and whose coaching summary is
    absent, the empty string or another false value adds no item and no
    key; every item of the store has a coaching summary that is not
    empty; and a later evaluation of the same text with a recordable
    result, whose coaching summary is not empty, is logged, unless the
    text had been logged before the two. *)
Theorem empty_summary_is_not_logged
  (default_label : string) (earlier : list (string * gateway_reply))
  (ticket_text : string) (reply1 reply2 : gateway_reply)
  (members : list (string * json))
  (result2 overall_score root_label coaching : json) :
  let st := run_evals (fresh_session default_label) earlier in
  let run1 := run_eval st ticket_text reply1 in
  let run2 := run_eval (final run1) ticket_text reply2 in
  let ticket_key := sha256_hexdigest ticket_text in
  nonempty (strip ticket_text) = true ->
  evaluate_ticket ticket_text reply1 = Ok (JObj members) ->
  lookup "error" members = None ->
  truthy (match lookup "coaching_summary" members with
          | Some coaching => coaching
          | None => JStr EmptyString
          end) = false ->
  evaluate_ticket ticket_text reply2 = Ok result2 ->
  recordable result2 overall_score root_label coaching ->
  coaching_history (final run1) = coaching_history st
  /\ coaching_keys (final run1) = coaching_keys st
  /\ summaries_nonempty st
  /\ summaries_nonempty (final run2)
  /\ coaching_history (final run2)
     = (if existsb (String.eqb ticket_key) (coaching_keys st)
        then coaching_history st
        else list_append (coaching_history st)
               (coaching_item (label_or_adhoc st) overall_score root_label
                  coaching))
  /\ coaching_keys (final run2)
     = (if existsb (String.eqb ticket_key) (coaching_keys st)
        then coaching_keys st
        else list_append (coaching_keys st) ticket_key).
Proof.
  intros st run1 run2 ticket_key Htext Hreply1 Herr Hsum Hreply2 Hrec.
  destruct (reachable_invariants default_label earlier) as [_ Hst].
  fold st in Hst.
  assert (Hrun1 : coaching_history (final run1) = coaching_history st
                  /\ coaching_keys (final run1) = coaching_keys st
                  /\ label_or_adhoc (final run1) = label_or_adhoc st).
  { unfold run1, Session.run_eval. rewrite Htext, Hreply1.
    unfold Session.log_coaching, bind. cbn [contains_key get]. rewrite Herr.
    destruct (get (or_else _ _) "label" _); [|repeat split].
    destruct (get (or_else _ _) "score" _); [|repeat split].
    rewrite Hsum. repeat split. }
  destruct Hrun1 as (Hh1 & Hk1 & Hl1).
  assert (Hs2 : summaries_nonempty (final run2)).
  { eapply logged_summaries; [apply run_eval_logged|].
    eapply logged_summaries; [apply run_eval_logged | exact Hst]. }
  repeat split; try assumption.
  - unfold run2, Session.run_eval. rewrite Htext, Hreply2.
    rewrite (log_coaching_recordable _ _ _ _ _ _ Hrec).
    cbn [coaching_keys coaching_history].
    fold ticket_key. rewrite Hk1, Hh1.
    destruct (existsb (String.eqb ticket_key) (coaching_keys st));
      [reflexivity|].
    cbn [final coaching_history].
    unfold label_or_adhoc in *. cbn [current_ticket_label].
    now rewrite Hl1.
  - unfold run2, Session.run_eval. rewrite Htext, Hreply2.
    rewrite (log_coaching_recordable _ _ _ _ _ _ Hrec).
    cbn [coaching_keys]. fold ticket_key. rewrite Hk1.
    destruct (existsb (String.eqb ticket_key) (coaching_keys st));
      reflexivity.
Qed.

(** C6: when the call to the completion service fails, the handler ends
    with the transport error after that one call, and the session,
    coaching items and keys included, is the one it started from. *)
Theorem gateway_failure_leaves_session (st : session) (ticket_text : string) :
  nonempty (strip ticket_text) = true ->
  evaluate_ticket ticket_text GatewayFails = Raise TransportError
  /\ run_eval st ticket_text GatewayFails
     = {| final := st;
          ended := Raised TransportError;
          calls := [EvaluateCall ticket_text] |}
  /\ coaching_history (final (run_eval st ticket_text GatewayFails))
     = coaching_history st
  /\ coaching_keys (final (run_eval st ticket_text GatewayFails))
     = coaching_keys st.
Proof.
  intros Htext. unfold Session.run_eval. rewrite Htext. repeat split.
Qed.

End SessionFacts.

(** ** Sample runs of the handlers *)

Section SessionSamples.
Import PyStr Json Schema Evaluator Session.

Lemma first_recorded_result_wins_witness :
  let digest := fun text : string => text in
  let e1 :=
    Evaluation (Rating 2 "a") (Rating 3 "b") (Rating 2 "c") (Rating 1 "d")
      (Rating 4 "e") (Rating 2 "weak")
      (RootCause agent_performance "why" EmptyString)
      "Read the earlier ticket first." in
  let reply1 := Completion (Some (fenced (dumps (to_json e1)))) in
  let reply2 := Completion (Some "no JSON at all") in
  let st := run_evals digest (fresh_session "Sample") [] in
  let run1 := run_eval digest st "Same billing issue" reply1 in
  let run2 := run_eval digest (final run1) "Same billing issue" reply2 in
  store_consistent st
  /\ store_consistent (final run2)
  /\ count_occ string_dec (coaching_keys (final run2)) "Same billing issue" = 1
  /\ coaching_keys (final run2) = coaching_keys (final run1)
  /\ coaching_history (final run2) = coaching_history (final run1)
  /\ coaching_history (final run1)
     = (if existsb (String.eqb "Same billing issue") (coaching_keys st)
        then coaching_history st
        else list_append (coaching_history st)
               (item_of (label_or_adhoc st) e1))
  /\ ended run1 = Done
  /\ forall (st0 : session) (reply0 : gateway_reply) (result0 : json),
       evaluate_ticket "Same billing issue" reply0 = Ok result0 ->
       is_decode_failure result0 = true
       \/ (exists summary,
             get result0 "coaching_summary" (JStr EmptyString) = Ok summary
             /\ truthy summary = false)
       \/ (forall s l c, ~ recordable result0 s l c) ->
       coaching_keys (final (run_eval digest st0 "Same billing issue" reply0))
       = coaching_keys st0
       /\ coaching_history
            (final (run_eval digest st0 "Same billing issue" reply0))
          = coaching_history st0.
Proof.
  intros digest e1 reply1 reply2.
  apply (first_recorded_result_wins digest "Sample" [] "Same billing issue"
           reply1 reply2 (to_json e1)).
  - reflexivity.
  - vm_compute. reflexivity.
  - unfold recordable. repeat split; try reflexivity;
      eexists; split; reflexivity.
Defined.

(** C1 fails as stated: when the first of two results for the same text
    has an empty coaching summary, the item stored is that of the second
    result; and when both completions are not JSON, no item is stored. *)
Lemma first_result_without_summary_does_not_win :
  let digest := fun text : string => text in
  let e1 :=
    Evaluation (Rating 2 "a") (Rating 3 "b") (Rating 2 "c") (Rating 1 "d")
      (Rating 4 "e") (Rating 2 "weak")
      (RootCause agent_performance "why" EmptyString)
      EmptyString in
  let e2 :=
    Evaluation (Rating 5 "a") (Rating 5 "b") (Rating 5 "c") (Rating 5 "d")
      (Rating 5 "e") (Rating 5 "strong") (RootCause mixed "why" "Limits")
      "Keep it up." in
  let st := fresh_session "Sample" in
  let run1 :=
    run_eval digest st "Same billing issue"
      (Completion (Some (fenced (dumps (to_json e1))))) in
  let run2 :=
    run_eval digest (final run1) "Same billing issue"
      (Completion (Some (fenced (dumps (to_json e2))))) in
  let bad1 :=
    run_eval digest st "Same billing issue" (Completion (Some "oops")) in
  let bad2 :=
    run_eval digest (final bad1) "Same billing issue"
      (Completion (Some "oops")) in
  last_result (final run1) = Some (to_json e1)
  /\ coaching_history (final run1) = []
  /\ coaching_history (final run2) = [item_of "Sample" e2]
  /\ coaching_history (final run2) <> [item_of "Sample" e1]
  /\ coaching_history (final bad2) = [].
Proof. vm_compute. repeat split. discriminate. Qed.

(** C9 fails as stated: a text that was logged before is not logged
    again.  The text is recorded under a first evaluation, evaluated
    again with an empty coaching summary, and then with a coaching
    summary that is not empty: the third result is not recorded, the
    history keeps the record of the first. *)
Lemma recorded_text_is_not_recorded_again :
  let digest := fun text : string => text in
  let e0 :=
    Evaluation (Rating 2 "a") (Rating 3 "b") (Rating 2 "c") (Rating 1 "d")
      (Rating 4 "e") (Rating 2 "weak")
      (RootCause agent_performance "why" EmptyString)
      "Read the earlier ticket first." in
  let e1 :=
    Evaluation (Rating 2 "a") (Rating 3 "b") (Rating 2 "c") (Rating 1 "d")
      (Rating 4 "e") (Rating 2 "weak")
      (RootCause agent_performance "why" EmptyString)
      EmptyString in
  let e2 :=
    Evaluation (Rating 5 "a") (Rating 5 "b") (Rating 5 "c") (Rating 5 "d")
      (Rating 5 "e") (Rating 5 "strong") (RootCause mixed "why" "Limits")
      "Keep it up." in
  let st :=
    run_evals digest (fresh_session "Sample")
      [("CSV timeout", Completion (Some (fenced (dumps (to_json e0)))))] in
  let run1 :=
    run_eval digest st "CSV timeout"
      (Completion (Some (fenced (dumps (to_json e1))))) in
  let run2 :=
    run_eval digest (final run1) "CSV timeout"
      (Completion (Some (fenced (dumps (to_json e2))))) in
  coaching_history (final run1) = [item_of "Sample" e0]
  /\ last_result (final run2) = Some (to_json e2)
  /\ ended run2 = Done
  /\ coaching_history (final run2) = [item_of "Sample" e0]
  /\ ~ In (item_of "Sample" e2) (coaching_history (final run2)).
Proof.
  vm_compute. repeat split. intros [H|[]]. discriminate H.
Qed.

Lemma empty_summary_is_not_logged_witness :
  let digest := fun text : string => text in
  let e2 :=
    Evaluation (Rating 5 "a") (Rating 5 "b") (Rating 5 "c") (Rating 5 "d")
      (Rating 5 "e") (Rating 5 "strong") (RootCause mixed "why" "Limits")
      "Keep it up." in
  let reply1 := Completion (Some "{}") in
  let reply2 := Completion (Some (fenced (dumps (to_json e2)))) in
  let st := run_evals digest (fresh_session "Sample") [] in
  let run1 := run_eval digest st "CSV timeout" reply1 in
  let run2 := run_eval digest (final run1) "CSV timeout" reply2 in
  coaching_history (final run1) = coaching_history st
  /\ coaching_keys (final run1) = coaching_keys st
  /\ summaries_nonempty st
  /\ summaries_nonempty (final run2)
  /\ coaching_history (final run2)
     = (if existsb (String.eqb "CSV timeout") (coaching_keys st)
        then coaching_history st
        else list_append (coaching_history st)
               (item_of (label_or_adhoc st) e2))
  /\ coaching_keys (final run2)
     = (if existsb (String.eqb "CSV timeout") (coaching_keys st)
        then coaching_keys st
        else list_append (coaching_keys st) "CSV timeout").
Proof.
  intros digest e2 reply1 reply2.
  apply (empty_summary_is_not_logged digest "Sample" [] "CSV timeout"
           reply1 reply2 [] (to_json e2)).
  - reflexivity.
  - reflexivity.
  - reflexivity.
  - reflexivity.
  - vm_compute. reflexivity.
  - unfold recordable. repeat split; try reflexivity;
      eexists; split; reflexivity.
Defined.

Lemma gateway_failure_leaves_session_witness :
  run_eval (fun text => text) (fresh_session "Sample") "CSV timeout"
    GatewayFails
  = {| final := fresh_session "Sample";
       ended := Raised TransportError;
       calls := [EvaluateCall "CSV timeout"] |}.
Proof.
  apply (gateway_failure_leaves_session (fun text => text)
           (fresh_session "Sample") "CSV timeout").
  reflexivity.
Defined.

End SessionSamples.

(** ** The gate of the KB draft *)

Section KbFacts.
Import PyStr Json Schema Evaluator Session.

Lemma kb_offer_evaluation (e : evaluation) :
  kb_offer (to_json e)
  = Ok (if nonempty (kb_article_suggestion (cause e))
           && documentation_gap (label (cause e))
        then Some (JStr (kb_article_suggestion (cause e)))
        else None).
Proof.
  unfold kb_offer, to_json. cbn -[nonempty].
  destruct (nonempty (kb_article_suggestion (cause e)));
    destruct (label (cause e)); reflexivity.
Qed.

(** C5: with a well-formed evaluation as the last result, step 2 calls the
    KB draft generator exactly when the button is pressed, the suggestion
    is not empty and the label is content_gap or mixed; so a call implies
    a suggestion that is not empty and one of these two labels, and there
    is no call for the label agent_performance. *)
Theorem kb_generator_gated (st : session) (clicked : bool)
  (reply : gateway_reply) (e : evaluation) :
  last_result st = Some (to_json e) ->
  calls (kb_step st clicked reply)
  = (if clicked && nonempty (kb_article_suggestion (cause e))
        && documentation_gap (label (cause e))
     then [KbDraftCall (last_ticket_text st)
             (JStr (kb_article_suggestion (cause e)))]
     else [])
  /\ (calls (kb_step st clicked reply) <> [] ->
      kb_article_suggestion (cause e) <> EmptyString
      /\ (label (cause e) = content_gap \/ label (cause e) = mixed))
  /\ (label (cause e) = agent_performance ->
      calls (kb_step st clicked reply) = []).
Proof.
  intros Hlast.
  assert (Hcalls :
    calls (kb_step st clicked reply)
    = (if clicked && nonempty (kb_article_suggestion (cause e))
          && documentation_gap (label (cause e))
       then [KbDraftCall (last_ticket_text st)
               (JStr (kb_article_suggestion (cause e)))]
       else [])).
  { unfold kb_step. rewrite Hlast, kb_offer_evaluation.
    destruct (nonempty (kb_article_suggestion (cause e)));
      destruct (documentation_gap (label (cause e)));
      destruct clicked; try reflexivity.
    cbn [andb]. destruct reply; reflexivity. }
  split; [exact Hcalls|]. rewrite Hcalls. split.
  - destruct clicked; [|intros H; now elim H].
    destruct (kb_article_suggestion (cause e)); [intros H; now elim H|].
    destruct (label (cause e)); cbn; intros H;
      try (now elim H); split; try discriminate; auto.
  - intros ->. now rewrite andb_false_r.
Qed.

Lemma kb_generator_gated_witness :
  let e :=
    Evaluation (Rating 2 "a") (Rating 3 "b") (Rating 2 "c") (Rating 1 "d")
      (Rating 4 "e") (Rating 2 "weak")
      (RootCause content_gap "no documented limits" "CSV import limits")
      "Point to the limits." in
  let st :=
    final (run_eval (fun text => text) (fresh_session "Sample") "CSV timeout"
             (Completion (Some (fenced (dumps (to_json e)))))) in
  calls (kb_step st true (Completion (Some "# CSV import limits")))
  = [KbDraftCall "CSV timeout" (JStr "CSV import limits")].
Proof.
  intros e st.
  refine (proj1 (kb_generator_gated st true
                   (Completion (Some "# CSV import limits")) e _)).
  vm_compute. reflexivity.
Defined.

End KbFacts.

(** ** The tally of root causes *)

Section TallyFacts.
Import PyStr Json Schema Evaluator Session.

Ltac eqb_to_eq :=
  repeat match goal with
         | H : String.eqb _ _ = true |- _ => apply String.eqb_eq in H; subst
         | H : Z.eqb _ _ = true |- _ => apply Z.eqb_eq in H; subst
         | H : Bool.eqb _ _ = true |- _ => apply eqb_prop in H; subst
         end.

Lemma key_eqb_sym (a b : json) : key_eqb a b = key_eqb b a.
Proof.
  destruct a, b; simpl; try reflexivity;
    auto using String.eqb_sym, Z.eqb_sym.
  destruct b, b0; reflexivity.
Qed.

(** Keys that are equal are equal to the same keys. *)
Lemma key_eqb_trans (a b c : json) :
  key_eqb a b = true -> key_eqb a c = key_eqb b c.
Proof.
  destruct a, b; simpl; intros H; try discriminate H; eqb_to_eq;
    try reflexivity;
    destruct c; simpl; try reflexivity;
    repeat match goal with b : bool |- _ => destruct b end;
    try reflexivity; try discriminate H; apply Z.eqb_sym.
Qed.

Lemma count_of_counter_add (k q : json) (c : counter) :
  count_of (counter_add k c) q
  = count_of c q + (if key_eqb k q then 1 else 0).
Proof.
  unfold count_of. induction c as [|[k' n] c IH]; cbn [counter_add counter_get].
  - destruct (key_eqb k q); reflexivity.
  - destruct (key_eqb k' k) eqn:Ek; cbn [counter_get].
    + rewrite <- (key_eqb_trans _ _ q Ek).
      destruct (key_eqb k' q); lia.
    + destruct (key_eqb k' q) eqn:Eq; [|exact IH].
      rewrite (key_eqb_sym k q), <- (key_eqb_trans _ _ k Eq), Ek. lia.
Qed.

Lemma count_of_fold (keys : list json) (q : json) :
  forall c,
    count_of (fold_left (fun c k => counter_add k c) keys c) q
    = count_of c q + List.length (filter (fun k => key_eqb k q) keys).
Proof.
  induction keys as [|k keys IH]; intros c; cbn [fold_left filter].
  - simpl. lia.
  - rewrite IH, count_of_counter_add.
    destruct (key_eqb k q); simpl; lia.
Qed.

Lemma occurrences_filter (k : json) (history : list item) :
  occurrences k history
  = List.length (filter (fun x => key_eqb x k) (map root_cause_of history)).
Proof.
  unfold occurrences. induction history as [|it history IH]; [reflexivity|].
  simpl. destruct (key_eqb (root_cause_of it) k); simpl; now rewrite IH.
Qed.

(** C4, as the code has it: the tally gives to each label the number of
    items whose root cause is that label, an item without the field being
    counted under "unknown"; a label outside the three of the schema is
    counted under its own name.  The example of the claim is the last
    part. *)
Theorem root_counts_tally (history : list item) :
  (forallb hashable (map root_cause_of history) = true ->
   exists c,
     root_counts history = Ok c
     /\ forall label, count_of c label = occurrences label history)
  /\ (forall it, lookup "root_cause" it = None ->
                 root_cause_of it = JStr "unknown")
  /\ (map root_cause_of history
      = [JStr "agent_performance"; JStr "content_gap"; JStr "content_gap";
         JStr "mixed"] ->
      root_counts history
      = Ok [(JStr "agent_performance", 1); (JStr "content_gap", 2);
            (JStr "mixed", 1)]).
Proof.
  split; [|split].
  - intros H. unfold root_counts, Counter. rewrite H.
    eexists. split; [reflexivity|].
    intros label. rewrite count_of_fold, occurrences_filter. reflexivity.
  - intros it H. unfold root_cause_of. now rewrite H.
  - intros H. unfold root_counts. rewrite H. reflexivity.
Qed.

Lemma root_counts_tally_witness :
  let history :=
    [coaching_item "t1" (JInt 2) (JStr "agent_performance") (JStr "a");
     coaching_item "t2" (JInt 3) (JStr "content_gap") (JStr "b");
     coaching_item "t3" (JInt 1) (JStr "content_gap") (JStr "c");
     coaching_item "t4" (JInt 4) (JStr "mixed") (JStr "d")] in
  (exists c,
     root_counts history = Ok c
     /\ forall label, count_of c label = occurrences label history)
  /\ root_counts history
     = Ok [(JStr "agent_performance", 1); (JStr "content_gap", 2);
           (JStr "mixed", 1)].
Proof.
  intros history. split.
  - apply (proj1 (root_counts_tally history)). reflexivity.
  - apply (proj2 (proj2 (root_counts_tally history))). reflexivity.
Defined.

(** C4 fails as stated: a label outside the three of the schema is not
    counted under "unknown"; it has a bucket of its own. *)
Lemma unrecognized_label_has_its_own_bucket :
  let history :=
    [coaching_item "t1" (JInt 2) (JStr "process_issue") (JStr "a")] in
  root_counts history = Ok [(JStr "process_issue", 1)]
  /\ count_of [(JStr "process_issue", 1)] (JStr "unknown") = 0
  /\ occurrences_by_the_words (JStr "unknown") history = 1.
Proof. repeat split. Qed.

End TallyFacts.


(** ** The decoding of other shapes of completions *)

Section CompletionFacts.
Import PyStr Json Schema Evaluator Format Completions.

Lemma lstrip_blank (w s : string) :
  blank w = true -> lstrip_by isspace (w ++ s) = lstrip_by isspace s.
Proof.
  induction w as [|c w IH]; simpl; intros H; [reflexivity|].
  apply andb_true_iff in H. destruct H as [Hc Hw]. rewrite Hc. auto.
Qed.

Lemma rstrip_blank (w : string) :
  blank w = true -> rstrip_by isspace w = EmptyString.
Proof.
  induction w as [|c w IH]; simpl; intros H; [reflexivity|].
  apply andb_true_iff in H. destruct H as [Hc Hw].
  now rewrite IH, Hc.
Qed.

Lemma strip_padded (before after : string) (c d : ascii) (s : string) :
  blank before = true -> blank after = true ->
  isspace c = false -> isspace d = false ->
  strip (before ++ String c (s ++ String d EmptyString) ++ after)
  = String c (s ++ String d EmptyString).
Proof.
  intros Hb Ha Hc Hd. unfold strip, strip_by.
  rewrite lstrip_blank by assumption. cbn [append lstrip_by]. rewrite Hc.
  change (String c ((s ++ String d EmptyString) ++ after))
    with ((String c s ++ String d EmptyString) ++ after).
  rewrite rstrip_by_app_dropped by now apply rstrip_blank.
  now apply rstrip_by_last_kept.
Qed.

(** The head of a stripped text is not whitespace. *)
Lemma rstrip_by_head (drop : ascii -> bool) (s : string) (c : ascii)
  (rest : string) :
  rstrip_by drop s = String c rest -> exists rest', s = String c rest'.
Proof.
  destruct s as [|a s]; simpl; [discriminate|].
  destruct (rstrip_by drop s); [destruct (drop a)|];
    intros H; inversion H; eauto.
Qed.

Lemma lstrip_by_head (drop : ascii -> bool) (s : string) (c : ascii)
  (rest : string) :
  lstrip_by drop s = String c rest -> drop c = false.
Proof.
  induction s as [|a s IH]; simpl; [discriminate|].
  destruct (drop a) eqn:E; [assumption|].
  intros H. inversion H. now subst.
Qed.

Lemma strip_head (s : string) (c : ascii) (rest : string) :
  strip s = String c rest -> isspace c = false.
Proof.
  unfold strip, strip_by. intros H.
  destruct (rstrip_by_head _ _ _ _ H) as (rest' & E).
  exact (lstrip_by_head _ _ _ _ E).
Qed.

Lemma json_ws_isspace (c : ascii) :
  isspace c = false -> is_json_ws c = false.
Proof.
  destruct c as [[] [] [] [] [] [] [] []]; vm_compute; congruence.
Qed.

(** The scanner reads back a plain dictionary whatever follows it. *)
Lemma scan_object_dumps (members : list (string * json)) :
  plain (JObj members) = true ->
  forall indent level d rest,
    depth (JObj members) <= d ->
    scan_value d (dumps_at indent level (JObj members) ++ rest)
    = Parsed (JObj members) rest.
Proof.
  intros Hplain indent level d rest Hd.
  destruct d as [|d]; [simpl in Hd; lia|].
  simpl in Hplain, Hd. apply le_S_n in Hd.
  apply andb_true_iff in Hplain. destruct Hplain as [Hkeys Hplain].
  destruct members as [|kv members]; [reflexivity|].
  rewrite dumps_object. cbn [scan_value].
  change (Ascii.eqb "{" quote) with false.
  change (Ascii.eqb "{" "{") with true. cbv iota.
  set (texts := map (member_text indent (S level)) (kv :: members)).
  assert (Hreads : Forall2 (reads_member (scan_value d)) texts
                     (kv :: members)).
  { unfold texts. apply max_depth_bound_members in Hd.
    rewrite forallb_forall in Hplain. rewrite Forall_forall in Hd.
    apply Forall2_map_left. intros y Hy.
    exists (dumps_at indent (S level) (snd y)).
    split; [reflexivity|]. split.
    - apply scan_value_dumps; auto.
    - apply dumps_starts_value. auto. }
  assert (Hstart : Forall starts_value texts).
  { clear - Hreads. induction Hreads; constructor;
      eauto using member_starts_value. }
  assert (Hjoin : starts_value
                    (join (item_separator indent (S level)) texts
                     ++ gap indent level ++ String "}" rest)).
  { apply starts_value_app, join_starts_value; [discriminate | assumption]. }
  rewrite skip_ws_gap, (skip_ws_starts_value _ Hjoin).
  destruct Hjoin as (c & t' & Hhead & _ & _ & _ & Hc).
  rewrite Hhead, Hc. rewrite <- Hhead.
  rewrite (scan_members_texts (scan_value d) indent (S level)
             (gap indent level) (skip_ws_gap indent level)
             (stops_number_gap indent level) texts (kv :: members));
    [ | discriminate | assumption | ].
  - cbn [and_then]. now rewrite dict_of_distinct_pairs.
  - etransitivity; [|apply (length_join_items _ texts _ _ Hstart)].
    apply Nat.le_refl.
Qed.

(** [json.loads] on a text that, after whitespace, is a plain dictionary
    followed by anything: the dictionary when only whitespace follows,
    "Extra data" otherwise. *)
Lemma loads_object_then (s : string) (members : list (string * json))
  (indent : option nat) (rest : string) :
  plain (JObj members) = true ->
  skip_ws s = dumps_at indent 0 (JObj members) ++ rest ->
  loads s
  = match skip_ws rest with
    | EmptyString => inl (JObj members)
    | String _ _ => inr ExtraData
    end.
Proof.
  intros Hplain Hs. unfold loads. rewrite Hs.
  rewrite scan_object_dumps; [reflexivity | assumption |].
  pose proof (depth_le_length indent (JObj members) 0) as Hd.
  pose proof (skip_ws_length s) as Hl. rewrite Hs, length_append in Hl.
  lia.
Qed.

Lemma lower_app (a b : string) : lower (a ++ b) = lower a ++ lower b.
Proof. induction a as [|c a IH]; simpl; [reflexivity | now rewrite IH]. Qed.

Lemma length_lower (a : string) : String.length (lower a) = String.length a.
Proof. induction a as [|c a IH]; simpl; [reflexivity | now rewrite IH]. Qed.

Lemma slice_from_app (a b : string) :
  slice_from (String.length a) (a ++ b) = b.
Proof. induction a as [|c a IH]; simpl; [now destruct b | assumption]. Qed.

Lemma fence_ends (middle : string) :
  fence_marker ++ middle ++ fence_marker
  = String backtick
      ((String backtick (String backtick middle)
        ++ String backtick (String backtick EmptyString))
       ++ String backtick EmptyString).
Proof.
  unfold fence_marker. cbn [append]. do 3 f_equal.
  rewrite append_assoc. reflexivity.
Qed.

(** Whitespace is stripped from neither end of a fenced text. *)
Lemma strip_fence (middle : string) :
  strip (fence_marker ++ middle ++ fence_marker)
  = fence_marker ++ middle ++ fence_marker.
Proof. rewrite fence_ends. now apply strip_kept_ends. Qed.

(** [strip("`")] takes the two fences off, and no more when the text
    between them neither starts nor ends with a backtick. *)
Lemma strip_backticks (a d : ascii) (s : string) :
  Ascii.eqb a backtick = false -> Ascii.eqb d backtick = false ->
  strip_chars (String backtick EmptyString)
    (fence_marker ++ String a (s ++ String d EmptyString) ++ fence_marker)
  = String a (s ++ String d EmptyString).
Proof.
  intros Ha Hd. unfold strip_chars, strip_by, fence_marker.
  cbn [append lstrip_by mem_char]. rewrite !Ascii.eqb_refl, Ha. cbn [orb].
  change (String a ((s ++ String d EmptyString) ++ ?t))
    with ((String a s ++ String d EmptyString) ++ t).
  rewrite rstrip_by_app_dropped.
  - apply rstrip_by_last_kept. cbn [mem_char]. now rewrite Hd.
  - cbn [rstrip_by mem_char]. now rewrite !Ascii.eqb_refl.
Qed.

(** A fence tagged "json", in any case of the letters, is taken off a
    text in braces. *)
Lemma strip_fences_tagged (tag body : string) :
  lower tag = "json" ->
  strip_fences (fenced_as tag (String "{" (body ++ "}")))
  = String "{" (body ++ "}").
Proof.
  intros Htag. set (text := String "{" (body ++ "}")).
  assert (Hlen : String.length tag = 4).
  { rewrite <- length_lower, Htag. reflexivity. }
  destruct tag as [|a tag]; [discriminate|].
  assert (Ha : Ascii.eqb a backtick = false).
  { destruct (Ascii.eqb_spec a backtick) as [->|]; [|reflexivity].
    discriminate Htag. }
  assert (Hmiddle :
    String a tag ++ nl ++ text ++ nl
    = String a ((tag ++ nl ++ text) ++ String newline EmptyString)).
  { cbn [append]. f_equal. now rewrite !append_assoc. }
  unfold strip_fences, fenced_as.
  replace (fence_marker ++ String a tag ++ nl ++ text ++ nl ++ fence_marker)
    with (fence_marker ++ (String a tag ++ nl ++ text ++ nl) ++ fence_marker)
    by now rewrite !append_assoc.
  rewrite strip_fence.
  replace (startswith (fence_marker ++ _) fence_marker) with true
    by (unfold fence_marker; cbn [append startswith];
        now rewrite !Ascii.eqb_refl).
  cbv iota.
  rewrite Hmiddle, strip_backticks by (assumption || reflexivity).
  rewrite <- Hmiddle, lower_app, Htag.
  change (startswith ("json" ++ _) "json") with true. cbv iota.
  change 4 with (String.length "json"). rewrite <- Htag.
  rewrite length_lower, slice_from_app.
  unfold text.
  apply (strip_padded nl nl "{" "}" body); reflexivity.
Qed.

(** Without a tag the line feeds after and before the fences stay. *)
Lemma strip_fences_untagged (body : string) :
  strip_fences (fenced_as EmptyString (String "{" (body ++ "}")))
  = nl ++ String "{" (body ++ "}") ++ nl.
Proof.
  set (text := String "{" (body ++ "}")).
  assert (Hmiddle :
    nl ++ text ++ nl = String newline (text ++ String newline EmptyString)).
  { reflexivity. }
  unfold strip_fences, fenced_as.
  replace (fence_marker ++ EmptyString ++ nl ++ text ++ nl ++ fence_marker)
    with (fence_marker ++ (nl ++ text ++ nl) ++ fence_marker)
    by (cbn [append]; now rewrite !append_assoc).
  rewrite strip_fence.
  replace (startswith (fence_marker ++ _) fence_marker) with true
    by (unfold fence_marker; cbn [append startswith];
        now rewrite !Ascii.eqb_refl).
  cbv iota.
  rewrite Hmiddle, strip_backticks by reflexivity.
  reflexivity.
Qed.

Lemma lstrip_split (drop : ascii -> bool) (s : string) :
  exists w, rstrip_by drop w = EmptyString /\ s = w ++ lstrip_by drop s.
Proof.
  induction s as [|a s (w & Hw & E)]; [now exists EmptyString|].
  simpl. destruct (drop a) eqn:Ha.
  - exists (String a w). simpl. rewrite Hw, Ha. split; [reflexivity|].
    now rewrite <- E.
  - now exists EmptyString.
Qed.

Lemma last_char_snoc (s : string) (c : ascii) :
  last_char s = Some c -> exists q, s = q ++ String c EmptyString.
Proof.
  induction s as [|a s IH]; [discriminate|].
  simpl. destruct s as [|b s].
  - intros H. inversion H. now exists EmptyString.
  - intros H. destruct (IH H) as (q & ->). now exists (String a q).
Qed.

Lemma rstrip_by_last (drop : ascii -> bool) (s q : string) (c : ascii) :
  rstrip_by drop s = q ++ String c EmptyString -> drop c = false.
Proof.
  revert q. induction s as [|a s IH]; intros q; simpl.
  - destruct q; discriminate.
  - destruct (rstrip_by drop s) as [|b r] eqn:E.
    + destruct (drop a) eqn:Ha; [destruct q; discriminate|].
      destruct q as [|x [|y q]]; simpl; intros H; inversion H.
      now subst.
    + destruct q as [|x q]; simpl; intros H; inversion H; subst.
      now apply (IH q).
Qed.

(** The text on the right of which whitespace is stripped ends as the
    stripped text does. *)
Lemma rstrip_of_strip (s : string) (c : ascii) :
  last_char (strip s) = Some c ->
  exists q,
    rstrip_by isspace s = q ++ String c EmptyString /\ isspace c = false.
Proof.
  unfold strip, strip_by. intros H.
  destruct (last_char_snoc _ _ H) as (q & Hq).
  destruct (lstrip_split isspace s) as (w & Hw & E).
  exists (w ++ q). rewrite E at 1. rewrite rstrip_by_app_kept.
  - rewrite Hq, append_assoc. split; [reflexivity|].
    exact (rstrip_by_last _ _ _ _ Hq).
  - rewrite Hq. destruct q; discriminate.
Qed.

(** X1: a completion that is the JSON text of a dictionary and nothing
    else, with any whitespace before and after it and no code fence, is
    decoded to that dictionary. *)
Theorem padded_object_is_decoded (members : list (string * json))
  (indent : option nat) (before after ticket_text : string) :
  plain (JObj members) = true ->
  blank before = true -> blank after = true ->
  evaluate_ticket ticket_text
    (Completion
       (Some (before ++ dumps_at indent 0 (JObj members) ++ after)))
  = Ok (JObj members).
Proof.
  intros Hplain Hb Ha. unfold evaluate_ticket, content_or_empty, decode.
  assert (E : strip_fences
                (before ++ dumps_at indent 0 (JObj members) ++ after)
              = dumps_at indent 0 (JObj members)).
  { destruct (dumps_object_braces indent members) as (body & ->).
    unfold strip_fences. rewrite strip_padded by (assumption || reflexivity).
    reflexivity. }
  now rewrite E, loads_dumps_at.
Qed.

Lemma padded_object_is_decoded_witness :
  evaluate_ticket "Subject: VPN"
    (Completion
       (Some (nl ++ " "
              ++ dumps_at (Some 2) 0
                   (JObj [("coaching_summary", JStr "Ask first.")])
              ++ " " ++ nl)))
  = Ok (JObj [("coaching_summary", JStr "Ask first.")]).
Proof.
  apply (padded_object_is_decoded
           [("coaching_summary", JStr "Ask first.")] (Some 2)
           (nl ++ " ") (" " ++ nl) "Subject: VPN");
    reflexivity.
Defined.

(** What the fences are taken off depends on the stripped text only. *)
Lemma strip_fences_padded (before after middle : string) :
  blank before = true -> blank after = true ->
  strip_fences
    (before ++ (fence_marker ++ middle ++ fence_marker) ++ after)
  = strip_fences (fence_marker ++ middle ++ fence_marker).
Proof.
  intros Hb Ha. unfold strip_fences.
  rewrite strip_fence, fence_ends.
  now rewrite strip_padded by (assumption || reflexivity).
Qed.

(** X2: the code fence around the JSON text of a dictionary is taken off
    when its tag is "json" in any case of the letters ("JSON", "Json")
    and when it has no tag at all, with any whitespace before the opening
    fence and after the closing one: the completion is decoded to the
    dictionary. *)
Theorem fence_tag_is_optional (members : list (string * json))
  (indent : option nat) (tag before after ticket_text : string) :
  plain (JObj members) = true ->
  tag = EmptyString \/ lower tag = "json" ->
  blank before = true -> blank after = true ->
  evaluate_ticket ticket_text
    (Completion
       (Some (before
              ++ fenced_as tag (dumps_at indent 0 (JObj members))
              ++ after)))
  = Ok (JObj members).
Proof.
  intros Hplain Htag Hb Ha.
  unfold evaluate_ticket, content_or_empty, decode.
  assert (Hpad :
    strip_fences
      (before ++ fenced_as tag (dumps_at indent 0 (JObj members)) ++ after)
    = strip_fences (fenced_as tag (dumps_at indent 0 (JObj members)))).
  { unfold fenced_as.
    replace (fence_marker ++ tag ++ nl ++ dumps_at indent 0 (JObj members)
             ++ nl ++ fence_marker)
      with (fence_marker
            ++ (tag ++ nl ++ dumps_at indent 0 (JObj members) ++ nl)
            ++ fence_marker)
      by now rewrite !append_assoc.
    now apply strip_fences_padded. }
  rewrite Hpad.
  destruct (dumps_object_braces indent members) as (body & E).
  destruct Htag as [->|Htag].
  - rewrite E, strip_fences_untagged, <- E.
    rewrite (loads_object_then _ members indent nl Hplain); [reflexivity|].
    cbn [nl append]. rewrite skip_ws_dropped by reflexivity.
    rewrite E. now apply skip_ws_kept.
  - rewrite E, strip_fences_tagged, <- E by assumption.
    now rewrite loads_dumps_at.
Qed.

Lemma fence_tag_is_optional_witness :
  evaluate_ticket "Subject: VPN"
    (Completion
       (Some (" "
              ++ fenced_as "JSON"
                   (dumps_at None 0
                      (JObj [("coaching_summary", JStr "Ask first.")]))
              ++ nl)))
  = Ok (JObj [("coaching_summary", JStr "Ask first.")])
  /\ evaluate_ticket "Subject: VPN"
       (Completion
          (Some (EmptyString
                 ++ fenced_as EmptyString
                      (dumps_at None 0
                         (JObj [("coaching_summary", JStr "Ask first.")]))
                 ++ EmptyString)))
     = Ok (JObj [("coaching_summary", JStr "Ask first.")]).
Proof.
  split.
  - apply (fence_tag_is_optional
             [("coaching_summary", JStr "Ask first.")] None "JSON"
             " " nl "Subject: VPN");
      [reflexivity | right; reflexivity | reflexivity | reflexivity].
  - apply (fence_tag_is_optional
             [("coaching_summary", JStr "Ask first.")] None EmptyString
             EmptyString EmptyString "Subject: VPN");
      [reflexivity | left; reflexivity | reflexivity | reflexivity].
Defined.

(** X3: a completion whose first character after whitespace can begin
    neither a JSON text nor a code fence - a completion that opens with a
    sentence, say - is a decode failure "Expecting value" that keeps the
    completion as received, whatever follows that character, valid JSON
    or a fenced block included. *)
Theorem prose_before_json_is_a_decode_failure (raw ticket_text : string)
  (c : ascii) (rest : string) :
  strip raw = String c rest ->
  may_open c = false ->
  evaluate_ticket ticket_text (Completion (Some raw))
  = Ok (parse_failure ExpectingValue raw).
Proof.
  intros Hraw Hopen. pose proof (strip_head _ _ _ Hraw) as Hspace.
  unfold evaluate_ticket, content_or_empty, decode, strip_fences.
  rewrite Hraw.
  destruct c as [[] [] [] [] [] [] [] []];
    try discriminate Hopen; try discriminate Hspace; reflexivity.
Qed.

Lemma prose_before_json_is_a_decode_failure_witness :
  evaluate_ticket "Subject: VPN"
    (Completion
       (Some ("Here is the evaluation: "
              ++ fenced
                   (dumps
                      (JObj [("coaching_summary", JStr "Ask first.")])))))
  = Ok (parse_failure ExpectingValue
          ("Here is the evaluation: "
           ++ fenced
                (dumps (JObj [("coaching_summary", JStr "Ask first.")])))).
Proof.
  eapply (prose_before_json_is_a_decode_failure _ "Subject: VPN" "H");
    reflexivity.
Defined.

(** X4: text after the closing fence keeps the fence from being taken
    off.  When a fenced JSON dictionary is followed by text that ends,
    whitespace apart, with a character other than a backtick, the
    completion is a decode failure "Extra data" that keeps the completion
    as received. *)
Theorem prose_after_fence_is_a_decode_failure
  (members : list (string * json)) (indent : option nat)
  (prose ticket_text : string) (c : ascii) :
  plain (JObj members) = true ->
  last_char (strip prose) = Some c ->
  Ascii.eqb c backtick = false ->
  evaluate_ticket ticket_text
    (Completion
       (Some (fenced (dumps_at indent 0 (JObj members)) ++ prose)))
  = Ok (parse_failure ExtraData
          (fenced (dumps_at indent 0 (JObj members)) ++ prose)).
Proof.
  intros Hplain Hlast Hc.
  destruct (rstrip_of_strip _ _ Hlast) as (q & Hq & Hspace).
  unfold evaluate_ticket, content_or_empty, decode. f_equal.
  destruct (dumps_object_braces indent members) as (body & E).
  set (text := dumps_at indent 0 (JObj members)) in *.
  set (tail := nl ++ fence_marker ++ q ++ String c EmptyString).
  assert (Hclean : strip_fences (fenced text ++ prose) = text ++ tail).
  { unfold strip_fences.
    assert (Hstrip :
      strip (fenced text ++ prose)
      = fence_marker ++ ("json" ++ nl ++ text ++ nl ++ fence_marker ++ q)
        ++ String c EmptyString).
    { unfold strip, strip_by.
      replace (lstrip_by isspace (fenced text ++ prose))
        with (fenced text ++ prose) by reflexivity.
      rewrite rstrip_by_app_kept, Hq by (rewrite Hq; destruct q; discriminate).
      unfold fenced. rewrite !append_assoc. reflexivity. }
    rewrite Hstrip.
    replace (startswith (fence_marker ++ _) fence_marker) with true
      by (unfold fence_marker; cbn [append startswith];
          now rewrite !Ascii.eqb_refl).
    cbv iota.
    assert (Hticks :
      strip_chars (String backtick EmptyString)
        (fence_marker ++ ("json" ++ nl ++ text ++ nl ++ fence_marker ++ q)
         ++ String c EmptyString)
      = "json" ++ nl ++ text ++ tail).
    { unfold strip_chars, strip_by.
      replace (lstrip_by _ (fence_marker ++ _))
        with (("json" ++ nl ++ text ++ nl ++ fence_marker ++ q)
              ++ String c EmptyString) by reflexivity.
      rewrite rstrip_by_last_kept by (cbn [mem_char]; now rewrite Hc).
      unfold tail. rewrite !append_assoc. reflexivity. }
    rewrite Hticks.
    change (startswith (lower ("json" ++ nl ++ text ++ tail)) "json")
      with true.
    cbv iota. change (slice_from 4 ("json" ++ nl ++ text ++ tail))
      with (nl ++ text ++ tail).
    rewrite E.
    replace (nl ++ String "{" (body ++ "}") ++ tail)
      with (nl
            ++ String "{"
                 ((body ++ "}" ++ nl ++ fence_marker ++ q)
                  ++ String c EmptyString)
            ++ EmptyString).
    - rewrite strip_padded by (assumption || reflexivity).
      unfold tail. cbn [append]. now rewrite !append_assoc.
    - unfold tail. cbn [append]. now rewrite append_nil_r, !append_assoc. }
  rewrite Hclean.
  rewrite (loads_object_then _ members indent tail Hplain).
  - unfold tail. cbn [nl append fence_marker].
    rewrite skip_ws_dropped, skip_ws_kept by reflexivity. reflexivity.
  - fold text. rewrite E.
    change (String "{" (body ++ "}") ++ tail)
      with (String "{" ((body ++ "}") ++ tail)).
    now apply skip_ws_kept.
Qed.

Lemma prose_after_fence_is_a_decode_failure_witness :
  evaluate_ticket "Subject: VPN"
    (Completion
       (Some (fenced
                (dumps_at None 0
                   (JObj [("coaching_summary", JStr "Ask first.")]))
              ++ " Hope this helps!")))
  = Ok (parse_failure ExtraData
          (fenced
             (dumps_at None 0
                (JObj [("coaching_summary", JStr "Ask first.")]))
           ++ " Hope this helps!")).
Proof.
  apply (prose_after_fence_is_a_decode_failure
           [("coaching_summary", JStr "Ask first.")] None
           " Hope this helps!" "Subject: VPN" "!");
    reflexivity.
Defined.

End CompletionFacts.

(** ** The normalised transcript and the evaluation handler *)

Section TranscriptFacts.
Import PyStr Json Evaluator Session Format Tickets Zendesk.

Variable sha256_hexdigest : string -> string.

Lemma blank_app (a b : string) : blank (a ++ b) = blank a && blank b.
Proof.
  induction a as [|c a IH]; simpl; [reflexivity|].
  now rewrite IH, andb_assoc.
Qed.

Lemma rstrip_by_kept_head (drop : ascii -> bool) (c : ascii) (s : string) :
  drop c = false -> rstrip_by drop (String c s) <> EmptyString.
Proof.
  intros H. simpl. destruct (rstrip_by drop s); [rewrite H|]; discriminate.
Qed.

(** A text is blank exactly when stripping leaves nothing of it. *)
Lemma nonempty_strip (s : string) : nonempty (strip s) = negb (blank s).
Proof.
  unfold strip, strip_by. induction s as [|c s IH]; [reflexivity|].
  cbn [lstrip_by blank]. destruct (isspace c) eqn:E; [exact IH|].
  pose proof (rstrip_by_kept_head isspace c s E) as H.
  destruct (rstrip_by isspace (String c s)); [congruence | reflexivity].
Qed.

Lemma blank_join_head (sep part : string) (parts : list string) :
  blank part = false -> blank (join sep (part :: parts)) = false.
Proof.
  intros H. cbn [join]. destruct parts; [assumption|].
  now rewrite blank_app, H.
Qed.

Lemma comment_block_not_blank (c : comment) :
  Forall (fun part => blank part = false) (comment_block c).
Proof.
  unfold comment_block.
  destruct (nonempty (strip (get (body c) EmptyString))); constructor;
    [|constructor].
  rewrite !blank_app. cbn [blank]. change (isspace ":") with false.
  cbn [andb]. apply andb_false_r.
Qed.

(** The parts of the transcript: there are some exactly when the ticket
    has content, and none of them is blank. *)
Lemma ticket_parts_content (p : payload) :
  (has_content p = false -> ticket_parts p = [])
  /\ (has_content p = true -> ticket_parts p <> [])
  /\ Forall (fun part => blank part = false) (ticket_parts p).
Proof.
  rewrite ticket_parts_blocks. unfold has_content, subject_block.
  assert (Hcs : forall cs,
            (existsb (fun c => nonempty (strip (get (body c) EmptyString)))
               cs = false -> flat_map comment_block cs = [])
            /\ (existsb (fun c => nonempty (strip (get (body c) EmptyString)))
                  cs = true -> flat_map comment_block cs <> [])).
  { induction cs as [|c cs [IH1 IH2]]; [split; [reflexivity|discriminate]|].
    cbn [existsb flat_map]. unfold comment_block at 1 3.
    destruct (nonempty (strip (get (body c) EmptyString))); cbn [orb app].
    - split; [discriminate|]. intros _. discriminate.
    - split; assumption. }
  destruct (Hcs (get (comments p) [])) as [H1 H2].
  destruct (nonempty (get (subject p) EmptyString)); cbn [orb app].
  - repeat split; try discriminate.
    constructor; [reflexivity|].
    apply Forall_flat_map. rewrite Forall_forall. intros c _.
    apply comment_block_not_blank.
  - repeat split; try assumption.
    apply Forall_flat_map. rewrite Forall_forall. intros c _.
    apply comment_block_not_blank.
Qed.

(** X5: the transcript of a Zendesk ticket is the empty string exactly
    when the ticket has neither a subject nor a comment with a body that
    is not blank; in every other case the transcript has a character that
    is not whitespace.  So the evaluation handler, given the transcript,
    warns and calls nothing for a ticket without content, and sends the
    transcript to the service for every other ticket. *)
Theorem transcript_is_evaluated_iff_content (p : payload) (st : session)
  (reply : gateway_reply) :
  (normalize_zendesk_ticket p = EmptyString <-> has_content p = false)
  /\ blank (normalize_zendesk_ticket p) = negb (has_content p)
  /\ calls (run_eval sha256_hexdigest st (normalize_zendesk_ticket p) reply)
     = if has_content p
       then [EvaluateCall (normalize_zendesk_ticket p)]
       else [].
Proof.
  destruct (ticket_parts_content p) as (Hnone & Hsome & Hparts).
  assert (Hblank :
    blank (normalize_zendesk_ticket p) = negb (has_content p)).
  { unfold normalize_zendesk_ticket.
    destruct (has_content p).
    - destruct (ticket_parts p) as [|part parts]; [now destruct Hsome|].
      apply blank_join_head. now inversion Hparts.
    - now rewrite Hnone. }
  split; [|split; [exact Hblank|]].
  - split; intros H.
    + rewrite H in Hblank. destruct (has_content p); [discriminate|].
      reflexivity.
    + unfold normalize_zendesk_ticket. now rewrite Hnone.
  - unfold run_eval. rewrite nonempty_strip, Hblank, negb_involutive.
    destruct (has_content p); [|reflexivity].
    destruct (evaluate_ticket _ reply); [|reflexivity].
    destruct (log_coaching _ _ _ _); reflexivity.
Qed.

End TranscriptFacts.

(** ** Evaluations, end to end *)

Section PipelineFacts.
Import PyStr Json Schema Evaluator Session.

Variable sha256_hexdigest : string -> string.

(** One evaluation of a text that is not blank and whose key is new,
    answered by a well-formed evaluation in a json fence. *)
Lemma run_eval_well_formed (st : session) (ticket_text : string)
  (e : evaluation) :
  nonempty (strip ticket_text) = true ->
  nonempty (coaching_summary e) = true ->
  existsb (String.eqb (sha256_hexdigest ticket_text)) (coaching_keys st)
  = false ->
  final
    (run_eval sha256_hexdigest st ticket_text
       (Completion (Some (fenced (dumps (to_json e))))))
  = {| last_result := Some (to_json e);
       last_ticket_text := ticket_text;
       kb_draft := EmptyString;
       coaching_history :=
         list_append (coaching_history st) (item_of (label_or_adhoc st) e);
       coaching_keys :=
         list_append (coaching_keys st) (sha256_hexdigest ticket_text);
       team_insights := EmptyString;
       current_ticket_label := current_ticket_label st |}.
Proof.
  intros Htext Hsummary Hnew. unfold run_eval. rewrite Htext.
  unfold evaluate_ticket, content_or_empty.
  destruct (decode_fenced_object None _
              (eq_refl : plain (to_json e) = true)) as [_ Hd].
  unfold dumps. unfold to_json in Hd |- *. rewrite Hd.
  fold (to_json e).
  rewrite (log_coaching_recordable sha256_hexdigest _ ticket_text (to_json e)
             (JInt (score (overall_rating e)))
             (JStr (label_name (label (cause e))))
             (JStr (coaching_summary e))).
  - cbn [coaching_keys]. rewrite Hnew. reflexivity.
  - apply evaluation_recordable. intros E. rewrite E in Hsummary.
    discriminate Hsummary.
Qed.

(** X6: tickets evaluated one after the other are recorded in that
    order.  When texts that are not blank, with pairwise distinct keys
    that are not yet in the session, are each answered by a well-formed
    evaluation in a json fence with a coaching summary that is not empty,
    the session gets one record for each, after those it had and in the
    order of the evaluations, with the score, the root-cause label and
    the summary of each evaluation, and one key for each. *)
Theorem evaluations_are_recorded_in_order
  (tickets : list (string * evaluation)) (st : session) :
  forallb
    (fun te =>
       nonempty (strip (fst te)) && nonempty (coaching_summary (snd te)))
    tickets = true ->
  distinct (map (fun te => sha256_hexdigest (fst te)) tickets) = true ->
  forallb
    (fun te =>
       negb (existsb (String.eqb (sha256_hexdigest (fst te)))
               (coaching_keys st)))
    tickets = true ->
  let reached :=
    run_evals sha256_hexdigest st
      (map
         (fun te =>
            (fst te, Completion (Some (fenced (dumps (to_json (snd te)))))))
         tickets) in
  coaching_history reached
  = (coaching_history st
     ++ map (fun te => item_of (label_or_adhoc st) (snd te)) tickets)%list
  /\ coaching_keys reached
     = (coaching_keys st
        ++ map (fun te => sha256_hexdigest (fst te)) tickets)%list.
Proof.
  revert st. induction tickets as [|[text e] tickets IH];
    intros st Hwell Hdistinct Hnew reached; subst reached.
  - cbn. now rewrite !List.app_nil_r.
  - cbn [forallb map fst snd distinct] in *.
    apply andb_true_iff in Hwell. destruct Hwell as [Hte Hwell].
    apply andb_true_iff in Hte. destruct Hte as [Htext Hsummary].
    apply andb_true_iff in Hdistinct. destruct Hdistinct as [Hk Hdistinct].
    apply andb_true_iff in Hnew. destruct Hnew as [Hunseen Hnew].
    apply negb_true_iff in Hunseen, Hk.
    unfold run_evals. cbn [fold_left fst snd].
    rewrite run_eval_well_formed by assumption.
    set (st1 := {| last_result := _ |}).
    specialize (IH st1 Hwell Hdistinct).
    unfold run_evals in IH. cbn zeta in IH.
    change (label_or_adhoc st1) with (label_or_adhoc st) in IH.
    destruct IH as [Hh Hkeys].
    + rewrite forallb_forall in Hnew |- *. intros te Hin.
      specialize (Hnew te Hin). apply negb_true_iff in Hnew.
      apply negb_true_iff. cbn [st1 coaching_keys]. unfold list_append.
      rewrite existsb_app, Hnew. cbn [existsb orb].
      rewrite orb_false_r. apply String.eqb_neq. intros E.
      assert (Hseen :
        existsb (String.eqb (sha256_hexdigest text))
          (map (fun te => sha256_hexdigest (fst te)) tickets) = true).
      { apply existsb_exists. exists (sha256_hexdigest (fst te)).
        split; [now apply (in_map (fun te => sha256_hexdigest (fst te)))|].
        rewrite E. apply String.eqb_refl. }
      congruence.
    + rewrite Hh, Hkeys. cbn [st1 coaching_history coaching_keys].
      unfold list_append. now rewrite <- !List.app_assoc.
Qed.

End PipelineFacts.

(** ** The page: what a run of the script may do *)

Section PageFacts.
Import PyStr Json Schema Evaluator Session Format Insights Display Page.

Variable sha256_hexdigest : string -> string.
Variable SAMPLE_TICKETS : list (string * string).
Variable em_dash : string.

#[local] Abbreviation rerun := (rerun sha256_hexdigest SAMPLE_TICKETS em_dash).
#[local] Abbreviation reruns :=
  (reruns sha256_hexdigest SAMPLE_TICKETS em_dash).
#[local] Abbreviation transition :=
  (transition sha256_hexdigest SAMPLE_TICKETS).
#[local] Abbreviation recorded := (recorded sha256_hexdigest).

Lemma log_coaching_recorded (st st' : session) (ticket_text : string)
  (result : json) :
  log_coaching sha256_hexdigest st ticket_text result = Ok st' ->
  recorded ticket_text st st'
  /\ last_result st' = last_result st
  /\ last_ticket_text st' = last_ticket_text st
  /\ kb_draft st' = kb_draft st
  /\ team_insights st' = team_insights st
  /\ current_ticket_label st' = current_ticket_label st.
Proof.
  unfold log_coaching, bind.
  destruct (contains_key "error" result) as [[]|]; try discriminate.
  { intros [= <-]. repeat split. now apply recorded_nothing. }
  destruct (get result "coaching_summary" _) as [coaching|]; try discriminate.
  destruct (get result "root_cause" _) as [root|]; try discriminate.
  destruct (get result "overall_rating" _) as [overall|]; try discriminate.
  destruct (get (or_else root _) "label" _) as [root_label|];
    try discriminate.
  destruct (get (or_else overall _) "score" _) as [overall_score|];
    try discriminate.
  destruct (truthy coaching) eqn:Hc.
  - destruct (existsb _ (coaching_keys st)) eqn:Hseen; intros [= <-].
    + repeat split. now apply recorded_nothing.
    + repeat split.
      eapply recorded_one; try reflexivity; [|exact Hc].
      now apply unseen_iff.
  - intros [= <-]. repeat split. now apply recorded_nothing.
Qed.

Lemma sample_choice_offered (position : nat) :
  sample_choice SAMPLE_TICKETS position = "None"
  \/ In (sample_choice SAMPLE_TICKETS position) (map fst SAMPLE_TICKETS).
Proof.
  unfold sample_choice.
  destruct (nth_in_or_default position ("None" :: map fst SAMPLE_TICKETS)
              "None") as [[H|H]|H]; auto.
Qed.

Lemma kb_step_unclicked (st : session) (reply : gateway_reply) :
  final (kb_step st false reply) = st /\ calls (kb_step st false reply) = [].
Proof.
  unfold kb_step. destruct (last_result st) as [result|]; [|now split].
  destruct (kb_offer result) as [[s|]|e]; now split.
Qed.

Lemma insights_step_unclicked (st : session) (reply : gateway_reply) :
  after (insights_step st false reply) = st
  /\ prompts (insights_step st false reply) = [].
Proof.
  unfold insights_step. destruct (coaching_history st); [now split|].
  destruct (root_counts _); now split.
Qed.

(** The step of the KB draft when its button is pressed. *)
Lemma kb_step_clicked (st : session) (reply : gateway_reply) :
  (final (kb_step st true reply) = st /\ calls (kb_step st true reply) = [])
  \/ exists result kb_suggestion,
       last_result st = Some result
       /\ kb_offer result = Ok (Some kb_suggestion)
       /\ calls (kb_step st true reply)
          = [KbDraftCall (last_ticket_text st) kb_suggestion]
       /\ ((reply = GatewayFails /\ final (kb_step st true reply) = st)
           \/ exists content,
                reply = Completion content
                /\ ended (kb_step st true reply) = Done
                /\ final (kb_step st true reply)
                   = {| last_result := last_result st;
                        last_ticket_text := last_ticket_text st;
                        kb_draft := content_or_empty content;
                        coaching_history := coaching_history st;
                        coaching_keys := coaching_keys st;
                        team_insights := team_insights st;
                        current_ticket_label := current_ticket_label st |}).
Proof.
  unfold kb_step. destruct (last_result st) as [result|]; [|now left].
  destruct (kb_offer result) as [[s|]|e] eqn:E; try (now left).
  right. exists result, s. split; [reflexivity|]. split; [exact E|].
  destruct reply as [|content]; (split; [reflexivity|]).
  - left. now split.
  - right. exists content. now repeat split.
Qed.

(** Step 3 when its button is pressed. *)
Lemma insights_step_clicked (st : session) (reply : gateway_reply) :
  (after (insights_step st true reply) = st
   /\ prompts (insights_step st true reply) = [])
  \/ exists block,
       coaching_history st <> []
       /\ coaching_block (coaching_history st) = Ok block
       /\ prompts (insights_step st true reply) = [insights_prompt block]
       /\ ((reply = GatewayFails /\ after (insights_step st true reply) = st)
           \/ exists content,
                reply = Completion content
                /\ ending (insights_step st true reply) = Done
                /\ after (insights_step st true reply)
                   = {| last_result := last_result st;
                        last_ticket_text := last_ticket_text st;
                        kb_draft := kb_draft st;
                        coaching_history := coaching_history st;
                        coaching_keys := coaching_keys st;
                        team_insights := content_or_empty content;
                        current_ticket_label := current_ticket_label st |}).
Proof.
  unfold insights_step.
  destruct (coaching_history st) as [|it history] eqn:Eh; [now left|].
  rewrite <- Eh. destruct (root_counts _); [|now left].
  unfold generate_team_insights, insights_prompts, bind.
  destruct (coaching_block (coaching_history st)) as [block|e];
    [|now left].
  right. exists block. split; [congruence|]. split; [reflexivity|].
  destruct reply as [|content]; (split; [reflexivity|]).
  - left. now split.
  - right. exists content. now repeat split.
Qed.

(** The evaluation handler when the service answers. *)
Lemma run_eval_answered (st : session) (ticket_text : string)
  (content : option string) :
  let r := run_eval sha256_hexdigest st ticket_text (Completion content) in
  (final r = st /\ calls r = [] /\ ended r = Warned)
  \/ (calls r = [EvaluateCall ticket_text]
      /\ last_result (final r) = Some (decode (content_or_empty content))
      /\ last_ticket_text (final r) = ticket_text
      /\ kb_draft (final r) = EmptyString
      /\ team_insights (final r) = EmptyString
      /\ current_ticket_label (final r) = current_ticket_label st
      /\ recorded ticket_text st (final r)).
Proof.
  unfold run_eval. destruct (nonempty (strip ticket_text)); [|now left].
  right. cbn [evaluate_ticket].
  destruct (log_coaching _ _ ticket_text _) as [st2|e] eqn:E.
  - apply log_coaching_recorded in E.
    destruct E as (Hrec & H1 & H2 & H3 & H4 & H5).
    cbn [final calls ended]. rewrite H1, H2, H3, H4, H5. cbn.
    repeat split.
    destruct Hrec as [Hk Hh | s r c Hnew Hc Hk Hh].
    + now apply recorded_nothing.
    + eapply recorded_one; eauto.
  - cbn. repeat split. now apply recorded_nothing.
Qed.

Lemma run_eval_unanswered (st : session) (ticket_text : string) :
  let r := run_eval sha256_hexdigest st ticket_text GatewayFails in
  final r = st
  /\ ((calls r = [] /\ ended r = Warned)
      \/ (calls r = [EvaluateCall ticket_text]
          /\ ended r = Raised TransportError)).
Proof.
  unfold run_eval. destruct (nonempty (strip ticket_text)); cbn; auto.
Qed.

Ltac kb_not_pressed st reply :=
  let Hf := fresh "Hf" in
  let Hc := fresh "Hc" in
  let kf := fresh "kf" in
  let ke := fresh "ke" in
  let kc := fresh "kc" in
  destruct (kb_step_unclicked st reply) as [Hf Hc];
  destruct (kb_step st false reply) as [kf ke kc];
  cbn [final calls ended] in *; subst kf kc.

Ltac insights_not_pressed st reply :=
  let Ha := fresh "Ha" in
  let Hq := fresh "Hq" in
  let ca := fresh "ca" in
  let ce := fresh "ce" in
  let cs := fresh "cs" in
  let cp := fresh "cp" in
  destruct (insights_step_unclicked st reply) as [Ha Hq];
  destruct (insights_step st false reply) as [ca ce cs cp];
  cbn [after prompts ending snapshot] in *; subst ca cp.

(** Every run of the script is one of the transitions. *)
Lemma rerun_transition (p : page) (i : interaction) :
  transition (state p)
    (match typed i with Some text => text | None => ticket_text p end) i
    (state (page_after (rerun p i))) (requests (rerun p i)).
Proof.
  unfold Page.rerun.
  set (edited := {| state := state p; ticket_text := _ |}).
  destruct (pressed i) eqn:Hp;
    cbn [load_pressed evaluate_pressed kb_pressed insights_pressed].
  - cbn [ended final calls].
    destruct (snd (render_result _ _)); [|apply nothing_stored].
    kb_not_pressed (state edited) (answer i).
    insights_not_pressed (state edited) (answer i).
    destruct ke; cbn; apply nothing_stored.
  - set (loaded := load_sample _ _ _).
    assert (Hl : transition (state p) (ticket_text edited) i
                   (state loaded) []).
    { unfold loaded, load_sample.
      destruct (sample_choice_offered (sample_position i)) as [->|Hin];
        [apply nothing_stored|].
      destruct (String.eqb _ "None"); [apply nothing_stored|].
      destruct (sample_text _ _) as [text|]; [|apply nothing_stored].
      now apply sample_loaded. }
    cbn [ended final calls].
    destruct (snd (render_result _ _)); [|exact Hl].
    kb_not_pressed (state loaded) (answer i).
    insights_not_pressed (state loaded) (answer i).
    destruct ke; cbn; exact Hl.
  - set (text := ticket_text edited).
    change (state edited) with (state p).
    destruct (answer i) as [|content] eqn:Ha.
    + destruct (run_eval_unanswered (state p) text)
        as (Hf & [[Hc He]|[Hc He]]);
        destruct (run_eval _ (state p) text GatewayFails) as [ef ee ec];
        cbn [final calls ended] in *; subst ef ee ec.
      * destruct (snd (render_result _ _)); [|apply nothing_stored].
        kb_not_pressed (state p) GatewayFails.
        insights_not_pressed (state p) GatewayFails.
        destruct ke; cbn; apply nothing_stored.
      * cbn. now apply evaluation_failed.
    + destruct (run_eval_answered (state p) text content)
        as [(Hf & Hc & He)|(Hc & H1 & H2 & H3 & H4 & H5 & H6)];
        destruct (run_eval _ (state p) text (Completion content))
          as [ef ee ec];
        cbn [final calls ended] in *.
      * subst ef ee ec.
        destruct (snd (render_result _ _)); [|apply nothing_stored].
        kb_not_pressed (state p) (Completion content).
        insights_not_pressed (state p) (Completion content).
        destruct ke; cbn; apply nothing_stored.
      * subst ec.
        assert (Ht : transition (state p) text i ef
                       [HandlerCall (EvaluateCall text)])
          by (eapply evaluation_stored; eassumption).
        destruct ee; [| |exact Ht];
          (destruct (snd (render_result _ _)); [|exact Ht]);
          kb_not_pressed ef (Completion content);
          insights_not_pressed ef (Completion content);
          destruct ke; cbn; exact Ht.
  - cbn [ended final calls]. change (state edited) with (state p).
    destruct (snd (render_result _ _)); [|apply nothing_stored].
    destruct (kb_step_clicked (state p) (answer i))
      as [[Hf Hc]|(result & s & Hr & Ho & Hc
                   & [[Ha Hf]|(content & Ha & He & Hf)])];
      destruct (kb_step (state p) true (answer i)) as [kf ke kc];
      cbn [final calls ended] in *; subst kc.
    + subst kf. insights_not_pressed (state p) (answer i).
      destruct ke; cbn; apply nothing_stored.
    + subst kf.
      assert (Ht : transition (state p) (ticket_text edited) i (state p)
                     [HandlerCall
                        (KbDraftCall (last_ticket_text (state p)) s)])
        by (eapply kb_draft_failed; eassumption).
      insights_not_pressed (state p) (answer i).
      destruct ke; cbn; exact Ht.
    + subst kf ke.
      insights_not_pressed
        {| last_result := last_result (state p);
           last_ticket_text := last_ticket_text (state p);
           kb_draft := content_or_empty content;
           coaching_history := coaching_history (state p);
           coaching_keys := coaching_keys (state p);
           team_insights := team_insights (state p);
           current_ticket_label := current_ticket_label (state p) |}
        (answer i).
      cbn. eapply kb_draft_stored; eassumption.
  - cbn [ended final calls]. change (state edited) with (state p).
    destruct (snd (render_result _ _)); [|apply nothing_stored].
    kb_not_pressed (state p) (answer i).
    destruct ke; [| |apply nothing_stored];
      (destruct (insights_step_clicked (state p) (answer i))
         as [[Hf Hq]|(block & Hne & Hb & Hq
                      & [[Ha Hf]|(content & Ha & He & Hf)])];
       destruct (insights_step (state p) true (answer i))
         as [ca ce cs cp];
       cbn [after prompts ending snapshot] in *; subst ca cp; cbn;
       [apply nothing_stored
       |eapply insights_failed; eassumption
       |eapply insights_stored; eassumption]).
Qed.

(** A property of the page and of the exchanges made so far that every
    run keeps holds after every sequence of interactions. *)
Lemma reruns_invariant (P : page -> list exchange -> Prop) :
  (forall p made i,
     P p made ->
     P (page_after (rerun p i))
       (made ++ map (fun q => (q, answer i)) (requests (rerun p i)))%list) ->
  forall interactions p,
    P p [] ->
    P (fst (reruns p interactions)) (snd (reruns p interactions)).
Proof.
  intros Hstep interactions p H0. unfold Page.reruns.
  match goal with |- context [fold_left ?f _ _] => set (step := f) end.
  assert (H : forall so_far,
            P (fst so_far) (snd so_far) ->
            P (fst (fold_left step interactions so_far))
              (snd (fold_left step interactions so_far))).
  { induction interactions as [|i interactions IH]; intros so_far H;
      [exact H|].
    cbn [fold_left]. apply IH. subst step. cbn [fst snd].
    now apply Hstep. }
  now apply H.
Qed.

Lemma answered_evaluations_app (a b : list exchange) :
  answered_evaluations (a ++ b)
  = answered_evaluations a + answered_evaluations b.
Proof.
  induction a as [|x a IH]; [reflexivity|].
  destruct x as [[[text|text s]|prompt] [|content]]; simpl;
    now rewrite ?IH.
Qed.

(** The history after a sequence of interactions is the history before,
    extended. *)
Lemma reruns_history (p : page) (interactions : list interaction) :
  exists items,
    coaching_history (state (fst (reruns p interactions)))
    = (coaching_history (state p) ++ items)%list.
Proof.
  apply (reruns_invariant
           (fun q _ =>
              exists items,
                coaching_history (state q)
                = (coaching_history (state p) ++ items)%list)).
  - intros q made i (items & Hh).
    destruct (rerun_transition q i)
      as [ | | |content st' Hp Ha H1 H2 H3 H4 H5 Hrec| | | | ];
      cbn [coaching_history]; try (now exists items).
    destruct Hrec as [Hk' Hh' | s r c Hnew Hc Hk' Hh']; rewrite Hh', Hh.
    + now exists items.
    + eexists. unfold list_append. now rewrite <- List.app_assoc.
  - exists []. now rewrite List.app_nil_r.
Qed.

(** X7: nothing the page does removes or rewrites a coaching record.
    After any sequence of interactions - evaluations, sample loads, KB
    drafts, team documents, in any order and whatever the service
    answers - the records and their keys are those there were before,
    in the same order, followed by the new ones; there are as many
    new keys as new records, and at most one for each evaluation request
    the service answered. *)
Theorem store_only_grows (p : page) (interactions : list interaction) :
  exists items keys,
    coaching_history (state (fst (reruns p interactions)))
    = (coaching_history (state p) ++ items)%list
    /\ coaching_keys (state (fst (reruns p interactions)))
       = (coaching_keys (state p) ++ keys)%list
    /\ List.length items = List.length keys
    /\ List.length items
       <= answered_evaluations (snd (reruns p interactions)).
Proof.
  apply (reruns_invariant
           (fun q made =>
              exists items keys,
                coaching_history (state q)
                = (coaching_history (state p) ++ items)%list
                /\ coaching_keys (state q)
                   = (coaching_keys (state p) ++ keys)%list
                /\ List.length items = List.length keys
                /\ List.length items <= answered_evaluations made)).
  - intros q made i (items & keys & Hh & Hk & Hl & Hn).
    rewrite answered_evaluations_app.
    destruct (rerun_transition q i)
      as [ | | |content st' Hp Ha H1 H2 H3 H4 H5 Hrec| | | | ];
      cbn [coaching_history coaching_keys map answered_evaluations];
      try (exists items, keys; repeat split; (assumption || lia)).
    rewrite Ha. cbn [answered_evaluations].
    destruct Hrec as [Hk' Hh' | s r c Hnew Hc Hk' Hh'];
      rewrite Hk', Hh', ?Hk, ?Hh.
    + exists items, keys. repeat split; (assumption || lia).
    + exists (items ++ [coaching_item (label_or_adhoc (state q)) s r c])%list,
        (keys
         ++ [sha256_hexdigest
               (match typed i with
                | Some text => text
                | None => ticket_text q
                end)])%list.
      unfold list_append. rewrite ?Hh, ?Hk, <- !List.app_assoc, !length_app.
      cbn [List.length]. repeat split; lia.
  - exists [], []. rewrite !List.app_nil_r. repeat split. simpl. lia.
Qed.

Lemma last_kb_draft_skip (made : list exchange) (q : request)
  (reply : gateway_reply) :
  (forall text s content,
     (q, reply) <> (HandlerCall (KbDraftCall text s), Completion content)) ->
  last_kb_draft (List.rev (made ++ [(q, reply)])%list) = last_kb_draft (List.rev made).
Proof.
  intros H. rewrite rev_app_distr. cbn [List.rev app last_kb_draft].
  destruct q as [[text|text s]|prompt]; try reflexivity.
  destruct reply as [|content]; [reflexivity|].
  now destruct (H text s content).
Qed.

Lemma last_insights_skip (made : list exchange) (q : request)
  (reply : gateway_reply) :
  (forall prompt content,
     (q, reply) <> (InsightsCall prompt, Completion content)) ->
  last_insights (List.rev (made ++ [(q, reply)])%list) = last_insights (List.rev made).
Proof.
  intros H. rewrite rev_app_distr. cbn [List.rev app last_insights].
  destruct q as [[text|text s]|prompt]; try reflexivity.
  destruct reply as [|content]; [reflexivity|].
  now destruct (H prompt content).
Qed.

(** X8: the label of a coaching record is always that of a sample.  In
    every session the page reaches from start-up, the current label is
    the label of the default example or a key of the sample table, and so
    is the label of every record: a ticket typed or pasted into the box
    is logged under the label of the sample loaded last, and the label
    "Ad-hoc ticket" of the handler is not used. *)
Theorem records_carry_a_sample_label (default_label default_example : string)
  (interactions : list interaction) :
  let known l := l = default_label \/ In l (map fst SAMPLE_TICKETS) in
  let st :=
    state
      (fst (reruns (fresh_page default_label default_example) interactions))
  in
  (exists l, current_ticket_label st = Some l /\ known l)
  /\ Forall
       (fun it => exists l, lookup "label" it = Some (JStr l) /\ known l)
       (coaching_history st).
Proof.
  intros known st. subst st.
  apply (reruns_invariant
           (fun q _ =>
              (exists l, current_ticket_label (state q) = Some l /\ known l)
              /\ Forall
                   (fun it =>
                      exists l, lookup "label" it = Some (JStr l) /\ known l)
                   (coaching_history (state q)))).
  - intros q made i [(l & Hl & Hk) Hall].
    destruct (rerun_transition q i)
      as [ |choice sample Hp Hin| |content st' Hp Ha H1 H2 H3 H4 H5 Hrec
         | | | | ];
      cbn [coaching_history current_ticket_label];
      try (split; [now exists l | assumption]).
    + split; [|assumption]. exists choice. split; [reflexivity|]. now right.
    + rewrite H5. split; [now exists l|].
      destruct Hrec as [Hk' Hh' | s r c Hnew Hc Hk' Hh']; rewrite Hh';
        [assumption|].
      apply Forall_app. split; [assumption|].
      constructor; [|constructor]. exists l. split; [|assumption].
      unfold label_or_adhoc. now rewrite Hl.
  - split; [|constructor]. exists default_label. split; [reflexivity|].
    now left.
Qed.

(** X9: the KB draft in the session is never stale.  In every session
    the page reaches from start-up, the draft is empty, or else the
    session holds a result that offers a KB article, and the draft is the
    text the service returned to the last answered draft request, which
    was made for the ticket text and the suggestion of that result. *)
Theorem kb_draft_belongs_to_the_result (default_label default_example : string)
  (interactions : list interaction) :
  let reached :=
    reruns (fresh_page default_label default_example) interactions in
  let st := state (fst reached) in
  kb_draft st = EmptyString
  \/ exists result kb_suggestion,
       last_result st = Some result
       /\ kb_offer result = Ok (Some kb_suggestion)
       /\ last_kb_draft (List.rev (snd reached))
          = Some (last_ticket_text st, kb_suggestion, kb_draft st).
Proof.
  intros reached st. subst st reached.
  apply (reruns_invariant
           (fun q made =>
              kb_draft (state q) = EmptyString
              \/ exists result kb_suggestion,
                   last_result (state q) = Some result
                   /\ kb_offer result = Ok (Some kb_suggestion)
                   /\ last_kb_draft (List.rev made)
                      = Some (last_ticket_text (state q), kb_suggestion,
                              kb_draft (state q)))).
  - intros q made i H.
    destruct (rerun_transition q i)
      as [ |choice sample Hp Hin|Hp Ha
         |content st' Hp Ha H1 H2 H3 H4 H5 Hrec
         |result s Hp Ha Hr Ho|result s content Hp Ha Hr Ho
         |block Hp Ha Hne Hb|block content Hp Ha Hne Hb];
      cbn [map kb_draft last_result last_ticket_text];
      rewrite ?List.app_nil_r; try assumption; try (now left).
    + rewrite last_kb_draft_skip by discriminate. assumption.
    + rewrite last_kb_draft_skip by (rewrite Ha; discriminate). assumption.
    + right. exists result, s. repeat split; try assumption.
      rewrite rev_app_distr, Ha. reflexivity.
    + rewrite last_kb_draft_skip by discriminate. assumption.
    + rewrite last_kb_draft_skip by discriminate. assumption.
  - now left.
Qed.

(** X10: the team-wide document in the session is never stale.  In every
    session the page reaches from start-up, the document is empty, or
    else it is the text the service returned to the last answered request
    for it, and the prompt of that request was built from the coaching
    records that are in the session now. *)
Theorem team_insights_belong_to_the_history
  (default_label default_example : string)
  (interactions : list interaction) :
  let reached :=
    reruns (fresh_page default_label default_example) interactions in
  let st := state (fst reached) in
  team_insights st = EmptyString
  \/ exists block,
       coaching_block (coaching_history st) = Ok block
       /\ last_insights (List.rev (snd reached))
          = Some (insights_prompt block, team_insights st).
Proof.
  intros reached st. subst st reached.
  apply (reruns_invariant
           (fun q made =>
              team_insights (state q) = EmptyString
              \/ exists block,
                   coaching_block (coaching_history (state q)) = Ok block
                   /\ last_insights (List.rev made)
                      = Some (insights_prompt block,
                              team_insights (state q)))).
  - intros q made i H.
    destruct (rerun_transition q i)
      as [ |choice sample Hp Hin|Hp Ha
         |content st' Hp Ha H1 H2 H3 H4 H5 Hrec
         |result s Hp Ha Hr Ho|result s content Hp Ha Hr Ho
         |block Hp Ha Hne Hb|block content Hp Ha Hne Hb];
      cbn [map team_insights coaching_history];
      rewrite ?List.app_nil_r; try assumption; try (now left).
    + rewrite last_insights_skip by discriminate. assumption.
    + rewrite last_insights_skip by discriminate. assumption.
    + rewrite last_insights_skip by discriminate. assumption.
    + rewrite last_insights_skip by (rewrite Ha; discriminate). assumption.
    + right. exists block. split; [assumption|].
      rewrite rev_app_distr, Ha. reflexivity.
  - now left.
Qed.

(** X11: a run of the script sends at most one request to the service,
    and only for the button that was pressed: none when no button or
    "Load selected sample" was pressed; for "Evaluate agent performance"
    none or one for the text in the ticket box; for the KB button none or
    one for the ticket text of the session; for the team document none or
    one whose prompt is built from the coaching records of the
    session. *)
Theorem one_request_per_run (p : page) (i : interaction) :
  match pressed i with
  | NoButton | LoadSample => requests (rerun p i) = []
  | EvaluateTicket =>
      requests (rerun p i) = []
      \/ requests (rerun p i)
         = [HandlerCall
              (EvaluateCall
                 (match typed i with
                  | Some text => text
                  | None => ticket_text p
                  end))]
  | GenerateKb =>
      requests (rerun p i) = []
      \/ exists result kb_suggestion,
           last_result (state p) = Some result
           /\ kb_offer result = Ok (Some kb_suggestion)
           /\ requests (rerun p i)
              = [HandlerCall
                   (KbDraftCall (last_ticket_text (state p)) kb_suggestion)]
  | GenerateInsights =>
      requests (rerun p i) = []
      \/ exists block,
           coaching_block (coaching_history (state p)) = Ok block
           /\ requests (rerun p i) = [InsightsCall (insights_prompt block)]
  end.
Proof.
  destruct (rerun_transition p i)
    as [ |choice sample Hp Hin|Hp Ha
       |content st' Hp Ha H1 H2 H3 H4 H5 Hrec
       |result s Hp Ha Hr Ho|result s content Hp Ha Hr Ho
       |block Hp Ha Hne Hb|block content Hp Ha Hne Hb];
    try rewrite Hp; try (destruct (pressed i)); eauto 6.
Qed.

(** X12: a failure of the service leaves the session as it was, whatever
    button was pressed to call it: the result, the ticket text, the KB
    draft, the team document, the label and the coaching records of the
    session are those before the run. *)
Theorem failed_request_changes_nothing (p : page) (i : interaction) :
  answer i = GatewayFails ->
  load_pressed (pressed i) = false ->
  state (page_after (rerun p i)) = state p.
Proof.
  intros Ha Hl.
  destruct (rerun_transition p i)
    as [ |choice sample Hp Hin|Hp _
       |content st' Hp Ha' H1 H2 H3 H4 H5 Hrec
       |result s Hp _ Hr Ho|result s content Hp Ha' Hr Ho
       |block Hp _ Hne Hb|block content Hp Ha' Hne Hb];
    try reflexivity; try congruence.
  rewrite Hp in Hl. discriminate Hl.
Qed.

(** A run in which "Load selected sample" is pressed. *)
Lemma rerun_load (p : page) (i : interaction) :
  pressed i = LoadSample ->
  page_after (rerun p i)
  = load_sample SAMPLE_TICKETS
      {| state := state p;
         ticket_text :=
           match typed i with Some text => text | None => ticket_text p end |}
      (sample_choice SAMPLE_TICKETS (sample_position i))
  /\ requests (rerun p i) = [].
Proof.
  intros Hp. unfold Page.rerun. rewrite Hp.
  cbn [load_pressed evaluate_pressed kb_pressed insights_pressed].
  set (loaded := load_sample _ _ _). cbn [ended final calls].
  destruct (snd (render_result _ _)); [|now destruct loaded].
  kb_not_pressed (state loaded) (answer i).
  insights_not_pressed (state loaded) (answer i).
  destruct ke; cbn; now destruct loaded.
Qed.

(** A run in which "Evaluate agent performance" is pressed. *)
Lemma rerun_evaluate (p : page) (i : interaction) :
  pressed i = EvaluateTicket ->
  let text :=
    match typed i with Some text => text | None => ticket_text p end in
  let r := run_eval sha256_hexdigest (state p) text (answer i) in
  page_after (rerun p i) = {| state := final r; ticket_text := text |}
  /\ requests (rerun p i) = map HandlerCall (calls r).
Proof.
  intros Hp text r. unfold Page.rerun. rewrite Hp.
  cbn [load_pressed evaluate_pressed kb_pressed insights_pressed
       state ticket_text].
  fold text. fold r.
  destruct (ended r); try (now split);
    (destruct (snd (render_result _ _)); [|now split]);
    kb_not_pressed (final r) (answer i);
    insights_not_pressed (final r) (answer i);
    destruct ke; cbn; rewrite ?List.app_nil_r; now split.
Qed.

(** X13: a sample that is loaded and evaluated is recorded under its
    label.  When a sample of the table is chosen and "Load selected
    sample" is pressed, the ticket box holds the text of the sample; when
    "Evaluate agent performance" is pressed next, the request is made for
    that text, and if the text is not blank, its key is new and the
    service answers with a well-formed evaluation in a json fence with a
    coaching summary that is not empty, the record added to the history is
    that of the evaluation under the label of the sample, and the
    evaluation is the result in the session. *)
Theorem loaded_sample_is_recorded_under_its_label (p : page)
  (position : nat) (text : string) (e : evaluation) :
  let label := sample_choice SAMPLE_TICKETS position in
  String.eqb label "None" = false ->
  sample_text SAMPLE_TICKETS label = Some text ->
  nonempty (strip text) = true ->
  nonempty (coaching_summary e) = true ->
  existsb (String.eqb (sha256_hexdigest text)) (coaching_keys (state p))
  = false ->
  let loaded :=
    page_after
      (rerun p
         {| typed := None; sample_position := position;
            pressed := LoadSample; answer := GatewayFails |}) in
  let evaluated :=
    rerun loaded
      {| typed := None; sample_position := position;
         pressed := EvaluateTicket;
         answer := Completion (Some (fenced (dumps (to_json e)))) |} in
  ticket_text loaded = text
  /\ requests evaluated = [HandlerCall (EvaluateCall text)]
  /\ last_result (state (page_after evaluated)) = Some (to_json e)
  /\ coaching_history (state (page_after evaluated))
     = list_append (coaching_history (state p)) (item_of label e).
Proof.
  intros label Hlabel Htext Hblank Hsummary Hnew loaded evaluated.
  assert (Hloaded :
    loaded
    = {| state :=
           {| last_result := None;
              last_ticket_text := text;
              kb_draft := EmptyString;
              coaching_history := coaching_history (state p);
              coaching_keys := coaching_keys (state p);
              team_insights := team_insights (state p);
              current_ticket_label := Some label |};
         ticket_text := text |}).
  { unfold loaded.
    rewrite (proj1 (rerun_load p
                      {| typed := None; sample_position := position;
                         pressed := LoadSample; answer := GatewayFails |}
                      eq_refl)).
    cbn [typed sample_position]. fold label. unfold load_sample.
    now rewrite Hlabel, Htext. }
  destruct (rerun_evaluate loaded
              {| typed := None; sample_position := position;
                 pressed := EvaluateTicket;
                 answer := Completion (Some (fenced (dumps (to_json e)))) |}
              eq_refl) as [Hafter Hrequests].
  fold evaluated in Hafter, Hrequests. cbn [typed answer] in Hafter, Hrequests.
  rewrite Hafter, Hrequests, Hloaded.
  cbn [state ticket_text].
  rewrite (run_eval_well_formed sha256_hexdigest _ text e Hblank Hsummary)
    by exact Hnew.
  cbn [last_result coaching_history].
  repeat split.
  unfold Session.run_eval. rewrite Hblank. cbn [evaluate_ticket].
  destruct (log_coaching _ _ _ _); reflexivity.
Qed.

End PageFacts.

(** ** Step 3: the pattern snapshot and the team-wide document *)

Section CanonFacts.
Import PyStr Json Schema Evaluator Session Format Insights Page.

Variable sha256_hexdigest : string -> string.
Variable SAMPLE_TICKETS : list (string * string).
Variable em_dash : string.

#[local] Abbreviation reruns :=
  (reruns sha256_hexdigest SAMPLE_TICKETS em_dash).

Lemma sum_values_counter_add (k : json) (c : counter) :
  sum_values (counter_add k c) = S (sum_values c).
Proof.
  induction c as [|[k' n] c IH]; [reflexivity|].
  cbn [counter_add]. destruct (key_eqb k' k); cbn [sum_values fold_right snd].
  - reflexivity.
  - fold (sum_values (counter_add k c)). rewrite IH.
    fold (sum_values c). lia.
Qed.

Lemma sum_values_fold (keys : list json) :
  forall c,
    sum_values (fold_left (fun c k => counter_add k c) keys c)
    = sum_values c + List.length keys.
Proof.
  induction keys as [|k keys IH]; intros c; cbn [fold_left List.length];
    [lia|].
  rewrite IH, sum_values_counter_add. lia.
Qed.

(** The tally of a history whose root causes are hashable. *)
Lemma root_counts_hashable (history : list item) :
  forallb hashable (map root_cause_of history) = true ->
  exists c,
    root_counts history = Ok c
    /\ sum_values c = List.length history
    /\ forall label, count_of c label = occurrences label history.
Proof.
  intros H. unfold root_counts, Counter. rewrite H.
  eexists. split; [reflexivity|]. split.
  - rewrite sum_values_fold, length_map. reflexivity.
  - intros label. rewrite count_of_fold, occurrences_filter. reflexivity.
Qed.

(** No item is counted under two labels that differ. *)
Lemma occurrences_disjoint (a b : json) (history : list item) :
  key_eqb a b = false ->
  occurrences a history + occurrences b history <= List.length history.
Proof.
  intros Hab. unfold occurrences.
  induction history as [|it history IH]; [apply Nat.le_refl|].
  cbn [filter]. destruct (key_eqb (root_cause_of it) a) eqn:Ea.
  - rewrite (key_eqb_trans _ _ b Ea), Hab. cbn [List.length]. lia.
  - destruct (key_eqb (root_cause_of it) b); cbn [List.length]; lia.
Qed.

(** X14: the share of content gaps shown under the ROI sandbox is a
    share.  For every history that is not empty and whose root causes
    are hashable, the caption is written; the total it divides by is the
    number of coaching records, the number it divides is that of the
    records whose root cause is "content_gap" or "mixed", and it is at
    most the total. *)
Theorem content_share_is_a_share (it : item) (history : list item) :
  forallb hashable (map root_cause_of (it :: history)) = true ->
  content_share_terms (it :: history)
  = Ok (Some (occurrences (JStr "content_gap") (it :: history)
              + occurrences (JStr "mixed") (it :: history),
              List.length (it :: history)))
  /\ occurrences (JStr "content_gap") (it :: history)
     + occurrences (JStr "mixed") (it :: history)
     <= List.length (it :: history).
Proof.
  intros H. destruct (root_counts_hashable _ H) as (c & Hc & Hsum & Hcount).
  split; [|now apply occurrences_disjoint].
  unfold content_share_terms, bind. rewrite Hc, Hsum, !Hcount.
  reflexivity.
Qed.

Lemma counted_count_of (c : counter) (k : json) :
  counted (counter_get c k) = Nat.ltb 0 (count_of c k).
Proof.
  unfold count_of. destruct (counter_get c k) as [[|n]|]; reflexivity.
Qed.

(** X15: the pattern snapshot has one bullet for each of the labels
    "agent_performance", "content_gap" and "mixed" that some record
    has, in this order, with the number of the records that have it;
    records with any other root cause, "unknown" included, are in no
    bullet, so a history of such records has an empty snapshot. *)
Theorem snapshot_counts_the_three_labels (st : session) (clicked : bool)
  (reply : gateway_reply) :
  forallb hashable (map root_cause_of (coaching_history st)) = true ->
  let bullet label text :=
    if Nat.ltb 0 (occurrences (JStr label) (coaching_history st))
    then [text (occurrences (JStr label) (coaching_history st))]
    else [] in
  snapshot (insights_step st clicked reply)
  = (bullet "agent_performance" agent_performance_bullet
     ++ bullet "content_gap" content_gap_bullet
     ++ bullet "mixed" mixed_bullet)%list.
Proof.
  intros H bullet. subst bullet. unfold insights_step.
  destruct (coaching_history st) as [|it history] eqn:Eh; [reflexivity|].
  destruct (root_counts_hashable _ H) as (c & Hc & _ & Hcount).
  rewrite Hc.
  assert (Hb : pattern_bullets c
               = ((if Nat.ltb 0 (occurrences (JStr "agent_performance")
                                   (it :: history))
                   then [agent_performance_bullet
                           (occurrences (JStr "agent_performance")
                              (it :: history))]
                   else [])
                  ++ (if Nat.ltb 0 (occurrences (JStr "content_gap")
                                      (it :: history))
                      then [content_gap_bullet
                              (occurrences (JStr "content_gap")
                                 (it :: history))]
                      else [])
                  ++ (if Nat.ltb 0 (occurrences (JStr "mixed")
                                      (it :: history))
                      then [mixed_bullet
                              (occurrences (JStr "mixed") (it :: history))]
                      else []))%list).
  { unfold pattern_bullets, bullet_for.
    now rewrite !counted_count_of, !Hcount. }
  destruct clicked; [|exact Hb].
  destruct (generate_team_insights _ reply); exact Hb.
Qed.

Lemma forallb_false_app {A : Type} (f : A -> bool) (l more : list A) :
  forallb f l = false -> forallb f (l ++ more)%list = false.
Proof. intros H. now rewrite forallb_app, H. Qed.

(** X16: a coaching record whose root cause is a list or a dictionary
    stops step 3 for the rest of the session.  From a session that holds
    such a record, after any further interactions, step 3 raises
    TypeError when it tallies the root causes: no snapshot is shown, no
    request is made whether or not the button is pressed, the session is
    left as it is, and the tally under the ROI sandbox raises as well. *)
Theorem unhashable_root_cause_stops_step_3 (p : page)
  (interactions : list interaction) (clicked : bool)
  (reply : gateway_reply) :
  forallb hashable (map root_cause_of (coaching_history (state p))) = false ->
  let st := state (fst (reruns p interactions)) in
  insights_step st clicked reply
  = {| after := st; ending := Raised TypeError; snapshot := [];
       prompts := [] |}
  /\ content_share_terms (coaching_history st) = Raise TypeError.
Proof.
  intros H st.
  destruct (reruns_history sha256_hexdigest SAMPLE_TICKETS em_dash p
              interactions) as (items & Hh).
  fold st in Hh.
  assert (H' : forallb hashable (map root_cause_of (coaching_history st))
               = false).
  { rewrite Hh, map_app. now apply forallb_false_app. }
  unfold insights_step, content_share_terms, root_counts, Counter, bind.
  rewrite H'.
  destruct (coaching_history st); [discriminate H'|]. now split.
Qed.

Lemma coaching_lines_text (history : list item) :
  forallb summary_is_text history = true ->
  exists lines, coaching_lines history = Ok lines.
Proof.
  induction history as [|it history IH]; [now exists []|].
  cbn [forallb coaching_lines]. intros H. apply andb_true_iff in H.
  destruct H as [Hit H]. destruct (IH H) as (lines & ->).
  unfold item_lines, summary_is_text in *.
  destruct (item_get it "coaching_summary" _); try discriminate Hit.
  eexists. reflexivity.
Qed.

Lemma coaching_lines_not_text (history : list item) :
  forallb summary_is_text history = false ->
  coaching_lines history = Raise AttributeError.
Proof.
  induction history as [|it history IH]; [discriminate|].
  cbn [forallb coaching_lines]. intros H.
  unfold item_lines, summary_is_text in *.
  destruct (item_get it "coaching_summary" _) eqn:E; try reflexivity.
  cbn [andb] in H. cbn. now rewrite (IH H).
Qed.

(** X17: the team-wide document is asked for exactly when every record
    has a text for coaching summary.  If every summary in the history is
    a string (or absent), the request is made and the answer of the
    service is returned, the empty string for an answer without content;
    if some summary is not a string - a list of coaching points, say -
    AttributeError is raised before any request is made. *)
Theorem team_document_needs_text_summaries (history : list item)
  (content : option string) (reply : gateway_reply) :
  if forallb summary_is_text history
  then
    generate_team_insights history (Completion content)
    = Ok (content_or_empty content)
    /\ generate_team_insights history GatewayFails = Raise TransportError
    /\ exists block,
         coaching_block history = Ok block
         /\ insights_prompts history = [insights_prompt block]
  else
    generate_team_insights history reply = Raise AttributeError
    /\ insights_prompts history = [].
Proof.
  destruct (forallb summary_is_text history) eqn:H.
  - destruct (coaching_lines_text _ H) as (lines & Hl).
    unfold generate_team_insights, insights_prompts, coaching_block, bind.
    rewrite Hl. repeat split. eexists. split; reflexivity.
  - unfold generate_team_insights, insights_prompts, coaching_block, bind.
    rewrite (coaching_lines_not_text _ H). now split.
Qed.

(** X18: a coaching record whose summary is not a string stops the
    team-wide document for the rest of the session.  From a session that
    holds such a record, after any further interactions, building the
    document raises AttributeError and no request is made. *)
Theorem non_text_summary_stops_the_team_document (p : page)
  (interactions : list interaction) (reply : gateway_reply) :
  forallb summary_is_text (coaching_history (state p)) = false ->
  let history := coaching_history (state (fst (reruns p interactions))) in
  generate_team_insights history reply = Raise AttributeError
  /\ insights_prompts history = [].
Proof.
  intros H history.
  destruct (reruns_history sha256_hexdigest SAMPLE_TICKETS em_dash p
              interactions) as (items & Hh).
  fold history in Hh.
  assert (H' : forallb summary_is_text history = false).
  { rewrite Hh. now apply forallb_false_app. }
  unfold generate_team_insights, insights_prompts, coaching_block, bind.
  rewrite (coaching_lines_not_text _ H'). now split.
Qed.

(** X19: what the prompt of the team-wide document says of well-formed
    evaluations.  For records made from evaluations of the schema, the
    block of the prompt has, for each record and in the order of the
    history, the label of the ticket, the root-cause label, the overall
    score in decimal and the coaching summary without the whitespace
    around it, and these are joined by empty lines. *)
Theorem team_prompt_lists_the_records
  (records : list (string * evaluation)) :
  coaching_block (map (fun le => item_of (fst le) (snd le)) records)
  = Ok (join (nl ++ nl)
          (map
             (fun le =>
                "- Ticket: " ++ fst le ++ nl
                ++ "  - Root cause: "
                ++ label_name (label (cause (snd le))) ++ nl
                ++ "  - Overall score: "
                ++ string_of_Z (score (overall_rating (snd le))) ++ nl
                ++ "  - Coaching summary:" ++ nl
                ++ "    " ++ strip (coaching_summary (snd le)) ++ nl)
             records)).
Proof.
  unfold coaching_block.
  assert (H : coaching_lines
                (map (fun le => item_of (fst le) (snd le)) records)
              = Ok (map
                      (fun le =>
                         "- Ticket: " ++ fst le ++ nl
                         ++ "  - Root cause: "
                         ++ label_name (label (cause (snd le))) ++ nl
                         ++ "  - Overall score: "
                         ++ string_of_Z (score (overall_rating (snd le)))
                         ++ nl
                         ++ "  - Coaching summary:" ++ nl
                         ++ "    " ++ strip (coaching_summary (snd le))
                         ++ nl)
                      records)).
  { induction records as [|[l e] records IH]; [reflexivity|].
    cbn [map coaching_lines fst snd]. rewrite IH. reflexivity. }
  now rewrite H.
Qed.

End CanonFacts.

(** ** The display of the result *)

Section DisplayFacts.
Import PyStr Json Schema Evaluator Session Format Insights Display Page.

Variable sha256_hexdigest : string -> string.
Variable SAMPLE_TICKETS : list (string * string).
Variable em_dash : string.

#[local] Abbreviation rerun := (rerun sha256_hexdigest SAMPLE_TICKETS em_dash).
#[local] Abbreviation render_result := (render_result em_dash).

(** X20: what the page shows for a well-formed evaluation.  The display
    raises nothing and shows, in this order: the overall score as
    "**Score:** n / 5" and its justification if there is one; one bullet
    for each of the five criteria, in the order of the schema, under its
    name in title case with spaces for underscores, with its score and
    its justification; the root-cause label, with the explanation and the
    KB suggestion when they are not empty; the coaching summary, or a
    fixed sentence when it is empty. *)
Theorem well_formed_evaluation_is_displayed (e : evaluation) :
  let bullet name r :=
    "- **" ++ name ++ "** " ++ em_dash ++ " " ++ string_of_Z (score r)
    ++ "/5" ++ nl ++ "  " ++ justification r in
  let written text :=
    if nonempty text then [Written (JStr text)] else [] in
  render_result (Some (to_json e))
  = (([Markdown "### Overall rating";
       Markdown
         ("**Score:** " ++ string_of_Z (score (overall_rating e)) ++ " / 5")]
      ++ written (justification (overall_rating e))
      ++ [Markdown "### Criteria breakdown";
          Markdown
            (join nl
               [bullet "Technical Accuracy" (technical_accuracy e);
                bullet "Clarity And Tone" (clarity_and_tone e);
                bullet "Diagnostic Depth" (diagnostic_depth e);
                bullet "Ownership And Follow Through"
                  (ownership_and_follow_through e);
                bullet "Escalation Judgment" (escalation_judgment e)]);
          Markdown "### Root cause analysis";
          Markdown
            ("**Primary label:** `" ++ label_name (label (cause e)) ++ "`")]
      ++ written (explanation (cause e))
      ++ (if nonempty (kb_article_suggestion (cause e))
          then [Markdown "**KB opportunity (short idea):**";
                Written (JStr (kb_article_suggestion (cause e)))]
          else [])
      ++ [Markdown "### Coaching summary (for team lead)";
          Written
            (JStr (or_str (coaching_summary e)
                     "No coaching summary returned."))])%list,
     Ok tt).
Proof.
  intros bullet written. subst bullet written.
  destruct e as [ta ct dd ow ej [s j] [l ex kb] cs].
  cbn [overall_rating cause justification score label explanation
       kb_article_suggestion coaching_summary technical_accuracy
       clarity_and_tone diagnostic_depth ownership_and_follow_through
       escalation_judgment].
  destruct j, ex, kb, cs; reflexivity.
Qed.









End DisplayFacts.

(** ** The raw result in the appendix, and results that are not
    dictionaries *)

Section RawResultFacts.
Import PyStr Json Schema Evaluator Session Format Display.

Variable sha256_hexdigest : string -> string.
Variable em_dash : string.

(** X22: a completion that could not be decoded, on the page.  For
    every completion that is not valid JSON after the fences are taken
    off, the display of the result shows the error message of the parser
    as an error and nothing else, step 2 offers no KB draft, and the
    expander of the raw result shows the sentence "Last call returned an
    error:" and then the completion itself, character for character;
    none of the three raises. *)
Theorem decode_failure_on_the_page (raw : string) (e : json_error) :
  loads (strip_fences raw) = inr e ->
  render_result em_dash (Some (decode raw))
  = ([Error
        (JStr ("Failed to parse model output as JSON: " ++ describe e))],
     Ok tt)
  /\ kb_offer (decode raw) = Ok None
  /\ raw_json_expander (Some (decode raw))
     = ([Written (JStr "Last call returned an error:"); Code (JStr raw)],
        Ok tt).
Proof. intros H. unfold decode. rewrite H. repeat split. Qed.

(** X23: for a result that was decoded, the appendix shows a JSON text
    that reads back as the result.  For every dictionary without floats
    and with distinct keys that is not empty and has no key "error", the
    expander shows one block of code, and [json.loads] of its text is the
    dictionary. *)
Theorem appendix_text_reads_back (members : list (string * json)) :
  plain (JObj members) = true ->
  truthy (JObj members) = true ->
  lookup "error" members = None ->
  exists text,
    raw_json_expander (Some (JObj members)) = ([Code (JStr text)], Ok tt)
    /\ loads text = inl (JObj members).
Proof.
  intros Hplain Htruthy Herr. exists (dumps_at (Some 2) 0 (JObj members)).
  split; [|now apply loads_dumps_at].
  unfold raw_json_expander. rewrite Htruthy.
  unfold and_show. cbn [call snd fst contains_key]. rewrite Herr.
  reflexivity.
Qed.

(** X24: a completion that is valid JSON and not an object is stored and
    never logged.  When the completion decodes to a value that is not a
    dictionary, the handler stores it as the last result, clears the KB
    draft and the team document, and logs no record; it raises TypeError
    for null, a boolean or a number, ends normally for a string or a list
    that contains "error", and raises AttributeError for any other string
    or list.  The display of the stored value raises as well, unless the
    value is null. *)
Theorem non_object_result_is_stored_and_not_logged (st : session)
  (ticket_text : string) (content : option string) (v : json) :
  nonempty (strip ticket_text) = true ->
  decode (content_or_empty content) = v ->
  is_dict v = false ->
  let r := run_eval sha256_hexdigest st ticket_text (Completion content) in
  final r
  = {| last_result := Some v;
       last_ticket_text := ticket_text;
       kb_draft := EmptyString;
       coaching_history := coaching_history st;
       coaching_keys := coaching_keys st;
       team_insights := EmptyString;
       current_ticket_label := current_ticket_label st |}
  /\ ended r
     = match contains_key "error" v with
       | Raise e => Raised e
       | Ok true => Done
       | Ok false => Raised AttributeError
       end
  /\ snd (render_result em_dash (Some v))
     = match v with
       | JNull => Ok tt
       | _ =>
           match contains_key "error" v with
           | Ok false => Raise AttributeError
           | _ => Raise TypeError
           end
       end.
Proof.
  intros Htext Hdecode Hdict r. subst r. unfold run_eval.
  rewrite Htext. cbn [evaluate_ticket]. rewrite Hdecode.
  unfold log_coaching, bind.
  destruct v as [ |b|z|literal|s|items|members]; try discriminate Hdict;
    cbn [contains_key];
    try (repeat split; reflexivity).
  - destruct (contains "error" s) eqn:E.
    + repeat split. unfold render_result, and_show.
      cbn [call snd fst error_entry contains_key bind]. now rewrite E.
    + repeat split. unfold render_result, and_show.
      cbn [call snd fst error_entry contains_key bind]. now rewrite E.
  - destruct (existsb _ items) eqn:E.
    + repeat split. unfold render_result, and_show.
      cbn [call snd fst error_entry contains_key bind]. now rewrite E.
    + repeat split. unfold render_result, and_show.
      cbn [call snd fst error_entry contains_key bind]. now rewrite E.
Qed.

End RawResultFacts.

(** ** Instances *)

Section PageSamples.
Import PyStr Json Schema Evaluator Session Format Insights Display Page.

Lemma failed_request_changes_nothing_witness :
  let digest := fun text : string => text in
  let samples := [("Sample A", "Subject: Printer")] in
  let p := fresh_page "Default" "Subject: VPN" in
  let i :=
    {| typed := Some "Subject: Billing";
       sample_position := 0;
       pressed := EvaluateTicket;
       answer := GatewayFails |} in
  state (page_after (rerun digest samples "-" p i)) = state p.
Proof.
  intros digest samples p i.
  apply (failed_request_changes_nothing digest samples "-" p i);
    reflexivity.
Defined.

Lemma loaded_sample_is_recorded_under_its_label_witness :
  let digest := fun text : string => text in
  let samples := [("Sample A", "Subject: Printer")] in
  let e :=
    Evaluation (Rating 2 "a") (Rating 3 "b") (Rating 2 "c") (Rating 1 "d")
      (Rating 4 "e") (Rating 2 "weak")
      (RootCause agent_performance "why" EmptyString)
      "Read the earlier ticket first." in
  let p := fresh_page "Default" "Subject: VPN" in
  let loaded :=
    page_after
      (rerun digest samples "-" p
         {| typed := None; sample_position := 1;
            pressed := LoadSample; answer := GatewayFails |}) in
  let evaluated :=
    rerun digest samples "-" loaded
      {| typed := None; sample_position := 1;
         pressed := EvaluateTicket;
         answer := Completion (Some (fenced (dumps (to_json e)))) |} in
  ticket_text loaded = "Subject: Printer"
  /\ requests evaluated = [HandlerCall (EvaluateCall "Subject: Printer")]
  /\ last_result (state (page_after evaluated)) = Some (to_json e)
  /\ coaching_history (state (page_after evaluated))
     = list_append (coaching_history (state p)) (item_of "Sample A" e).
Proof.
  intros digest samples e p.
  apply (loaded_sample_is_recorded_under_its_label digest samples "-" p 1
           "Subject: Printer" e);
    reflexivity.
Defined.

Lemma evaluations_are_recorded_in_order_witness :
  let digest := fun text : string => text in
  let e1 :=
    Evaluation (Rating 2 "a") (Rating 3 "b") (Rating 2 "c") (Rating 1 "d")
      (Rating 4 "e") (Rating 2 "weak")
      (RootCause agent_performance "why" EmptyString)
      "Read the earlier ticket first." in
  let e2 :=
    Evaluation (Rating 4 "a") (Rating 4 "b") (Rating 3 "c") (Rating 4 "d")
      (Rating 4 "e") (Rating 4 "good")
      (RootCause content_gap "no article" "API limits")
      "Point to the limits page." in
  let tickets := [("Same billing issue", e1); ("API limits", e2)] in
  let st := fresh_session "Default" in
  let reached :=
    run_evals digest st
      (map
         (fun te =>
            (fst te, Completion (Some (fenced (dumps (to_json (snd te)))))))
         tickets) in
  coaching_history reached
  = (coaching_history st
     ++ map (fun te => item_of (label_or_adhoc st) (snd te)) tickets)%list
  /\ coaching_keys reached
     = (coaching_keys st ++ map (fun te => digest (fst te)) tickets)%list.
Proof.
  intros digest e1 e2 tickets st.
  apply (evaluations_are_recorded_in_order digest tickets st);
    vm_compute; reflexivity.
Defined.

Lemma content_share_is_a_share_witness :
  let it := coaching_item "t1" (JInt 2) (JStr "content_gap") (JStr "a") in
  let history :=
    [coaching_item "t2" (JInt 3) (JStr "agent_performance") (JStr "b");
     coaching_item "t3" (JInt 4) (JStr "mixed") (JStr "c")] in
  content_share_terms (it :: history)
  = Ok (Some (occurrences (JStr "content_gap") (it :: history)
              + occurrences (JStr "mixed") (it :: history),
              List.length (it :: history)))
  /\ occurrences (JStr "content_gap") (it :: history)
     + occurrences (JStr "mixed") (it :: history)
     <= List.length (it :: history).
Proof.
  intros it history.
  apply (content_share_is_a_share it history). reflexivity.
Defined.

Lemma snapshot_counts_the_three_labels_witness :
  let st :=
    {| last_result := None;
       last_ticket_text := EmptyString;
       kb_draft := EmptyString;
       coaching_history :=
         [coaching_item "t1" (JInt 2) (JStr "content_gap") (JStr "a");
          coaching_item "t2" (JInt 3) (JStr "unknown") (JStr "b");
          coaching_item "t3" (JInt 4) (JStr "content_gap") (JStr "c")];
       coaching_keys := ["t1"; "t2"; "t3"];
       team_insights := EmptyString;
       current_ticket_label := Some "Default" |} in
  snapshot (insights_step st false GatewayFails)
  = [content_gap_bullet 2].
Proof.
  intros st.
  apply (snapshot_counts_the_three_labels st false GatewayFails).
  reflexivity.
Defined.

Lemma unhashable_root_cause_stops_step_3_witness :
  let digest := fun text : string => text in
  let samples := [("Sample A", "Subject: Printer")] in
  let completion :=
    dumps
      (JObj [("coaching_summary", JStr "Ask first.");
             ("root_cause",
              JObj [("label", JArr [JStr "content_gap"; JStr "mixed"])])])
  in
  let p :=
    fst (reruns digest samples "-" (fresh_page "Default" "Subject: VPN")
           [{| typed := None; sample_position := 0;
               pressed := EvaluateTicket;
               answer := Completion (Some completion) |}]) in
  let interactions :=
    [{| typed := Some "Subject: Billing"; sample_position := 0;
        pressed := EvaluateTicket;
        answer := Completion (Some "not JSON") |}] in
  let st := state (fst (reruns digest samples "-" p interactions)) in
  insights_step st true (Completion (Some "document"))
  = {| after := st; ending := Raised TypeError; snapshot := [];
       prompts := [] |}
  /\ content_share_terms (coaching_history st) = Raise TypeError.
Proof.
  intros digest samples completion p interactions.
  apply (unhashable_root_cause_stops_step_3 digest samples "-" p
           interactions true (Completion (Some "document"))).
  vm_compute. reflexivity.
Defined.

Lemma non_text_summary_stops_the_team_document_witness :
  let digest := fun text : string => text in
  let samples := [("Sample A", "Subject: Printer")] in
  let completion :=
    dumps
      (JObj [("coaching_summary",
              JArr [JStr "Ask first."; JStr "Check the history."])]) in
  let p :=
    fst (reruns digest samples "-" (fresh_page "Default" "Subject: VPN")
           [{| typed := None; sample_position := 0;
               pressed := EvaluateTicket;
               answer := Completion (Some completion) |}]) in
  let interactions :=
    [{| typed := None; sample_position := 1; pressed := LoadSample;
        answer := GatewayFails |}] in
  let history :=
    coaching_history (state (fst (reruns digest samples "-" p interactions)))
  in
  generate_team_insights history (Completion (Some "document"))
  = Raise AttributeError
  /\ insights_prompts history = [].
Proof.
  intros digest samples completion p interactions.
  apply (non_text_summary_stops_the_team_document digest samples "-" p
           interactions (Completion (Some "document"))).
  vm_compute. reflexivity.
Defined.


Lemma decode_failure_on_the_page_witness :
  render_result "-" (Some (decode "Sorry, I cannot rate this ticket."))
  = ([Error
        (JStr ("Failed to parse model output as JSON: "
               ++ describe ExpectingValue))],
     Ok tt)
  /\ kb_offer (decode "Sorry, I cannot rate this ticket.") = Ok None
  /\ raw_json_expander (Some (decode "Sorry, I cannot rate this ticket."))
     = ([Written (JStr "Last call returned an error:");
         Code (JStr "Sorry, I cannot rate this ticket.")],
        Ok tt).
Proof.
  apply (decode_failure_on_the_page "-"
           "Sorry, I cannot rate this ticket." ExpectingValue).
  vm_compute. reflexivity.
Defined.

Lemma appendix_text_reads_back_witness :
  exists text,
    raw_json_expander
      (Some (JObj [("coaching_summary", JStr "Ask first.");
                   ("overall_rating", JObj [("score", JInt 3)])]))
    = ([Code (JStr text)], Ok tt)
    /\ loads text
       = inl (JObj [("coaching_summary", JStr "Ask first.");
                    ("overall_rating", JObj [("score", JInt 3)])]).
Proof.
  apply (appendix_text_reads_back
           [("coaching_summary", JStr "Ask first.");
            ("overall_rating", JObj [("score", JInt 3)])]);
    reflexivity.
Defined.

Lemma non_object_result_is_stored_and_not_logged_witness :
  let digest := fun text : string => text in
  let st := fresh_session "Default" in
  let r := run_eval digest st "Subject: VPN" (Completion (Some "42")) in
  final r
  = {| last_result := Some (JInt 42);
       last_ticket_text := "Subject: VPN";
       kb_draft := EmptyString;
       coaching_history := coaching_history st;
       coaching_keys := coaching_keys st;
       team_insights := EmptyString;
       current_ticket_label := current_ticket_label st |}
  /\ ended r = Raised TypeError
  /\ snd (render_result "-" (Some (JInt 42))) = Raise TypeError.
Proof.
  intros digest st.
  apply (non_object_result_is_stored_and_not_logged digest "-" st
           "Subject: VPN" (Some "42") (JInt 42)).
  - reflexivity.
  - vm_compute. reflexivity.
  - reflexivity.
Defined.

End PageSamples.
